(** * Zoraxy plugin support library: embedded UI router and start-up handshake

    Shallow embedding of [embed_webserver.go] (the [PluginUiRouter]) and of
    the plugin include file that follows it in the same listing
    ([ServeIntroSpect], [RecvConfigureSpec], [ServeAndRecvSpec]).

    Go strings are byte sequences and are modelled by [string]; the HTTP
    header is Go's [map[string][]string] and is modelled by a [gmap]; the
    embedded file system is the sorted slice of files that package [embed]
    keeps, modelled by a list of [file] records.  The functions of the Go
    standard library that the code calls on strings, paths and the embedded
    tree are modelled here, and so is the encoder of [encoding/json] on a
    descriptor; [url.Parse] and the decoder of [encoding/json] are
    parameters (type classes), as is the encoder in the statements that hold
    for any.  A handler's response is the list of library calls it makes on
    its [ResponseWriter]. *)

From Stdlib Require Import ZArith Ascii String List Bool Lia DecimalString DecimalZ.
From stdpp Require Import base option list strings gmap.

Local Open Scope string_scope.
Local Arguments String.append !_ _ / : simpl nomatch.

(** ** Package [strings] of the Go standard library *)

Fixpoint strings_HasPrefix (s prefix : string) {struct prefix} : bool :=
  match prefix, s with
  | "", _ => true
  | String _ _, "" => false
  | String a prefix', String b s' =>
      if Ascii.eqb a b then strings_HasPrefix s' prefix' else false
  end.

Fixpoint string_drop (n : nat) (s : string) : string :=
  match n, s with
  | O, _ => s
  | S _, "" => ""
  | S n', String _ s' => string_drop n' s'
  end.

Fixpoint string_take (n : nat) (s : string) : string :=
  match n, s with
  | O, _ => ""
  | S _, "" => ""
  | S n', String c s' => String c (string_take n' s')
  end.

(** [strings.HasSuffix(s, suffix)] is
    [len(s) >= len(suffix) && s[len(s)-len(suffix):] == suffix]. *)
Definition strings_HasSuffix (s suffix : string) : bool :=
  (String.length suffix <=? String.length s)%nat
  && String.eqb (string_drop (String.length s - String.length suffix) s) suffix.

Definition strings_TrimPrefix (s prefix : string) : string :=
  if strings_HasPrefix s prefix then string_drop (String.length prefix) s else s.

Definition strings_TrimSuffix (s suffix : string) : string :=
  if strings_HasSuffix s suffix
  then string_take (String.length s - String.length suffix) s
  else s.

(** [strings.ReplaceAll(s, old, new)] for a non-empty [old]: the occurrences
    of [old] are found from left to right, each search resuming just after
    the previous occurrence, and every one of them is replaced by [new].
    [skip] counts the bytes of the occurrence being stepped over.  (With an
    empty [old] Go inserts [new] around every rune; the router only passes
    the constants ["//"] and ["{{.csrfToken}}"], so that branch is not
    modelled and [s] is returned as it is.) *)
Fixpoint ReplaceAll_from (old new : string) (skip : nat) (s : string) : string :=
  match s with
  | "" => ""
  | String c s' =>
      match skip with
      | S k => ReplaceAll_from old new k s'
      | O =>
          if strings_HasPrefix s old
          then new +:+ ReplaceAll_from old new (String.length old - 1) s'
          else String c (ReplaceAll_from old new 0 s')
      end
  end.

Definition strings_ReplaceAll (s old new : string) : string :=
  if String.eqb old new then s
  else match old with
       | "" => s
       | String _ _ => ReplaceAll_from old new 0 s
       end.

Definition strings_Join (elems : list string) (sep : string) : string :=
  String.concat sep elems.

(** [strings.Contains(s, substr)]. *)
Fixpoint strings_Contains (s substr : string) : bool :=
  strings_HasPrefix s substr
  || match s with
     | "" => false
     | String _ s' => strings_Contains s' substr
     end.

(** ** Packages [unicode/utf8], [io/fs] and [embed] of the Go standard library *)

(** [utf8.ValidString]: [pending] continuation bytes are still expected and
    the next one must lie in [[lo, hi]] (the second byte of a sequence has a
    range that depends on the first one, which excludes over-long forms,
    surrogates and code points above U+10FFFF). *)
Fixpoint utf8_scan (pending : nat) (lo hi : N) (s : string) : bool :=
  match s with
  | "" => Nat.eqb pending 0
  | String c s' =>
      let b := N_of_ascii c in
      match pending with
      | S k => if (lo <=? b)%N && (b <=? hi)%N then utf8_scan k 128 191 s' else false
      | O =>
          if (b <? 128)%N then utf8_scan 0 128 191 s'
          else if (194 <=? b)%N && (b <=? 223)%N then utf8_scan 1 128 191 s'
          else if (b =? 224)%N then utf8_scan 2 160 191 s'
          else if (225 <=? b)%N && (b <=? 236)%N then utf8_scan 2 128 191 s'
          else if (b =? 237)%N then utf8_scan 2 128 159 s'
          else if (238 <=? b)%N && (b <=? 239)%N then utf8_scan 2 128 191 s'
          else if (b =? 240)%N then utf8_scan 3 144 191 s'
          else if (241 <=? b)%N && (b <=? 243)%N then utf8_scan 3 128 191 s'
          else if (b =? 244)%N then utf8_scan 3 128 143 s'
          else false
      end
  end.

Definition utf8_ValidString (s : string) : bool := utf8_scan 0 128 191 s.

(** The slash-separated elements of a path; [""] has the single element [""]. *)
Fixpoint path_elements (s : string) : list string :=
  match s with
  | "" => [""]
  | String c s' =>
      if Ascii.eqb c "/" then "" :: path_elements s'
      else match path_elements s' with
           | e :: es => String c e :: es
           | [] => [String c ""]
           end
  end.

Definition valid_element (elem : string) : bool :=
  negb (String.eqb elem "" || String.eqb elem "." || String.eqb elem "..").

(** [fs.ValidPath]: valid UTF-8, and either the root ["."] or a sequence of
    elements none of which is empty, ["."] or [".."]. *)
Definition fs_ValidPath (name : string) : bool :=
  utf8_ValidString name
  && (String.eqb name "." || forallb valid_element (path_elements name)).

(** A file of an [embed.FS]; the name of a directory ends in a slash. *)
Record file := { name : string; data : string }.

Record embed_FS := { files : list file }.

Definition trimSlash (name : string) : string := strings_TrimSuffix name "/".

Definition file_IsDir (f : file) : bool := strings_HasSuffix (name f) "/".

Definition dotFile : file := {| name := "./"; data := "" |}.

(** [embed.FS.lookup]: Go searches the sorted slice by bisection for the file
    whose name without its trailing slash is [name]. *)
Definition embed_lookup (f : embed_FS) (name' : string) : option file :=
  if negb (fs_ValidPath name') then None
  else if String.eqb name' "." then Some dotFile
  else List.find (fun x => String.eqb (trimSlash (name x)) name') (files f).

(** [fs.ReadFile] on an [embed.FS]: the error value (not found, or
    "is a directory") is dropped, the router only tests [err != nil]. *)
Definition fs_ReadFile (f : embed_FS) (name' : string) : option string :=
  match embed_lookup f name' with
  | None => None
  | Some x => if file_IsDir x then None else Some (data x)
  end.

(** The [fs.FS] values the router handles: the embedded tree, or the view
    [&subFS{fsys, dir}] that [fs.Sub] builds over one. *)
Inductive fs_FS :=
| of_embed (f : embed_FS)
| subFS (fsys : fs_FS) (dir : string).

Record PathError := { Op : string; PathError_Path : string; Err : string }.

Definition PathError_Error (e : PathError) : string :=
  Op e +:+ " " +:+ PathError_Path e +:+ ": " +:+ Err e.

Definition ErrInvalid : string := "invalid argument".

Definition fs_Sub (fsys : fs_FS) (dir : string) : fs_FS + PathError :=
  if negb (fs_ValidPath dir)
  then inr {| Op := "sub"; PathError_Path := dir; Err := ErrInvalid |}
  else if String.eqb dir "." then inl fsys
  else inl (subFS fsys dir).

(** [subFS.fullName]: [path.Join(dir, name)] for a valid [name]; on two valid
    paths [path.Join] has nothing to clean except a [name] equal to ["."]. *)
Definition subFS_fullName (dir name' : string) : option string :=
  if negb (fs_ValidPath name') then None
  else Some (if String.eqb name' "." then dir else dir +:+ "/" +:+ name').

(** [Open] through the interface: the file or directory entry reached. *)
Fixpoint fs_Open (fsys : fs_FS) (name' : string) : option file :=
  match fsys with
  | of_embed f => embed_lookup f name'
  | subFS fsys' dir =>
      match subFS_fullName dir name' with
      | None => None
      | Some full => fs_Open fsys' full
      end
  end.

(** ** Packages [net/url] and [net/http] *)

(** The router reads one field of the parsed [url.URL]. *)
Record url_URL := { Path : string }.

(** [url.Parse] belongs to Go's [net/url] and is taken as a parameter of the
    development: [None] is the [nil] URL returned together with an error. *)
Class net_url := { url_Parse : string -> option url_URL }.

(** [http.Header] is [map[string][]string]; [Get] returns the first value
    stored under the key, or [""].  The key used by the router is already
    in canonical MIME form. *)
Definition http_Header_Get (h : gmap string (list string)) (key : string) : string :=
  match h !! key with
  | Some (v :: _) => v
  | _ => ""
  end.

Record http_Request := {
  RequestURI : string;
  URL : option url_URL;
  Header : gmap string (list string)
}.

Definition StatusFound : Z := 302.
Definition StatusNotFound : Z := 404.
Definition StatusInternalServerError : Z := 500.

(** What a handler does with its [ResponseWriter]: the library call that
    produces the response.  [http.Redirect] is recorded with the target it
    is given (it cleans the path before it writes the [Location] header);
    [http.ServeContent] is given [time.Now()] as the modification time,
    which is not represented, and answers 200 unless the request is
    conditional or asks for a range; [http.FileServer] is the generic
    static-file server, characterised by the file system it was built on.
    A [nil] URL makes the first [r.URL.Path] panic. *)
Inductive Call :=
| fmt_Println (line : string)
| http_Redirect (url : string) (code : Z)
| http_Error (error : string) (code : Z)
| http_ServeContent (name' : string) (content : string)
| FileServer_ServeHTTP (root : fs_FS) (r : http_Request)
| nil_pointer_dereference.

Definition http_Handler := http_Request -> list Call.

Definition http_FileServer (root : fs_FS) : http_Handler :=
  fun r => [FileServer_ServeHTTP root r].

(** ** [embed_webserver.go] *)

Record PluginUiRouter := {
  PluginID : string;
  TargetFs : embed_FS;
  TargetFsPrefix : string;
  HandlerPrefix : string
}.

Definition NewPluginEmbedUIRouter (pluginID : string) (targetFs : embed_FS)
    (targetFsPrefix handlerPrefix : string) : PluginUiRouter :=
  let targetFsPrefix :=
    if negb (strings_HasPrefix targetFsPrefix "/") then "/" +:+ targetFsPrefix
    else targetFsPrefix in
  let targetFsPrefix := strings_TrimSuffix targetFsPrefix "/" in
  let handlerPrefix :=
    if negb (strings_HasPrefix handlerPrefix "/") then "/" +:+ handlerPrefix
    else handlerPrefix in
  let handlerPrefix := strings_TrimSuffix handlerPrefix "/" in
  {| PluginID := pluginID;
     TargetFs := targetFs;
     TargetFsPrefix := targetFsPrefix;
     HandlerPrefix := handlerPrefix |}.

Definition csrf_header : string := "X-Zoraxy-Csrf".
Definition csrf_missing : string := "missing-csrf-token".
Definition csrf_placeholder : string := "{{.csrfToken}}".

(** The token [populateCSRFToken] computes before it builds the middleware. *)
Definition csrfToken_of (r : http_Request) : string :=
  let csrfToken := http_Header_Get (Header r) csrf_header in
  if String.eqb csrfToken "" then csrf_missing else csrfToken.

(** The path of the embedded file an HTML request is read from. *)
Definition targetFilePath_of (p : PluginUiRouter) (urlPath : string) : string :=
  let targetFilePath := strings_TrimPrefix urlPath "/" in
  let targetFilePath := TargetFsPrefix p +:+ "/" +:+ targetFilePath in
  strings_TrimPrefix targetFilePath "/".

Definition populateCSRFToken (p : PluginUiRouter) (r : http_Request)
    (fsHandler : http_Handler) : http_Handler :=
  let csrfToken := csrfToken_of r in
  fun r =>
    match URL r with
    | None => [nil_pointer_dereference]
    | Some u =>
        if strings_HasSuffix (Path u) "/" then
          [http_Redirect (Path u +:+ "index.html") StatusFound]
        else if strings_HasSuffix (Path u) ".html" then
          match fs_ReadFile (TargetFs p) (targetFilePath_of p (Path u)) with
          | None => [http_Error "File not found" StatusNotFound]
          | Some targetFileContent =>
              let body := targetFileContent in
              let body := strings_ReplaceAll body csrf_placeholder csrfToken in
              [http_ServeContent (Path u) body]
          end
        else fsHandler r
    end.

Definition Handler `{net_url} (p : PluginUiRouter) : http_Handler :=
  fun r =>
    let rewrittenURL := RequestURI r in
    let rewrittenURL := strings_TrimPrefix rewrittenURL (HandlerPrefix p) in
    let rewrittenURL := strings_ReplaceAll rewrittenURL "//" "/" in
    let r := {| RequestURI := rewrittenURL;
                URL := url_Parse rewrittenURL;
                Header := Header r |} in
    match fs_Sub (of_embed (TargetFs p)) (strings_TrimPrefix (TargetFsPrefix p) "/") with
    | inr err =>
        [fmt_Println (PathError_Error err);
         http_Error "Internal Server Error" StatusInternalServerError]
    | inl subFS' => populateCSRFToken p r (http_FileServer subFS') r
    end.

(** ** The plugin include file: introspection and configuration *)

Inductive PluginType :=
| PluginType_Router
| PluginType_Utilities.

Definition PluginType_value (t : PluginType) : Z :=
  match t with
  | PluginType_Router => 0
  | PluginType_Utilities => 1
  end.

Record CaptureRule := {
  CapturePath : string;
  IncludeSubPaths : bool
}.

Definition ControlStatusCode_CAPTURED : Z := 280.
Definition ControlStatusCode_UNHANDLED : Z := 284.
Definition ControlStatusCode_ERROR : Z := 580.

Record SubscriptionEvent := {
  EventName : string;
  EventSource : string;
  Payload : string
}.

Record RuntimeConstantValue := {
  ZoraxyVersion : string;
  ZoraxyUUID : string
}.

(** The two slices and the map are [None] when they are [nil], which is
    what a descriptor literal that leaves them out holds; [encoding/json]
    prints a [nil] slice or map and an empty one differently. *)
Record IntroSpect := {
  ID : string;
  Name : string;
  Author : string;
  AuthorContact : string;
  Description : string;
  IntroSpect_URL : string;
  Type' : PluginType;
  VersionMajor : Z;
  VersionMinor : Z;
  VersionPatch : Z;
  GlobalCapturePath : option (list CaptureRule);
  GlobalCaptureIngress : string;
  AlwaysCapturePath : option (list CaptureRule);
  AlwaysCaptureIngress : string;
  DynmaicCaptureIngress : string;
  DynamicHandleIngress : string;
  UIPath : string;
  SubscriptionPath : string;
  SubscriptionsEvents : option (gmap string string)
}.

Record ConfigureSpec := {
  Port : Z;
  RuntimeConst : RuntimeConstantValue
}.

(** Errors: the two built with [fmt.Errorf], and the ones [json.Unmarshal]
    returns, which [RecvConfigureSpec] passes on unchanged. *)
Inductive error :=
| fmt_Errorf (msg : string)
| json_error (msg : string).

(** [encoding/json] as a parameter.  [json_Unmarshal data] is
    [json.Unmarshal(data, &configSpec)] on a zero [configSpec]: the decoded
    value, or the message of the error.  [json_MarshalIndent v prefix indent]
    is the text produced, [None] when Go returns [nil] bytes and an error;
    [encoding_json] below is the encoder of the Go standard library. *)
Class json_Decoder := { json_Unmarshal : string -> ConfigureSpec + string }.
Class json_Encoder := { json_MarshalIndent : IntroSpect -> string -> string -> option string }.

(** A process step: the calls made so far and either a value or the exit
    status [os.Exit] ended the process with. *)
Inductive Outcome (A : Type) :=
| Returned (a : A)
| Exited (code : Z).
Arguments Returned {A} a.
Arguments Exited {A} code.

Definition Proc (A : Type) : Type := list Call * Outcome A.

Definition Proc_ret {A} (a : A) : Proc A := ([], Returned a).

Definition Proc_bind {A B} (m : Proc A) (k : A -> Proc B) : Proc B :=
  match m with
  | (t, Returned a) => let '(t', o) := k a in ((t ++ t')%list, o)
  | (t, Exited code) => (t, Exited code)
  end.

Definition Println (line : string) : Proc unit := ([fmt_Println line], Returned tt).
Definition os_Exit {A} (code : Z) : Proc A := ([], Exited code).

Notation "m ;;; k" := (Proc_bind m (fun _ => k)) (at level 100, right associativity).

(** [string(jsonData)] for the bytes [json.MarshalIndent] returned. *)
Definition string_of_bytes (jsonData : option string) : string :=
  match jsonData with
  | Some text => text
  | None => ""
  end.

Definition ServeIntroSpect `{json_Encoder} (pluginSpect : IntroSpect)
    (os_Args : list string) : Proc unit :=
  if (1 <? length os_Args)%nat && String.eqb (nth 1 os_Args "") "-introspect" then
    let jsonData := json_MarshalIndent pluginSpect "" " " in
    Println (string_of_bytes jsonData) ;;;
    os_Exit 0
  else Proc_ret tt.

(** The loop of [RecvConfigureSpec]: [rest] is what is left of [os.Args]
    from index [i] on. *)
Fixpoint RecvConfigureSpec_range `{json_Decoder} (os_Args : list string) (i : nat)
    (rest : list string) : ConfigureSpec + error :=
  match rest with
  | [] => inr (fmt_Errorf "No -configure flag found")
  | arg :: rest' =>
      if strings_HasPrefix arg "-configure=" then
        match json_Unmarshal (string_drop 11 arg) with
        | inr err => inr (json_error err)
        | inl configSpec => inl configSpec
        end
      else if String.eqb arg "-configure" then
        if (i + 1 <? length os_Args)%nat then
          let nextArg := nth (i + 1) os_Args "" in
          match json_Unmarshal nextArg with
          | inr err => inr (json_error err)
          | inl configSpec => inl configSpec
          end
        else inr (fmt_Errorf "No port specified after -configure flag")
      else RecvConfigureSpec_range os_Args (S i) rest'
  end.

Definition RecvConfigureSpec `{json_Decoder} (os_Args : list string)
    : ConfigureSpec + error :=
  RecvConfigureSpec_range os_Args 0 os_Args.

Definition ServeAndRecvSpec `{json_Encoder} `{json_Decoder} (pluginSpect : IntroSpect)
    (os_Args : list string) : Proc (ConfigureSpec + error) :=
  ServeIntroSpect pluginSpect os_Args ;;;
  Proc_ret (RecvConfigureSpec os_Args).

(** The two failure classes of the configuration step. *)
Definition MissingConfiguration (r : ConfigureSpec + error) : Prop :=
  exists msg, r = inr (fmt_Errorf msg).

Definition MalformedConfiguration (r : ConfigureSpec + error) : Prop :=
  exists msg, r = inr (json_error msg).

(** A configuration directive: [-configure=<json>] or a bare [-configure]. *)
Definition is_directive (arg : string) : bool :=
  strings_HasPrefix arg "-configure=" || String.eqb arg "-configure".

Definition no_directive (args : list string) : bool :=
  forallb (fun arg => negb (is_directive arg)) args.

(** What [RecvConfigureSpec] returns for the result of [json.Unmarshal]. *)
Definition decoded (result : ConfigureSpec + string) : ConfigureSpec + error :=
  match result with
  | inl configSpec => inl configSpec
  | inr err => inr (json_error err)
  end.

(** The [*ConfigureSpec] returned: [None] is the [nil] that comes with an error. *)
Definition returned_spec (result : ConfigureSpec + error) : option ConfigureSpec :=
  match result with
  | inl configSpec => Some configSpec
  | inr _ => None
  end.

(** The request target once the handler prefix is removed and doubled
    slashes are collapsed: the text [Handler] hands to [url.Parse]. *)
Definition rewrittenURL_of (p : PluginUiRouter) (r : http_Request) : string :=
  strings_ReplaceAll (strings_TrimPrefix (RequestURI r) (HandlerPrefix p)) "//" "/".

(** The directory of the embedded tree that [Handler] passes to [fs.Sub]. *)
Definition asset_dir (p : PluginUiRouter) : string :=
  strings_TrimPrefix (TargetFsPrefix p) "/".

(** A relative path none of whose elements is empty, [.] or [..]. *)
Definition traversal_free (rel : string) : bool :=
  forallb valid_element (path_elements rel).

(** [nm] names the asset directory [dir] itself or something below it,
    reached without any traversal element; [.] is the whole tree. *)
Definition in_subtree (dir nm : string) : Prop :=
  dir = "." \/ nm = dir
  \/ exists rel, traversal_free rel = true /\ nm = dir +:+ String "/" rel.

(** The answers of [Handler], with what each one may disclose of the
    embedded tree. *)
Inductive Handler_answer (p : PluginUiRouter) : list Call -> Prop :=
| answer_internal_error (line : string) :
    Handler_answer p
      [fmt_Println line; http_Error "Internal Server Error" StatusInternalServerError]
| answer_aborted :
    Handler_answer p [nil_pointer_dereference]
| answer_redirect (url : string) :
    Handler_answer p [http_Redirect url StatusFound]
| answer_not_found :
    Handler_answer p [http_Error "File not found" StatusNotFound]
| answer_document (nm token : string) (f : file) :
    In f (files (TargetFs p)) ->
    in_subtree (asset_dir p) (trimSlash (name f)) ->
    Handler_answer p
      [http_ServeContent nm (strings_ReplaceAll (data f) csrf_placeholder token)]
| answer_static (root : fs_FS) (r : http_Request) :
    (forall n f,
        fs_Open root n = Some f ->
        (f = dotFile \/ In f (files (TargetFs p)))
        /\ in_subtree (asset_dir p) (trimSlash (name f))) ->
    Handler_answer p [FileServer_ServeHTTP root r].

(** The two outcomes the specification allows for a traversal request: a
    not-found answer, or content (an HTML document, or whatever the static
    file server sends). *)
Definition not_found_or_content (answer : list Call) : Prop :=
  (exists msg, answer = [http_Error msg StatusNotFound])
  \/ (exists nm body, answer = [http_ServeContent nm body])
  \/ (exists root r, answer = [FileServer_ServeHTTP root r]).

(** What the constructor does to each of its two prefixes. *)
Definition slash_prefixed (prefix : string) : string :=
  strings_TrimSuffix
    (if negb (strings_HasPrefix prefix "/") then "/" +:+ prefix else prefix) "/".

(** The [/prefix] format: exactly one leading slash and no trailing slash. *)
Definition normalized_prefix (s : string) : bool :=
  strings_HasPrefix s "/"
  && negb (strings_HasPrefix s "//")
  && negb (strings_HasSuffix s "/").

(** The pieces of [s] between the successive occurrences of a non-empty
    [old], found as [strings.ReplaceAll] finds them ([strings.Split] returns
    the same list). *)
Fixpoint pieces_from (old : string) (skip : nat) (s : string) : list string :=
  match s with
  | "" => [""]
  | String c s' =>
      match skip with
      | S k => pieces_from old k s'
      | O =>
          if strings_HasPrefix s old
          then "" :: pieces_from old (String.length old - 1) s'
          else match pieces_from old 0 s' with
               | x :: xs => String c x :: xs
               | [] => [String c ""]
               end
      end
  end.

Definition strings_Split (s sep : string) : list string := pieces_from sep 0 s.

(** A pattern has a border when one of its proper non-empty prefixes is
    also a suffix; only such a pattern can overlap itself. *)
Definition has_border (p : string) : bool :=
  existsb
    (fun k => String.eqb (string_take k p) (string_drop (String.length p - k) p))
    (seq 1 (String.length p - 1)).

(** ** Package [encoding/json]: [MarshalIndent] on the descriptor

    [json.MarshalIndent(v, prefix, indent)] is [json.Marshal(v)] laid out by
    [appendIndent].  [Marshal] walks the value by reflection: a struct is an
    object whose members are the fields under their [json] tags, in the
    order of declaration; a string is quoted by [appendString] with HTML
    escaping on; an [int] and a [PluginType] are printed in base ten; a
    slice is an array and a map an object whose keys are sorted bytewise,
    both [null] when [nil].  None of these encoders fails, so the error that
    [ServeIntroSpect] drops is always [nil]. *)

Definition json_quote : ascii := "034"%char.
Definition json_backslash : ascii := "092"%char.
Definition json_newline : ascii := "010"%char.

Definition utf8_RuneError : N := 65533.
Definition utf8_RuneSelf : N := 128.

(** The table [first] of package [utf8] on a lead byte that is not ASCII:
    the size of the sequence and the range accepted for its second byte;
    [None] for the bytes that start no sequence. *)
Definition utf8_first (s0 : N) : option (nat * (N * N)) :=
  (if (194 <=? s0) && (s0 <=? 223) then Some (2%nat, (128, 191))
   else if s0 =? 224 then Some (3%nat, (160, 191))
   else if (225 <=? s0) && (s0 <=? 236) then Some (3%nat, (128, 191))
   else if s0 =? 237 then Some (3%nat, (128, 159))
   else if (238 <=? s0) && (s0 <=? 239) then Some (3%nat, (128, 191))
   else if s0 =? 240 then Some (4%nat, (144, 191))
   else if (241 <=? s0) && (s0 <=? 243) then Some (4%nat, (128, 191))
   else if s0 =? 244 then Some (4%nat, (128, 143))
   else None)%N.

(** [utf8.DecodeRuneInString]: the rune at the head of [s] and its size in
    bytes, [(RuneError, 1)] when the head is not a valid sequence. *)
Definition utf8_DecodeRuneInString (s : string) : N * nat :=
  match s with
  | "" => (utf8_RuneError, 0%nat)
  | String c0 t0 =>
      let s0 := N_of_ascii c0 in
      if (s0 <? utf8_RuneSelf)%N then (s0, 1%nat)
      else
        match utf8_first s0, t0 with
        | None, _ => (utf8_RuneError, 1%nat)
        | Some _, "" => (utf8_RuneError, 1%nat)
        | Some (sz, (lo, hi)), String c1 t1 =>
            let s1 := N_of_ascii c1 in
            if (s1 <? lo)%N || (hi <? s1)%N then (utf8_RuneError, 1%nat)
            else if (sz <=? 2)%nat
            then (N.lor (N.shiftl (N.land s0 31) 6) (N.land s1 63), 2%nat)
            else
              match t1 with
              | "" => (utf8_RuneError, 1%nat)
              | String c2 t2 =>
                  let s2 := N_of_ascii c2 in
                  if (s2 <? 128)%N || (191 <? s2)%N then (utf8_RuneError, 1%nat)
                  else if (sz <=? 3)%nat
                  then (N.lor (N.lor (N.shiftl (N.land s0 15) 12)
                                     (N.shiftl (N.land s1 63) 6))
                              (N.land s2 63), 3%nat)
                  else
                    match t2 with
                    | "" => (utf8_RuneError, 1%nat)
                    | String c3 _ =>
                        let s3 := N_of_ascii c3 in
                        if (s3 <? 128)%N || (191 <? s3)%N then (utf8_RuneError, 1%nat)
                        else (N.lor (N.lor (N.lor (N.shiftl (N.land s0 7) 18)
                                                  (N.shiftl (N.land s1 63) 12))
                                           (N.shiftl (N.land s2 63) 6))
                                    (N.land s3 63), 4%nat)
                    end
              end
        end
  end.

(** [hex[n]] for the table [hex = "0123456789abcdef"] of [encoding/json]. *)
Definition json_hex (n : N) : string :=
  match String.get (N.to_nat n) "0123456789abcdef" with
  | Some c => String c ""
  | None => ""
  end.

(** [htmlSafeSet[b]] for an ASCII byte: the bytes that [appendString] copies
    as they are when HTML escaping is on. *)
Definition htmlSafeSet (b : ascii) : bool :=
  negb ((N_of_ascii b <? 32)%N || Ascii.eqb b json_quote || Ascii.eqb b json_backslash
        || Ascii.eqb b "&" || Ascii.eqb b "<" || Ascii.eqb b ">").

(** The escape [appendString] writes for an ASCII byte outside
    [htmlSafeSet] (Go 1.22 and later, where backspace and form feed have
    their short form). *)
Definition appendString_escape (b : ascii) : string :=
  let n := N_of_ascii b in
  String json_backslash
    (if Ascii.eqb b json_backslash || Ascii.eqb b json_quote then String b ""
     else if (n =? 8)%N then "b"
     else if (n =? 12)%N then "f"
     else if (n =? 10)%N then "n"
     else if (n =? 13)%N then "r"
     else if (n =? 9)%N then "t"
     else "u00" +:+ json_hex (N.shiftr n 4) +:+ json_hex (N.land n 15)).

(** The loop of [appendString] from a rune boundary on; [skip] counts the
    bytes of the rune just written that the index still has to pass. *)
Fixpoint appendString_from (skip : nat) (src : string) : string :=
  match src with
  | "" => ""
  | String b src' =>
      match skip with
      | S k => appendString_from k src'
      | O =>
          if (N_of_ascii b <? utf8_RuneSelf)%N then
            (if htmlSafeSet b then String b "" else appendString_escape b)
            +:+ appendString_from 0 src'
          else
            let '(c, size) := utf8_DecodeRuneInString src in
            (if (c =? utf8_RuneError)%N && (size =? 1)%nat
             then String json_backslash "ufffd"
             else if (c =? 8232)%N || (c =? 8233)%N
             then String json_backslash "u202" +:+ json_hex (N.land c 15)
             else string_take size src)
            +:+ appendString_from (size - 1) src'
      end
  end.

Definition appendString (src : string) : string :=
  String json_quote (appendString_from 0 src +:+ String json_quote "").

(** [strconv.AppendInt(dst, n, 10)]. *)
Definition strconv_FormatInt (n : Z) : string :=
  DecimalString.NilZero.string_of_int (Z.to_int n).

(** What the reflection walk of [Marshal] finds in a value. *)
#[warnings="-register-all"]
Inductive json_value :=
| json_null
| json_bool (b : bool)
| json_number (n : Z)
| json_string (s : string)
| json_array (elems : list json_value)
| json_object (members : list (string * json_value)).

Fixpoint string_repeat (s : string) (n : nat) : string :=
  match n with
  | O => ""
  | S n' => s +:+ string_repeat s n'
  end.

Definition appendNewline (prefix indent : string) (depth : nat) : string :=
  String json_newline (prefix +:+ string_repeat indent depth).

(** An array or object with its members already written: [appendIndent]
    puts every member on a line of its own, one level deeper, and leaves an
    empty array or object closed on the spot. *)
Definition appendItems (prefix indent : string) (depth : nat) (opening closing : string)
    (items : list string) : string :=
  match items with
  | [] => opening +:+ closing
  | _ :: _ =>
      opening +:+ appendNewline prefix indent (S depth)
      +:+ String.concat ("," +:+ appendNewline prefix indent (S depth)) items
      +:+ appendNewline prefix indent depth +:+ closing
  end.

Fixpoint appendValue (prefix indent : string) (depth : nat) (v : json_value) : string :=
  match v with
  | json_null => "null"
  | json_bool b => if b then "true" else "false"
  | json_number n => strconv_FormatInt n
  | json_string s => appendString s
  | json_array elems =>
      appendItems prefix indent depth "[" "]"
        (map (appendValue prefix indent (S depth)) elems)
  | json_object members =>
      appendItems prefix indent depth "{" "}"
        (map (fun m => appendString (fst m) +:+ ": "
                       +:+ appendValue prefix indent (S depth) (snd m)) members)
  end.

Definition CaptureRule_value (r : CaptureRule) : json_value :=
  json_object [("capture_path", json_string (CapturePath r));
               ("include_sub_paths", json_bool (IncludeSubPaths r))].

(** A slice: [null] when [nil], an array otherwise. *)
Definition slice_value {A} (elem : A -> json_value) (s : option (list A)) : json_value :=
  match s with
  | None => json_null
  | Some l => json_array (map elem l)
  end.

(** The keys of a map are written in the order of [strings.Compare]. *)
Fixpoint insert_by_key (kv : string * string) (l : list (string * string))
    : list (string * string) :=
  match l with
  | [] => [kv]
  | x :: l' => if String.leb (fst kv) (fst x) then kv :: l else x :: insert_by_key kv l'
  end.

Definition sort_by_key (l : list (string * string)) : list (string * string) :=
  foldr insert_by_key [] l.

(** A [map[string]string]: [null] when [nil], an object otherwise. *)
Definition map_value (m : option (gmap string string)) : json_value :=
  match m with
  | None => json_null
  | Some m =>
      json_object (map (fun kv => (fst kv, json_string (snd kv)))
                       (sort_by_key (map_to_list m)))
  end.

(** The fields of [IntroSpect] under their [json] tags. *)
Definition IntroSpect_value (v : IntroSpect) : json_value :=
  json_object
    [("id", json_string (ID v));
     ("name", json_string (Name v));
     ("author", json_string (Author v));
     ("author_contact", json_string (AuthorContact v));
     ("description", json_string (Description v));
     ("url", json_string (IntroSpect_URL v));
     ("type", json_number (PluginType_value (Type' v)));
     ("version_major", json_number (VersionMajor v));
     ("version_minor", json_number (VersionMinor v));
     ("version_patch", json_number (VersionPatch v));
     ("global_capture_path", slice_value CaptureRule_value (GlobalCapturePath v));
     ("global_capture_ingress", json_string (GlobalCaptureIngress v));
     ("always_capture_path", slice_value CaptureRule_value (AlwaysCapturePath v));
     ("always_capture_ingress", json_string (AlwaysCaptureIngress v));
     ("capture_path", json_string (DynmaicCaptureIngress v));
     ("handle_path", json_string (DynamicHandleIngress v));
     ("ui_path", json_string (UIPath v));
     ("subscription_path", json_string (SubscriptionPath v));
     ("subscriptions_events", map_value (SubscriptionsEvents v))].

(** [encoding/json] on a descriptor. *)
Definition encoding_json : json_Encoder :=
  {| json_MarshalIndent v prefix indent :=
       Some (appendValue prefix indent 0 (IntroSpect_value v)) |}.

(** ** Reading a JSON text

    A reader for the JSON grammar of RFC 8259 restricted to integers without
    fraction or exponent and to [\u] escapes outside the surrogate range.
    It accepts no text outside that grammar, and gives the value a text it
    accepts denotes: the strings with their escapes resolved.  The bytes of
    a string other than the quote, the backslash and the control characters
    are taken as they are; that a text is UTF-8 is what [utf8_ValidString]
    tells. *)

Definition is_space (c : ascii) : bool :=
  Ascii.eqb c " " || Ascii.eqb c "009" || Ascii.eqb c "010" || Ascii.eqb c "013".

Fixpoint skip_space (s : string) : string :=
  match s with
  | "" => ""
  | String c s' => if is_space c then skip_space s' else s
  end.

Definition is_digit (c : ascii) : bool :=
  (48 <=? N_of_ascii c)%N && (N_of_ascii c <=? 57)%N.

Definition hex_value (c : ascii) : option N :=
  let n := N_of_ascii c in
  (if (48 <=? n) && (n <=? 57) then Some (n - 48)
   else if (97 <=? n) && (n <=? 102) then Some (n - 87)
   else if (65 <=? n) && (n <=? 70) then Some (n - 55)
   else None)%N.

(** The UTF-8 encoding of a code point of the basic plane; none for a
    surrogate. *)
Definition utf8_encode (r : N) : option string :=
  (if r <? 128 then Some (String (ascii_of_N r) "")
   else if r <? 2048 then
     Some (String (ascii_of_N (192 + r / 64)) (String (ascii_of_N (128 + r mod 64)) ""))
   else if (55296 <=? r) && (r <=? 57343) then None
   else
     Some (String (ascii_of_N (224 + r / 4096))
             (String (ascii_of_N (128 + (r / 64) mod 64))
                (String (ascii_of_N (128 + r mod 64)) ""))))%N.

(** The character a one-letter escape stands for. *)
Definition unescape (c : ascii) : option ascii :=
  if Ascii.eqb c json_quote || Ascii.eqb c json_backslash || Ascii.eqb c "/" then Some c
  else if Ascii.eqb c "b" then Some "008"%char
  else if Ascii.eqb c "f" then Some "012"%char
  else if Ascii.eqb c "n" then Some "010"%char
  else if Ascii.eqb c "r" then Some "013"%char
  else if Ascii.eqb c "t" then Some "009"%char
  else None.

Inductive string_state :=
| in_text
| in_escape
| in_hex (more : nat) (acc : N).

Definition prepend {A} (pre : string) (r : option (string * A)) : option (string * A) :=
  match r with
  | Some (t, rest) => Some (pre +:+ t, rest)
  | None => None
  end.

(** The body of a string, after its opening quote: the string it denotes
    and the text that follows the closing quote. *)
Fixpoint read_string (st : string_state) (s : string) : option (string * string) :=
  match s with
  | "" => None
  | String c s' =>
      match st with
      | in_text =>
          if Ascii.eqb c json_quote then Some ("", s')
          else if Ascii.eqb c json_backslash then read_string in_escape s'
          else if (N_of_ascii c <? 32)%N then None
          else prepend (String c "") (read_string in_text s')
      | in_escape =>
          match unescape c with
          | Some d => prepend (String d "") (read_string in_text s')
          | None => if Ascii.eqb c "u" then read_string (in_hex 3 0) s' else None
          end
      | in_hex more acc =>
          match hex_value c with
          | None => None
          | Some d =>
              let acc' := (acc * 16 + d)%N in
              match more with
              | S more' => read_string (in_hex more' acc') s'
              | O =>
                  match utf8_encode acc' with
                  | Some bytes => prepend bytes (read_string in_text s')
                  | None => None
                  end
              end
          end
      end
  end.

Fixpoint span_digits (s : string) : string * string :=
  match s with
  | "" => ("", "")
  | String c s' =>
      if is_digit c then let '(d, rest) := span_digits s' in (String c d, rest)
      else ("", s)
  end.

(** An integer: an optional minus sign and digits, without a leading zero
    before another digit, and not followed by a fraction or an exponent. *)
Definition read_number (s : string) : option (Z * string) :=
  let '(sign, s1) :=
    match s with
    | String c s' => if Ascii.eqb c "-" then ("-", s') else ("", s)
    | "" => ("", s)
    end in
  let '(digits, rest) := span_digits s1 in
  if strings_HasPrefix digits "0" && (1 <? String.length digits)%nat then None
  else if strings_HasPrefix rest "." || strings_HasPrefix rest "e"
          || strings_HasPrefix rest "E" then None
  else
    match DecimalString.NilZero.int_of_string (sign +:+ digits) with
    | Some d => Some (Z.of_int d, rest)
    | None => None
    end.

Definition with_value {A B} (f : A -> B) (r : option (A * string)) : option (B * string) :=
  match r with
  | Some (a, rest) => Some (f a, rest)
  | None => None
  end.

(** A value at the head of [s], and the members of an object or the
    elements of an array from the first one on; [fuel] bounds the number of
    values read. *)
Fixpoint read_value (fuel : nat) (s : string) : option (json_value * string) :=
  match fuel, s with
  | O, _ => None
  | _, "" => None
  | S fuel', String c s' =>
      if Ascii.eqb c json_quote then with_value json_string (read_string in_text s')
      else if Ascii.eqb c "{" then
        if strings_HasPrefix (skip_space s') "}"
        then Some (json_object [], string_drop 1 (skip_space s'))
        else with_value json_object (read_members fuel' (skip_space s'))
      else if Ascii.eqb c "[" then
        if strings_HasPrefix (skip_space s') "]"
        then Some (json_array [], string_drop 1 (skip_space s'))
        else with_value json_array (read_elements fuel' (skip_space s'))
      else if strings_HasPrefix s "null" then Some (json_null, string_drop 4 s)
      else if strings_HasPrefix s "true" then Some (json_bool true, string_drop 4 s)
      else if strings_HasPrefix s "false" then Some (json_bool false, string_drop 5 s)
      else with_value json_number (read_number s)
  end
with read_members (fuel : nat) (s : string)
    : option (list (string * json_value) * string) :=
  match fuel, s with
  | O, _ => None
  | _, "" => None
  | S fuel', String c s' =>
      if Ascii.eqb c json_quote then
        match read_string in_text s' with
        | None => None
        | Some (key, s1) =>
            if strings_HasPrefix (skip_space s1) ":" then
              match read_value fuel' (skip_space (string_drop 1 (skip_space s1))) with
              | None => None
              | Some (v, s2) =>
                  if strings_HasPrefix (skip_space s2) "," then
                    with_value (cons (key, v))
                      (read_members fuel' (skip_space (string_drop 1 (skip_space s2))))
                  else if strings_HasPrefix (skip_space s2) "}" then
                    Some ([(key, v)], string_drop 1 (skip_space s2))
                  else None
              end
            else None
        end
      else None
  end
with read_elements (fuel : nat) (s : string) : option (list json_value * string) :=
  match fuel with
  | O => None
  | S fuel' =>
      match read_value fuel' s with
      | None => None
      | Some (v, s1) =>
          if strings_HasPrefix (skip_space s1) "," then
            with_value (cons v)
              (read_elements fuel' (skip_space (string_drop 1 (skip_space s1))))
          else if strings_HasPrefix (skip_space s1) "]" then
            Some ([v], string_drop 1 (skip_space s1))
          else None
      end
  end.

(** A whole text: one value, with space allowed around it. *)
Definition json_parse (text : string) : option json_value :=
  match read_value (S (String.length text)) (skip_space text) with
  | Some (v, rest) => if String.eqb (skip_space rest) "" then Some v else None
  | None => None
  end.

(** The member of an object under a key. *)
Definition json_member (key : string) (doc : json_value) : option json_value :=
  match doc with
  | json_object members =>
      option_map snd (find (fun m => String.eqb (fst m) key) members)
  | _ => None
  end.

(** A string coerced to valid UTF-8 as [encoding/json] does it: every byte
    that begins no valid sequence becomes U+FFFD. *)
Fixpoint ToValidUTF8_from (skip : nat) (s : string) : string :=
  match s with
  | "" => ""
  | String b s' =>
      match skip with
      | S k => String b (ToValidUTF8_from k s')
      | O =>
          let '(c, size) := utf8_DecodeRuneInString s in
          if (c =? utf8_RuneError)%N && (size =? 1)%nat
          then String "239" (String "191" (String "189" (ToValidUTF8_from 0 s')))
          else String b (ToValidUTF8_from (size - 1) s')
      end
  end.

Definition json_ToValidUTF8 (s : string) : string := ToValidUTF8_from 0 s.

(** The value a reader finds in what [appendValue] wrote. *)
Fixpoint json_coerce (v : json_value) : json_value :=
  match v with
  | json_string s => json_string (json_ToValidUTF8 s)
  | json_array elems => json_array (map json_coerce elems)
  | json_object members =>
      json_object (map (fun m => (json_ToValidUTF8 (fst m), json_coerce (snd m))) members)
  | _ => v
  end.

(** Every line break of a text is followed by a space. *)
Fixpoint lines_indented (s : string) : bool :=
  match s with
  | "" => true
  | String c s' =>
      (if Ascii.eqb c json_newline then strings_HasPrefix s' " " else true)
      && lines_indented s'
  end.

(** An object whose members are laid out one per line: the text opens with
    a brace, closes with a brace on a line of its own, and every line in
    between starts with a space. *)
Definition json_indented (text : string) : bool :=
  strings_HasPrefix text "{"
  && strings_HasSuffix text (String json_newline "}")
  && lines_indented (string_take (String.length text - 2) text).

(** ** Notions used in the proofs about the document *)

(** A byte of a multi-byte UTF-8 sequence. *)
Definition high_byte (c : ascii) : bool := (128 <=? N_of_ascii c)%N.

(** What may follow the digits of an integer: the end of the text, or a
    character that is no digit and starts no fraction or exponent. *)
Definition number_end (s : string) : bool :=
  match s with
  | "" => true
  | String c _ =>
      negb (is_digit c || Ascii.eqb c "." || Ascii.eqb c "e" || Ascii.eqb c "E")
  end.

(** The characters a value written by [appendValue] starts with. *)
Definition value_start (c : ascii) : bool :=
  is_digit c || Ascii.eqb c "-" || Ascii.eqb c json_quote || Ascii.eqb c "{"
  || Ascii.eqb c "[" || Ascii.eqb c "n" || Ascii.eqb c "t" || Ascii.eqb c "f".

(** A member of an object as [appendValue] writes it at depth [d]. *)
Definition member_text (prefix indent : string) (d : nat) (m : string * json_value)
    : string :=
  appendString (fst m) +:+ ": " +:+ appendValue prefix indent (S d) (snd m).

(** The reader gives back every value whose text has at most [n]
    characters, whatever follows it. *)
Definition reads_back (prefix indent : string) (n : nat) : Prop :=
  forall v d X fuel,
    (String.length (appendValue prefix indent d v) <= n)%nat ->
    (String.length (appendValue prefix indent d v) <= fuel)%nat ->
    number_end X = true ->
    read_value fuel (appendValue prefix indent d v +:+ X) = Some (json_coerce v, X).

Definition not_newline (c : ascii) : bool := negb (Ascii.eqb c json_newline).

Definition ascii_byte (c : ascii) : bool := (N_of_ascii c <? utf8_RuneSelf)%N.

(** An ASCII character other than the line break. *)
Definition text_byte (c : ascii) : bool := ascii_byte c && not_newline c.

(** A text that ends where a rune ends: in front of another text it does
    not change whether that one is valid UTF-8. *)
Definition valid_piece (a : string) : Prop :=
  forall b, utf8_ValidString (a +:+ b) = utf8_ValidString b.

(** A text with no line break left open: in front of another text it does
    not change whether the lines of that one are indented. *)
Definition one_piece (a : string) : Prop :=
  forall b, lines_indented (a +:+ b) = lines_indented b.

(** Division and remainder by a constant, named for [lia]. *)
Ltac mod_facts a m :=
  let H1 := fresh in let H2 := fresh in
  pose proof (N.div_mod a m ltac:(discriminate)) as H1;
  pose proof (N.mod_upper_bound a m ltac:(discriminate)) as H2;
  generalize dependent (N.div a m); generalize dependent (N.modulo a m); intros.

(** Boolean tests on [N] in the hypotheses, as propositions. *)
Ltac bool_to_prop :=
  repeat match goal with
         | H : andb _ _ = true |- _ => apply andb_true_iff in H; destruct H
         | H : andb _ _ = false |- _ => apply andb_false_iff in H
         | H : orb _ _ = false |- _ => apply orb_false_iff in H; destruct H
         | H : orb _ _ = true |- _ => apply orb_true_iff in H
         | H : N.leb _ _ = true |- _ => apply N.leb_le in H
         | H : N.leb _ _ = false |- _ => apply N.leb_gt in H
         | H : N.ltb _ _ = true |- _ => apply N.ltb_lt in H
         | H : N.ltb _ _ = false |- _ => apply N.ltb_ge in H
         | H : N.eqb _ _ = true |- _ => apply N.eqb_eq in H
         | H : N.eqb _ _ = false |- _ => apply N.eqb_neq in H
         end.

(** ** Concrete instances for the examples

    A request target that starts with a single slash and is made of letters,
    digits, dots, dashes, underscores and slashes has no scheme, query,
    fragment, authority or escape for [url.Parse] to process: it is returned
    unchanged as the path.  [url_Parse_plain] is [url.Parse] on those targets
    only; the general statements quantify over every [net_url]. *)
Definition plain_byte (c : ascii) : bool :=
  let n := nat_of_ascii c in
  ((65 <=? n) && (n <=? 90) || (97 <=? n) && (n <=? 122)
   || (48 <=? n) && (n <=? 57)
   || Ascii.eqb c "." || Ascii.eqb c "-" || Ascii.eqb c "_" || Ascii.eqb c "/")%nat.

Fixpoint all_bytes (f : ascii -> bool) (s : string) : bool :=
  match s with
  | "" => true
  | String c s' => f c && all_bytes f s'
  end.

Definition url_Parse_plain : net_url :=
  {| url_Parse rawURL :=
       if strings_HasPrefix rawURL "/" && negb (strings_HasPrefix rawURL "//")
          && all_bytes plain_byte rawURL
       then Some {| Path := rawURL |}
       else None |}.

(** [json.Unmarshal] on the two texts the examples use: the empty input is a
    syntax error, and the empty object leaves the zero [ConfigureSpec]. Every
    other text is outside this instance, which rejects it. *)
Definition zero_ConfigureSpec : ConfigureSpec :=
  {| Port := 0; RuntimeConst := {| ZoraxyVersion := ""; ZoraxyUUID := "" |} |}.

Definition json_Unmarshal_minimal : json_Decoder :=
  {| json_Unmarshal data :=
       if String.eqb data "{}" then inl zero_ConfigureSpec
       else if String.eqb data "" then inr "unexpected end of JSON input"
       else inr "not decoded by this instance" |}.

(** An embedded tree with a UI folder and a file outside it. *)
Definition demo_fs : embed_FS :=
  {| files := [ {| name := "secret.html"; data := "top secret {{.csrfToken}}" |};
                {| name := "secret.txt"; data := "key" |};
                {| name := "web/"; data := "" |};
                {| name := "web/index.html";
                   data := "<meta content={{.csrfToken}}><p>{{.csrfToken}}</p>" |};
                {| name := "web/style.css"; data := "p{}" |} ] |}.

Definition demo_router : PluginUiRouter :=
  NewPluginEmbedUIRouter "com.example.debugger" demo_fs "/web" "/ui".

Definition demo_header (token : string) : gmap string (list string) :=
  {[ "X-Zoraxy-Csrf" := [token] ]}.

Definition demo_request (uri : string) (h : gmap string (list string)) : http_Request :=
  {| RequestURI := uri; URL := Some {| Path := uri |}; Header := h |}.

(** An embedded tree whose UI folder holds a document without placeholder. *)
Definition plain_fs : embed_FS :=
  {| files := [ {| name := "web/"; data := "" |};
                {| name := "web/about.html"; data := "<p>static page</p>" |} ] |}.

(** A prefix as a caller may write it: a body with an optional slash on
    either side. *)
Definition with_slashes (leading trailing : bool) (body : string) : string :=
  (if leading then "/" else "") +:+ body +:+ (if trailing then "/" else "").

(** The descriptor of the debugger plugin, and one whose id is the single
    byte [0xFF], which is not UTF-8. *)
Definition demo_spect : IntroSpect :=
  {| ID := "org.aroz.zoraxy.debugger";
     Name := "Plugin Debugger";
     Author := "aroz.org";
     AuthorContact := "https://aroz.org";
     Description := "A debugger for Zoraxy <-> plugin communication pipeline";
     IntroSpect_URL := "https://zoraxy.aroz.org";
     Type' := PluginType_Router;
     VersionMajor := 1;
     VersionMinor := 0;
     VersionPatch := 0;
     GlobalCapturePath := Some [ {| CapturePath := "/debug_test"; IncludeSubPaths := true |} ];
     GlobalCaptureIngress := "";
     AlwaysCapturePath := Some [];
     AlwaysCaptureIngress := "";
     DynmaicCaptureIngress := "/d_capture";
     DynamicHandleIngress := "/d_handle";
     UIPath := "/debug";
     SubscriptionPath := "";
     SubscriptionsEvents := None |}.

Definition raw_id_spect : IntroSpect :=
  {| ID := String "255" "";
     Name := "";
     Author := "";
     AuthorContact := "";
     Description := "";
     IntroSpect_URL := "";
     Type' := PluginType_Utilities;
     VersionMajor := 2;
     VersionMinor := 10;
     VersionPatch := (-3);
     GlobalCapturePath := None;
     GlobalCaptureIngress := "";
     AlwaysCapturePath := None;
     AlwaysCaptureIngress := "";
     DynmaicCaptureIngress := "";
     DynamicHandleIngress := "";
     UIPath := "";
     SubscriptionPath := "/notify";
     SubscriptionsEvents := Some {[ "b" := "second"; "a" := "first"; "B" := "zeroth" ]} |}.

(** A text between double quotes, and the lines of a text put together. *)
Definition quoted (s : string) : string := String json_quote (s +:+ String json_quote "").

Definition text_of_lines (lines : list string) : string :=
  String.concat (String json_newline "") lines.


(** * Evaluation on concrete inputs *)

Example HasSuffix_html : strings_HasSuffix "/index.html" ".html" = true.
Proof. reflexivity. Qed.

Example TrimPrefix_ui : strings_TrimPrefix "/ui/index.html" "/ui" = "/index.html".
Proof. reflexivity. Qed.

Example TrimSuffix_one : strings_TrimSuffix "/web//" "/" = "/web/".
Proof. reflexivity. Qed.

Example ReplaceAll_slashes : strings_ReplaceAll "a//b///c////d" "//" "/" = "a/b//c//d".
Proof. reflexivity. Qed.

Example ReplaceAll_token :
  strings_ReplaceAll "<a {{.csrfToken}}>{{.csrfToken}}{{.csrfToken}" "{{.csrfToken}}" "T"
  = "<a T>T{{.csrfToken}".
Proof. reflexivity. Qed.

Example ValidPath_ok : fs_ValidPath "web/index.html" = true.
Proof. reflexivity. Qed.

Example ValidPath_dotdot : fs_ValidPath "web/../secret.html" = false.
Proof. reflexivity. Qed.

Example ValidPath_empty : fs_ValidPath "" = false.
Proof. reflexivity. Qed.

Example ValidPath_trailing : fs_ValidPath "web/" = false.
Proof. reflexivity. Qed.

Example ValidPath_rooted : fs_ValidPath "/web" = false.
Proof. reflexivity. Qed.

Example demo_redirect :
  @Handler url_Parse_plain demo_router (demo_request "/ui/" ∅)
  = [http_Redirect "/index.html" 302].
Proof. vm_compute. reflexivity. Qed.

Example demo_html :
  @Handler url_Parse_plain demo_router
     (demo_request "/ui/index.html" (demo_header "abc123"))
  = [http_ServeContent "/index.html" "<meta content=abc123><p>abc123</p>"].
Proof. vm_compute. reflexivity. Qed.

Example demo_html_nohdr :
  @Handler url_Parse_plain demo_router (demo_request "/ui/index.html" ∅)
  = [http_ServeContent "/index.html" "<meta content=missing-csrf-token><p>missing-csrf-token</p>"].
Proof. vm_compute. reflexivity. Qed.

Example demo_traversal :
  @Handler url_Parse_plain demo_router (demo_request "/ui/../secret.html" ∅)
  = [http_Error "File not found" 404].
Proof. vm_compute. reflexivity. Qed.

Example demo_traversal_dir :
  @Handler url_Parse_plain demo_router (demo_request "/ui/../" ∅)
  = [http_Redirect "/../index.html" 302].
Proof. vm_compute. reflexivity. Qed.

Example demo_traversal_static :
  @Handler url_Parse_plain demo_router (demo_request "/ui/../../secret.txt" ∅)
  = [FileServer_ServeHTTP (subFS (of_embed demo_fs) "web")
       {| RequestURI := "/../../secret.txt";
          URL := Some {| Path := "/../../secret.txt" |};
          Header := ∅ |}]
  /\ fs_Open (subFS (of_embed demo_fs) "web") "../../secret.txt" = None
  /\ fs_Open (subFS (of_embed demo_fs) "web") "secret.txt" = None
  /\ fs_Open (subFS (of_embed demo_fs) "web") "style.css"
     = Some {| name := "web/style.css"; data := "p{}" |}.
Proof. repeat split; vm_compute; reflexivity. Qed.

Example demo_root_prefix :
  @Handler url_Parse_plain
     (NewPluginEmbedUIRouter "com.example.debugger" demo_fs "/" "/ui")
     (demo_request "/ui/secret.html" ∅)
  = [fmt_Println "sub : invalid argument"; http_Error "Internal Server Error" 500].
Proof. vm_compute. reflexivity. Qed.

Example appendString_escapes :
  appendString ("<a&b>" +:+ String "009" (String "008" (String "001" (String "127" ""))))
  = quoted ("\u003ca\u0026b\u003e\t\b\u0001" +:+ String "127" "").
Proof. reflexivity. Qed.

Example appendString_quote_backslash :
  appendString (String json_quote (String json_backslash "/"))
  = quoted (String json_backslash (String json_quote (String json_backslash
              (String json_backslash "/")))).
Proof. reflexivity. Qed.

(** U+00E9 is kept, U+2028 is escaped, and a byte that starts no sequence
    is written as U+FFFD. *)
Example appendString_runes :
  appendString (String "195" (String "169" (String "226" (String "128" (String "168"
                  (String "195" (String "040" "")))))))
  = quoted (String "195" (String "169" "\u2028\ufffd(")).
Proof. reflexivity. Qed.

Example strconv_FormatInt_values :
  map strconv_FormatInt [0; 7; 280; -12]%Z = ["0"; "7"; "280"; "-12"].
Proof. reflexivity. Qed.

Example MarshalIndent_demo :
  @json_MarshalIndent encoding_json demo_spect "" " "
  = Some (text_of_lines
      [ "{";
        " " +:+ quoted "id" +:+ ": " +:+ quoted "org.aroz.zoraxy.debugger" +:+ ",";
        " " +:+ quoted "name" +:+ ": " +:+ quoted "Plugin Debugger" +:+ ",";
        " " +:+ quoted "author" +:+ ": " +:+ quoted "aroz.org" +:+ ",";
        " " +:+ quoted "author_contact" +:+ ": " +:+ quoted "https://aroz.org" +:+ ",";
        " " +:+ quoted "description" +:+ ": "
          +:+ quoted "A debugger for Zoraxy \u003c-\u003e plugin communication pipeline"
          +:+ ",";
        " " +:+ quoted "url" +:+ ": " +:+ quoted "https://zoraxy.aroz.org" +:+ ",";
        " " +:+ quoted "type" +:+ ": 0,";
        " " +:+ quoted "version_major" +:+ ": 1,";
        " " +:+ quoted "version_minor" +:+ ": 0,";
        " " +:+ quoted "version_patch" +:+ ": 0,";
        " " +:+ quoted "global_capture_path" +:+ ": [";
        "  {";
        "   " +:+ quoted "capture_path" +:+ ": " +:+ quoted "/debug_test" +:+ ",";
        "   " +:+ quoted "include_sub_paths" +:+ ": true";
        "  }";
        " ],";
        " " +:+ quoted "global_capture_ingress" +:+ ": " +:+ quoted "" +:+ ",";
        " " +:+ quoted "always_capture_path" +:+ ": [],";
        " " +:+ quoted "always_capture_ingress" +:+ ": " +:+ quoted "" +:+ ",";
        " " +:+ quoted "capture_path" +:+ ": " +:+ quoted "/d_capture" +:+ ",";
        " " +:+ quoted "handle_path" +:+ ": " +:+ quoted "/d_handle" +:+ ",";
        " " +:+ quoted "ui_path" +:+ ": " +:+ quoted "/debug" +:+ ",";
        " " +:+ quoted "subscription_path" +:+ ": " +:+ quoted "" +:+ ",";
        " " +:+ quoted "subscriptions_events" +:+ ": null";
        "}" ]).
Proof. vm_compute. reflexivity. Qed.

(** A [nil] slice is [null], and the keys of the map come out sorted. *)
Example MarshalIndent_raw_id :
  @json_MarshalIndent encoding_json raw_id_spect "" " "
  = Some (text_of_lines
      [ "{";
        " " +:+ quoted "id" +:+ ": " +:+ quoted "\ufffd" +:+ ",";
        " " +:+ quoted "name" +:+ ": " +:+ quoted "" +:+ ",";
        " " +:+ quoted "author" +:+ ": " +:+ quoted "" +:+ ",";
        " " +:+ quoted "author_contact" +:+ ": " +:+ quoted "" +:+ ",";
        " " +:+ quoted "description" +:+ ": " +:+ quoted "" +:+ ",";
        " " +:+ quoted "url" +:+ ": " +:+ quoted "" +:+ ",";
        " " +:+ quoted "type" +:+ ": 1,";
        " " +:+ quoted "version_major" +:+ ": 2,";
        " " +:+ quoted "version_minor" +:+ ": 10,";
        " " +:+ quoted "version_patch" +:+ ": -3,";
        " " +:+ quoted "global_capture_path" +:+ ": null,";
        " " +:+ quoted "global_capture_ingress" +:+ ": " +:+ quoted "" +:+ ",";
        " " +:+ quoted "always_capture_path" +:+ ": null,";
        " " +:+ quoted "always_capture_ingress" +:+ ": " +:+ quoted "" +:+ ",";
        " " +:+ quoted "capture_path" +:+ ": " +:+ quoted "" +:+ ",";
        " " +:+ quoted "handle_path" +:+ ": " +:+ quoted "" +:+ ",";
        " " +:+ quoted "ui_path" +:+ ": " +:+ quoted "" +:+ ",";
        " " +:+ quoted "subscription_path" +:+ ": " +:+ quoted "/notify" +:+ ",";
        " " +:+ quoted "subscriptions_events" +:+ ": {";
        "  " +:+ quoted "B" +:+ ": " +:+ quoted "zeroth" +:+ ",";
        "  " +:+ quoted "a" +:+ ": " +:+ quoted "first" +:+ ",";
        "  " +:+ quoted "b" +:+ ": " +:+ quoted "second";
        " }";
        "}" ]).
Proof. vm_compute. reflexivity. Qed.

Example json_parse_demo_members :
  match @json_MarshalIndent encoding_json demo_spect "" " " with
  | Some text =>
      match json_parse text with
      | Some doc =>
          [json_member "id" doc; json_member "description" doc; json_member "type" doc;
           json_member "always_capture_path" doc; json_member "subscriptions_events" doc;
           json_member "ID" doc]
      | None => []
      end
  | None => []
  end
  = [Some (json_string "org.aroz.zoraxy.debugger");
     Some (json_string "A debugger for Zoraxy <-> plugin communication pipeline");
     Some (json_number 0); Some (json_array []); Some json_null; None].
Proof. vm_compute. reflexivity. Qed.

(** The reader refuses what is not JSON, and the numbers that are not
    integers. *)
Example json_parse_refuses :
  map json_parse
    [""; "{"; "]"; "{}}"; "[1,]"; "[1 2]"; "1 2"; "01"; "-"; "+1"; "1.5"; "1e5"; "nul";
     "{a: 1}";
     "{" +:+ quoted "a" +:+ " 1}";
     "{" +:+ quoted "a" +:+ ": 1,}";
     String json_quote "open";
     quoted (String "010" "");
     quoted (String json_backslash "x");
     quoted (String json_backslash "u12");
     quoted (String json_backslash "ud800")]
  = repeat None 21.
Proof. vm_compute. reflexivity. Qed.

Example json_parse_strings :
  map json_parse
    [quoted "";
     quoted (String json_backslash "u00e9" +:+ String json_backslash "n"
             +:+ String json_backslash "/" +:+ String json_backslash "u0041");
     "{" +:+ quoted "a" +:+ " :[ {} ,  " +:+ quoted "b" +:+ "]}"]
  = [Some (json_string "");
     Some (json_string (String "195" (String "169" (String "010" "/A"))));
     Some (json_object [("a", json_array [json_object []; json_string "b"])])].
Proof. vm_compute. reflexivity. Qed.

Example json_parse_accepts :
  map json_parse ["{}" ; " [ ] " ; "[1, -20 ,null,true , false]" ; "-0"]
  = [Some (json_object []); Some (json_array []);
     Some (json_array [json_number 1; json_number (-20); json_null; json_bool true;
                       json_bool false]);
     Some (json_number 0)].
Proof. vm_compute. reflexivity. Qed.

(** * Facts about the string functions *)

Lemma app_nil_r_string (s : string) : s +:+ "" = s.
Proof. induction s as [|c s IH]; [reflexivity | simpl; now rewrite IH]. Qed.

Lemma app_assoc_string (a b c : string) : (a +:+ b) +:+ c = a +:+ (b +:+ c).
Proof. induction a as [|x a IH]; [reflexivity | simpl; now rewrite IH]. Qed.

Lemma length_app_string (a b : string) :
  String.length (a +:+ b) = (String.length a + String.length b)%nat.
Proof. induction a as [|x a IH]; [reflexivity | simpl; now rewrite IH]. Qed.

Lemma string_drop_app (a b : string) : string_drop (String.length a) (a +:+ b) = b.
Proof. induction a as [|x a IH]; simpl; [now destruct b | exact IH]. Qed.

Lemma string_drop_nil (n : nat) : string_drop n "" = "".
Proof. now destruct n. Qed.

Lemma string_drop_drop (a b : nat) (s : string) :
  string_drop a (string_drop b s) = string_drop (b + a) s.
Proof.
  revert s; induction b as [|b IH]; intros s; simpl; [reflexivity|].
  destruct s as [|c s]; [apply string_drop_nil | apply IH].
Qed.

Lemma string_take_drop (n : nat) (s : string) : string_take n s +:+ string_drop n s = s.
Proof.
  revert s; induction n as [|n IH]; intros s; simpl; [reflexivity|].
  destruct s as [|c s]; simpl; [reflexivity | now rewrite IH].
Qed.

Lemma length_string_drop (n : nat) (s : string) :
  String.length (string_drop n s) = (String.length s - n)%nat.
Proof.
  revert s; induction n as [|n IH]; intros s; simpl; [lia|].
  destruct s as [|c s]; simpl; [reflexivity | apply IH].
Qed.

Lemma HasPrefix_app (p t : string) : strings_HasPrefix (p +:+ t) p = true.
Proof.
  induction p as [|c p IH]; simpl; [now destruct t|].
  now rewrite Ascii.eqb_refl.
Qed.

Lemma HasPrefix_inv (s p : string) :
  strings_HasPrefix s p = true -> s = p +:+ string_drop (String.length p) s.
Proof.
  revert s; induction p as [|c p IH]; intros s H.
  - reflexivity.
  - destruct s as [|d s]; simpl in H; [discriminate|].
    destruct (Ascii.eqb_spec c d) as [->|]; [|discriminate].
    simpl. f_equal. now apply IH.
Qed.

Lemma HasPrefix_iff (s p : string) :
  strings_HasPrefix s p = true <-> exists t, s = p +:+ t.
Proof.
  split.
  - intros H. eexists. now apply HasPrefix_inv.
  - intros [t ->]. apply HasPrefix_app.
Qed.

Lemma HasPrefix_nil (s : string) : strings_HasPrefix s "" = true.
Proof. now destruct s. Qed.

(** A prefix of a concatenation lies in the first part, or covers it and
    continues in the second. *)
Lemma HasPrefix_app_split (y z p : string) :
  strings_HasPrefix (y +:+ z) p = true ->
  strings_HasPrefix y p = true
  \/ ((String.length y < String.length p)%nat
      /\ strings_HasPrefix p y = true
      /\ strings_HasPrefix z (string_drop (String.length y) p) = true).
Proof.
  revert p; induction y as [|c y IH]; intros p H.
  - destruct p as [|d p]; [now left|].
    right. repeat split; [simpl; lia | exact H].
  - destruct p as [|d p]; [now left|].
    simpl in H. destruct (Ascii.eqb_spec d c) as [->|]; [|discriminate].
    destruct (IH _ H) as [Hy | (Hlen & Hp & Hz)].
    + left. simpl. now rewrite Ascii.eqb_refl.
    + right. simpl. rewrite Ascii.eqb_refl. repeat split; [lia | exact Hp | exact Hz].
Qed.

Lemma HasPrefix_length (s p : string) :
  strings_HasPrefix s p = true -> (String.length p <= String.length s)%nat.
Proof.
  intros H. rewrite (HasPrefix_inv _ _ H), length_app_string. lia.
Qed.

Lemma HasPrefix_take (s p : string) :
  strings_HasPrefix s p = true -> string_take (String.length p) s = p.
Proof.
  revert s; induction p as [|c p IH]; intros s H; [reflexivity|].
  destruct s as [|d s]; simpl in H; [discriminate|].
  destruct (Ascii.eqb_spec c d) as [->|]; [|discriminate].
  simpl. f_equal. now apply IH.
Qed.

Lemma HasSuffix_iff (s x : string) :
  strings_HasSuffix s x = true <-> exists t, s = t +:+ x.
Proof.
  unfold strings_HasSuffix. rewrite andb_true_iff, Nat.leb_le, String.eqb_eq. split.
  - intros [Hle Hd]. exists (string_take (String.length s - String.length x) s).
    set (n := (String.length s - String.length x)%nat) in *.
    transitivity (string_take n s +:+ string_drop n s);
      [symmetry; apply string_take_drop | now rewrite Hd].
  - intros [t ->]. rewrite length_app_string. split; [lia|].
    replace (String.length t + String.length x - String.length x)%nat
      with (String.length t) by lia.
    apply string_drop_app.
Qed.

(** A path that ends in [.html] does not end in a slash. *)
Lemma HasSuffix_html_not_dir (s : string) :
  strings_HasSuffix s ".html" = true -> strings_HasSuffix s "/" = false.
Proof.
  unfold strings_HasSuffix. rewrite andb_true_iff, Nat.leb_le, String.eqb_eq.
  intros [Hle Hd]. simpl in Hle. apply andb_false_iff. right.
  apply String.eqb_neq. intros Hs.
  assert (E : string_drop 4 (string_drop (String.length s - 5) s) = "l")
    by (simpl String.length in Hd; now rewrite Hd).
  rewrite string_drop_drop in E.
  replace (String.length s - 5 + 4)%nat with (String.length s - 1)%nat in E by lia.
  simpl String.length in Hs. congruence.
Qed.

(** ** [strings.ReplaceAll] replaces every occurrence *)

Lemma Contains_unfold (s p : string) :
  strings_Contains s p
  = strings_HasPrefix s p
    || match s with "" => false | String _ s' => strings_Contains s' p end.
Proof. now destruct s. Qed.

Lemma Contains_drop (x p : string) (i : nat) :
  strings_HasPrefix (string_drop i x) p = true -> strings_Contains x p = true.
Proof.
  revert x; induction i as [|i IH]; intros x H; rewrite Contains_unfold.
  - cbn [string_drop] in H. now rewrite H.
  - destruct x as [|c x]; cbn [string_drop] in H.
    + now rewrite H.
    + rewrite (IH _ H). apply orb_true_r.
Qed.

Lemma HasPrefix_app_short (a b q : string) :
  strings_HasPrefix (a +:+ b) q = true ->
  (String.length q <= String.length a)%nat ->
  strings_HasPrefix a q = true.
Proof.
  intros H Hle. destruct (HasPrefix_app_split _ _ _ H) as [|(Hlt & _)]; [assumption | lia].
Qed.

Section ReplaceAll_facts.
Variables old new : string.
Hypothesis old_nonempty : old <> "".

Lemma ReplaceAll_from_skip (a b : string) :
  ReplaceAll_from old new (String.length a) (a +:+ b) = ReplaceAll_from old new 0 b.
Proof. induction a as [|c a IH]; simpl; [reflexivity | exact IH]. Qed.

Lemma ReplaceAll_from_match (b : string) :
  ReplaceAll_from old new 0 (old +:+ b) = new +:+ ReplaceAll_from old new 0 b.
Proof.
  pose proof (HasPrefix_app old b) as Hp.
  destruct old as [|o0 orest] eqn:E; [congruence|].
  simpl String.append in *. cbn [ReplaceAll_from]. rewrite Hp.
  f_equal. replace (String.length (String o0 orest) - 1)%nat with (String.length orest)
    by (simpl; lia).
  rewrite <- E. apply ReplaceAll_from_skip.
Qed.

Lemma ReplaceAll_from_piece (x tail : string) :
  (forall i, (i < String.length x)%nat ->
             strings_HasPrefix (string_drop i x +:+ tail) old = false) ->
  ReplaceAll_from old new 0 (x +:+ tail) = x +:+ ReplaceAll_from old new 0 tail.
Proof.
  induction x as [|c x IH]; intros H; [reflexivity|].
  pose proof (H 0%nat ltac:(simpl; lia)) as H0.
  change (strings_HasPrefix (String c (x +:+ tail)) old = false) in H0.
  change (String c x +:+ tail) with (String c (x +:+ tail)).
  cbn [ReplaceAll_from]. rewrite H0.
  change (String c x +:+ ?t) with (String c (x +:+ t)). f_equal.
  apply IH. intros i Hi. apply (H (S i)). simpl; lia.
Qed.

Lemma ReplaceAll_nonempty (s : string) :
  strings_ReplaceAll s old new
  = if String.eqb old new then s else ReplaceAll_from old new 0 s.
Proof.
  unfold strings_ReplaceAll. destruct (String.eqb old new); [reflexivity|].
  destruct old; [congruence | reflexivity].
Qed.

Lemma pieces_from_skip (a b : string) :
  pieces_from old (String.length a) (a +:+ b) = pieces_from old 0 b.
Proof. induction a as [|c a IH]; simpl; [reflexivity | exact IH]. Qed.

Lemma pieces_from_match (b : string) :
  pieces_from old 0 (old +:+ b) = "" :: pieces_from old 0 b.
Proof.
  pose proof (HasPrefix_app old b) as Hp.
  destruct old as [|o0 orest] eqn:E; [congruence|].
  simpl String.append in *. cbn [pieces_from]. rewrite Hp.
  f_equal. replace (String.length (String o0 orest) - 1)%nat with (String.length orest)
    by (simpl; lia).
  rewrite <- E. apply pieces_from_skip.
Qed.

Lemma pieces_from_nonempty (skip : nat) (s : string) : pieces_from old skip s <> [].
Proof.
  revert skip; induction s as [|c s IH]; intros skip; [discriminate|].
  destruct skip as [|k]; cbn [pieces_from]; [|apply IH].
  destruct (strings_HasPrefix _ old); [discriminate|].
  destruct (pieces_from old 0 s); discriminate.
Qed.

Lemma Join_cons_char (c : ascii) (x : string) (xs : list string) :
  strings_Join (String c x :: xs) old = String c (strings_Join (x :: xs) old).
Proof. unfold strings_Join. now destruct xs. Qed.

(** Joining the pieces with [old] gives the text back, and no piece
    contains [old]. *)
Lemma Split_Join_bounded (n : nat) (s : string) :
  (String.length s <= n)%nat ->
  strings_Join (strings_Split s old) old = s
  /\ Forall (fun x => strings_Contains x old = false) (strings_Split s old).
Proof.
  unfold strings_Split. revert s; induction n as [|n IH]; intros s Hn.
  - destruct s; [|simpl in Hn; lia]. split; [reflexivity|].
    constructor; [|constructor]. rewrite Contains_unfold.
    destruct old; [congruence | reflexivity].
  - destruct s as [|c s]; [apply IH; simpl; lia|].
    destruct (strings_HasPrefix (String c s) old) eqn:Hp.
    + pose proof (HasPrefix_inv _ _ Hp) as E.
      set (b := string_drop (String.length old) (String c s)) in *.
      assert (Hb : (String.length b <= n)%nat).
      { apply (f_equal String.length) in E. rewrite length_app_string in E.
        simpl in E, Hn. destruct old; [congruence | simpl in E; lia]. }
      destruct (IH b Hb) as [HJ HF]. rewrite E, pieces_from_match.
      pose proof (pieces_from_nonempty 0 b) as Hne.
      destruct (pieces_from old 0 b) as [|y ys] eqn:Eb; [congruence|].
      split.
      * change (strings_Join ("" :: y :: ys) old)
          with (old +:+ strings_Join (y :: ys) old).
        now rewrite HJ.
      * constructor; [|exact HF]. rewrite Contains_unfold.
        destruct old; [congruence | reflexivity].
    + assert (Hs : (String.length s <= n)%nat) by (simpl in Hn; lia).
      destruct (IH s Hs) as [HJ HF]. cbn [pieces_from]. rewrite Hp.
      pose proof (pieces_from_nonempty 0 s) as Hne.
      destruct (pieces_from old 0 s) as [|x xs] eqn:Es; [congruence|].
      split; [now rewrite Join_cons_char, HJ|].
      pose proof (Forall_inv HF) as Hx. pose proof (Forall_inv_tail HF) as Hxs.
      cbv beta in Hx. constructor; [|exact Hxs].
      rewrite Contains_unfold, Hx, orb_false_r.
      destruct (strings_HasPrefix (String c x) old) eqn:Hcx; [|reflexivity].
      assert (Hpre : exists t, s = x +:+ t).
      { rewrite <- HJ. unfold strings_Join. destruct xs as [|y ys].
        - exists "". now rewrite app_nil_r_string.
        - eexists. reflexivity. }
      destruct Hpre as [t ->].
      apply HasPrefix_iff in Hcx as [t' Hcx].
      assert (Hfull : strings_HasPrefix (String c (x +:+ t)) old = true).
      { apply HasPrefix_iff. exists (t' +:+ t).
        change (String c (x +:+ t)) with (String c x +:+ t).
        now rewrite Hcx, app_assoc_string. }
      congruence.
Qed.

Lemma Split_Join (s : string) : strings_Join (strings_Split s old) old = s.
Proof. exact (proj1 (Split_Join_bounded _ s (Nat.le_refl _))). Qed.

Lemma Split_free (s : string) :
  Forall (fun x => strings_Contains x old = false) (strings_Split s old).
Proof. exact (proj2 (Split_Join_bounded _ s (Nat.le_refl _))). Qed.

Hypothesis old_unbordered : has_border old = false.

(** No occurrence of [old] starts inside a piece that is free of it, even
    when the piece is followed by an occurrence. *)
Lemma no_match_before_occurrence (x rest : string) (i : nat) :
  strings_Contains x old = false ->
  (i < String.length x)%nat ->
  strings_HasPrefix (string_drop i x +:+ (old +:+ rest)) old = false.
Proof.
  intros Hx Hi.
  destruct (strings_HasPrefix _ old) eqn:E; [exfalso | reflexivity].
  apply HasPrefix_app_split in E as [Hy | (Hlen & Hp & Hz)].
  - apply Contains_drop in Hy. congruence.
  - set (y := string_drop i x) in *.
    assert (Hy1 : (1 <= String.length y)%nat)
      by (unfold y; rewrite length_string_drop; lia).
    set (q := string_drop (String.length y) old) in *.
    assert (Hq : String.length q = (String.length old - String.length y)%nat)
      by apply length_string_drop.
    apply HasPrefix_app_short in Hz; [|lia].
    apply HasPrefix_take in Hz.
    assert (Hb : has_border old = true).
    { unfold has_border. apply existsb_exists. exists (String.length q). split.
      - apply in_seq. lia.
      - apply String.eqb_eq. rewrite Hz, Hq. unfold q. f_equal. lia. }
    congruence.
Qed.

Lemma no_match_in_last_piece (x : string) (i : nat) :
  strings_Contains x old = false ->
  strings_HasPrefix (string_drop i x +:+ "") old = false.
Proof.
  intros Hx. rewrite app_nil_r_string.
  destruct (strings_HasPrefix _ old) eqn:E; [|reflexivity].
  apply Contains_drop in E. congruence.
Qed.

Lemma ReplaceAll_from_Join (pieces : list string) :
  Forall (fun x => strings_Contains x old = false) pieces ->
  ReplaceAll_from old new 0 (strings_Join pieces old) = strings_Join pieces new.
Proof.
  unfold strings_Join.
  induction 1 as [|x pieces Hx Hrest IH]; [reflexivity|].
  destruct pieces as [|y pieces].
  - simpl. rewrite <- (app_nil_r_string x) at 1.
    rewrite ReplaceAll_from_piece; [apply app_nil_r_string|].
    intros i _. now apply no_match_in_last_piece.
  - change (String.concat old (x :: y :: pieces))
      with (x +:+ (old +:+ String.concat old (y :: pieces))).
    change (String.concat new (x :: y :: pieces))
      with (x +:+ (new +:+ String.concat new (y :: pieces))).
    rewrite ReplaceAll_from_piece.
    + now rewrite ReplaceAll_from_match, IH.
    + intros i Hi. now apply no_match_before_occurrence.
Qed.

(** Written as pieces free of [old] separated by [old], a text is turned
    by [ReplaceAll] into the same pieces separated by [new]. *)
Lemma ReplaceAll_Join (pieces : list string) :
  Forall (fun x => strings_Contains x old = false) pieces ->
  strings_ReplaceAll (strings_Join pieces old) old new = strings_Join pieces new.
Proof.
  intros H. rewrite ReplaceAll_nonempty.
  destruct (String.eqb_spec old new) as [E|_]; [now rewrite E|].
  now apply ReplaceAll_from_Join.
Qed.

(** [ReplaceAll] is [Split] on [old], then [Join] with [new]. *)
Lemma ReplaceAll_Split (s : string) :
  strings_ReplaceAll s old new = strings_Join (strings_Split s old) new.
Proof.
  rewrite <- (Split_Join s) at 1. apply ReplaceAll_Join, Split_free.
Qed.
End ReplaceAll_facts.


Lemma csrf_placeholder_Join (token : string) (pieces : list string) :
  Forall (fun x => strings_Contains x csrf_placeholder = false) pieces ->
  strings_ReplaceAll (strings_Join pieces csrf_placeholder) csrf_placeholder token
  = strings_Join pieces token.
Proof. apply ReplaceAll_Join; [discriminate | reflexivity]. Qed.

(** * The embedded UI router *)

Lemma csrfToken_of_absent (r : http_Request) :
  Header r !! csrf_header = None -> csrfToken_of r = csrf_missing.
Proof. intros H. unfold csrfToken_of, http_Header_Get. now rewrite H. Qed.

Lemma csrfToken_of_empty (r : http_Request) :
  http_Header_Get (Header r) csrf_header = "" -> csrfToken_of r = csrf_missing.
Proof. intros H. unfold csrfToken_of. now rewrite H. Qed.

Lemma csrfToken_of_nonempty (r : http_Request) : csrfToken_of r <> "".
Proof.
  unfold csrfToken_of.
  destruct (String.eqb_spec (http_Header_Get (Header r) csrf_header) "");
    [discriminate | assumption].
Qed.

(** The HTML stage of the middleware, whatever request [r0] the token was
    taken from and whatever handler comes next. *)
Lemma populateCSRFToken_html_stage (p : PluginUiRouter) (r0 r : http_Request)
    (fsHandler : http_Handler) (u : url_URL) :
  URL r = Some u ->
  strings_HasSuffix (Path u) ".html" = true ->
  populateCSRFToken p r0 fsHandler r
  = match fs_ReadFile (TargetFs p) (targetFilePath_of p (Path u)) with
    | None => [http_Error "File not found" StatusNotFound]
    | Some content =>
        [http_ServeContent (Path u)
           (strings_ReplaceAll content csrf_placeholder (csrfToken_of r0))]
    end.
Proof.
  intros Hu Hhtml. unfold populateCSRFToken. rewrite Hu.
  now rewrite (HasSuffix_html_not_dir _ Hhtml), Hhtml.
Qed.



Lemma populateCSRFToken_token_only (p : PluginUiRouter) (r0 r0' r : http_Request)
    (fsHandler : http_Handler) :
  csrfToken_of r0 = csrfToken_of r0' ->
  populateCSRFToken p r0 fsHandler r = populateCSRFToken p r0' fsHandler r.
Proof. intros H. unfold populateCSRFToken. now rewrite H. Qed.

(** C7.  When the token header is absent and the requested HTML document
    exists, the body served is the document in which every occurrence of the
    placeholder is replaced by the sentinel [missing-csrf-token], which is
    not the empty string. *)
Theorem populateCSRFToken_header_absent (p : PluginUiRouter) (r0 r : http_Request)
    (fsHandler : http_Handler) (u : url_URL) (content : string) :
  Header r0 !! csrf_header = None ->
  URL r = Some u ->
  strings_HasSuffix (Path u) ".html" = true ->
  fs_ReadFile (TargetFs p) (targetFilePath_of p (Path u)) = Some content ->
  exists body,
    populateCSRFToken p r0 fsHandler r = [http_ServeContent (Path u) body]
    /\ body = strings_ReplaceAll content csrf_placeholder "missing-csrf-token"
    /\ (forall pieces,
          content = strings_Join pieces csrf_placeholder ->
          Forall (fun x => strings_Contains x csrf_placeholder = false) pieces ->
          body = strings_Join pieces "missing-csrf-token")
    /\ String.eqb "missing-csrf-token" "" = false.
Proof.
  intros Habs Hu Hhtml Hread.
  rewrite (populateCSRFToken_html_stage p r0 r fsHandler u Hu Hhtml), Hread.
  rewrite (csrfToken_of_absent _ Habs).
  eexists. split; [reflexivity|]. split; [reflexivity|]. split; [|reflexivity].
  intros pieces -> Hfree. now apply csrf_placeholder_Join.
Qed.

Lemma populateCSRFToken_header_absent_witness :
  let r := demo_request "/index.html" ∅ in
  exists body,
    populateCSRFToken demo_router r (http_FileServer (of_embed demo_fs)) r
    = [http_ServeContent "/index.html" body]
    /\ body = strings_ReplaceAll "<meta content={{.csrfToken}}><p>{{.csrfToken}}</p>"
                csrf_placeholder "missing-csrf-token"
    /\ (forall pieces,
          "<meta content={{.csrfToken}}><p>{{.csrfToken}}</p>"
          = strings_Join pieces csrf_placeholder ->
          Forall (fun x => strings_Contains x csrf_placeholder = false) pieces ->
          body = strings_Join pieces "missing-csrf-token")
    /\ String.eqb "missing-csrf-token" "" = false.
Proof.
  apply (populateCSRFToken_header_absent demo_router (demo_request "/index.html" ∅)
           (demo_request "/index.html" ∅) (http_FileServer (of_embed demo_fs))
           {| Path := "/index.html" |});
    vm_compute; reflexivity.
Defined.

(** C10.  A token header that is present with an empty value is treated as
    an absent one: the middleware built from such a request is the one built
    from a request without the header, the token is the sentinel, an existing
    HTML document is served with the sentinel in place of every placeholder,
    and the token injected is not empty. *)
Theorem populateCSRFToken_header_empty (p : PluginUiRouter) (r0 r0' r : http_Request)
    (fsHandler : http_Handler) (vs : list string) :
  Header r0 !! csrf_header = Some ("" :: vs) ->
  Header r0' !! csrf_header = None ->
  populateCSRFToken p r0 fsHandler r = populateCSRFToken p r0' fsHandler r
  /\ csrfToken_of r0 = "missing-csrf-token"
  /\ String.eqb (csrfToken_of r0) "" = false
  /\ forall u content,
       URL r = Some u ->
       strings_HasSuffix (Path u) ".html" = true ->
       fs_ReadFile (TargetFs p) (targetFilePath_of p (Path u)) = Some content ->
       populateCSRFToken p r0 fsHandler r
       = [http_ServeContent (Path u)
            (strings_ReplaceAll content csrf_placeholder "missing-csrf-token")]
       /\ forall pieces,
            content = strings_Join pieces csrf_placeholder ->
            Forall (fun x => strings_Contains x csrf_placeholder = false) pieces ->
            strings_ReplaceAll content csrf_placeholder "missing-csrf-token"
            = strings_Join pieces "missing-csrf-token".
Proof.
  intros Hempty Habs.
  assert (Htok : csrfToken_of r0 = csrf_missing).
  { apply csrfToken_of_empty. unfold http_Header_Get. now rewrite Hempty. }
  split.
  { apply populateCSRFToken_token_only.
    now rewrite Htok, (csrfToken_of_absent _ Habs). }
  split; [exact Htok|]. split; [now rewrite Htok|].
  intros u content Hu Hhtml Hread. split.
  - now rewrite (populateCSRFToken_html_stage p r0 r fsHandler u Hu Hhtml), Hread, Htok.
  - intros pieces -> Hfree. now apply csrf_placeholder_Join.
Qed.

Lemma populateCSRFToken_header_empty_witness :
  let r0 := demo_request "/index.html" (demo_header "") in
  let r0' := demo_request "/index.html" ∅ in
  populateCSRFToken demo_router r0 (http_FileServer (of_embed demo_fs)) r0
  = populateCSRFToken demo_router r0' (http_FileServer (of_embed demo_fs)) r0
  /\ csrfToken_of r0 = "missing-csrf-token"
  /\ populateCSRFToken demo_router r0 (http_FileServer (of_embed demo_fs)) r0
     = [http_ServeContent "/index.html"
          "<meta content=missing-csrf-token><p>missing-csrf-token</p>"].
Proof.
  intros r0 r0'.
  assert (H1 : Header r0 !! csrf_header = Some ("" :: [])) by (vm_compute; reflexivity).
  assert (H2 : Header r0' !! csrf_header = None) by (vm_compute; reflexivity).
  destruct (populateCSRFToken_header_empty demo_router r0 r0' r0
              (http_FileServer (of_embed demo_fs)) [] H1 H2)
    as (Hsame & Htok & _ & Hserve).
  split; [exact Hsame|]. split; [exact Htok|].
  assert (H3 : fs_ReadFile (TargetFs demo_router)
                 (targetFilePath_of demo_router "/index.html")
               = Some "<meta content={{.csrfToken}}><p>{{.csrfToken}}</p>")
    by (vm_compute; reflexivity).
  destruct (Hserve {| Path := "/index.html" |} _ eq_refl eq_refl H3) as [Hbody _].
  exact Hbody.
Defined.

(** ** Confinement to the asset sub-tree *)

Lemma path_elements_nonempty (s : string) : path_elements s <> [].
Proof.
  destruct s as [|c s]; simpl; [discriminate|].
  destruct (Ascii.eqb c "/"); [discriminate|].
  destruct (path_elements s); discriminate.
Qed.

Lemma path_elements_app (a b : string) :
  path_elements (a +:+ String "/" b) = (path_elements a ++ path_elements b)%list.
Proof.
  induction a as [|c a IH]; [reflexivity|].
  simpl. rewrite IH. destruct (Ascii.eqb c "/"); [reflexivity|].
  pose proof (path_elements_nonempty a).
  destruct (path_elements a); [congruence | reflexivity].
Qed.

Lemma slash_path_not_dot (dir rel : string) : dir +:+ String "/" rel <> ".".
Proof.
  destruct dir as [|c [|d dir]]; simpl; try discriminate.
Qed.

Lemma ValidPath_elements (nm : string) :
  fs_ValidPath nm = true -> nm = "." \/ traversal_free nm = true.
Proof.
  unfold fs_ValidPath, traversal_free.
  rewrite andb_true_iff, orb_true_iff, String.eqb_eq. tauto.
Qed.

Lemma ValidPath_under (dir rel : string) :
  fs_ValidPath (dir +:+ String "/" rel) = true -> traversal_free rel = true.
Proof.
  intros H. destruct (ValidPath_elements _ H) as [E|E].
  - now apply slash_path_not_dot in E.
  - unfold traversal_free in *. rewrite path_elements_app, forallb_app in E.
    now apply andb_true_iff in E.
Qed.

Lemma embed_lookup_Some (f : embed_FS) (nm : string) (x : file) :
  embed_lookup f nm = Some x ->
  fs_ValidPath nm = true
  /\ ((nm = "." /\ x = dotFile)
      \/ (nm <> "." /\ In x (files f) /\ trimSlash (name x) = nm)).
Proof.
  unfold embed_lookup. destruct (fs_ValidPath nm); simpl; [|discriminate].
  intros H. split; [reflexivity|].
  destruct (String.eqb_spec nm ".") as [->|Hne].
  - left. now inversion H.
  - right. apply find_some in H as [Hin Heq]. apply String.eqb_eq in Heq. tauto.
Qed.

Lemma fs_Sub_inl (fsys sub : fs_FS) (dir : string) :
  fs_Sub fsys dir = inl sub ->
  fs_ValidPath dir = true
  /\ ((dir = "." /\ sub = fsys) \/ (dir <> "." /\ sub = subFS fsys dir)).
Proof.
  unfold fs_Sub. destruct (fs_ValidPath dir); simpl; [|discriminate].
  intros H. split; [reflexivity|].
  destruct (String.eqb_spec dir "."); inversion H; subst; tauto.
Qed.

(** With a valid asset directory the file an HTML request is read from is
    named by the directory, a slash, and the request path without its
    leading slash. *)
Lemma TrimPrefix_slash_cons (c : ascii) (s : string) :
  strings_TrimPrefix (String c s) "/" = if Ascii.eqb "/" c then s else String c s.
Proof.
  unfold strings_TrimPrefix. cbn [strings_HasPrefix].
  now destruct (Ascii.eqb "/" c).
Qed.

Lemma targetFilePath_of_valid (p : PluginUiRouter) (urlPath : string) :
  fs_ValidPath (asset_dir p) = true ->
  targetFilePath_of p urlPath
  = asset_dir p +:+ String "/" (strings_TrimPrefix urlPath "/").
Proof.
  unfold targetFilePath_of, asset_dir.
  destruct (TargetFsPrefix p) as [|c pre]; [discriminate|]. intros _.
  change (String c pre +:+ "/" +:+ ?x) with (String c (pre +:+ String "/" x)).
  rewrite !TrimPrefix_slash_cons. now destruct (Ascii.eqb "/" c).
Qed.

Lemma fs_ReadFile_Some (f : embed_FS) (nm content : string) :
  fs_ReadFile f nm = Some content ->
  exists x, embed_lookup f nm = Some x /\ data x = content.
Proof.
  unfold fs_ReadFile. destruct (embed_lookup f nm) as [x|]; [|discriminate].
  destruct (file_IsDir x); [discriminate|]. intros [= <-]. now exists x.
Qed.

Lemma Handler_unfold `{net_url} (p : PluginUiRouter) (r : http_Request) :
  Handler p r
  = let r' := {| RequestURI := rewrittenURL_of p r;
                 URL := url_Parse (rewrittenURL_of p r);
                 Header := Header r |} in
    match fs_Sub (of_embed (TargetFs p)) (asset_dir p) with
    | inr err =>
        [fmt_Println (PathError_Error err);
         http_Error "Internal Server Error" StatusInternalServerError]
    | inl sub => populateCSRFToken p r' (http_FileServer sub) r'
    end.
Proof. reflexivity. Qed.

Lemma document_confined (p : PluginUiRouter) (urlPath content : string) :
  fs_ValidPath (asset_dir p) = true ->
  fs_ReadFile (TargetFs p) (targetFilePath_of p urlPath) = Some content ->
  exists f, In f (files (TargetFs p))
            /\ data f = content
            /\ in_subtree (asset_dir p) (trimSlash (name f)).
Proof.
  intros Hdir Hread. rewrite (targetFilePath_of_valid _ _ Hdir) in Hread.
  apply fs_ReadFile_Some in Hread as (f & Hlook & Hdata).
  apply embed_lookup_Some in Hlook as [Hvalid [[E _] | (_ & Hin & Hname)]].
  - now apply slash_path_not_dot in E.
  - exists f. repeat split; [assumption..|].
    right; right. eexists. split; [|exact Hname].
    exact (ValidPath_under _ _ Hvalid).
Qed.

Lemma static_confined (p : PluginUiRouter) (sub : fs_FS) (n : string) (f : file) :
  fs_Sub (of_embed (TargetFs p)) (asset_dir p) = inl sub ->
  fs_Open sub n = Some f ->
  (f = dotFile \/ In f (files (TargetFs p)))
  /\ in_subtree (asset_dir p) (trimSlash (name f)).
Proof.
  intros Hsub Hopen.
  apply fs_Sub_inl in Hsub as [Hdir [[Edot ->] | [Hne ->]]].
  - simpl in Hopen. split; [|now left].
    apply embed_lookup_Some in Hopen as [_ [[_ ->] | (_ & Hin & _)]]; tauto.
  - simpl in Hopen. unfold subFS_fullName in Hopen.
    destruct (fs_ValidPath n) eqn:Hn; simpl in Hopen; [|discriminate].
    apply embed_lookup_Some in Hopen as [_ [[E _] | (_ & Hin & Hname)]].
    + destruct (String.eqb n "."); [congruence|].
      now apply slash_path_not_dot in E.
    + split; [now right|]. right.
      destruct (String.eqb_spec n ".") as [->|Hnd]; [now left|].
      right. exists n. split; [|exact Hname].
      destruct (ValidPath_elements _ Hn); [congruence | assumption].
Qed.

(** C1 (as amended).  Whatever the request, and so in particular when its
    path contains traversal segments, the handler either reports an internal
    error (the asset prefix is not a valid directory), aborts on an
    unparsable target, redirects (path ending in a separator), answers 404,
    serves an HTML document read from a file of the embedded tree whose name
    lies inside the asset sub-tree, or delegates to a static file server
    that can only open entries inside that sub-tree. *)
Theorem Handler_confined `{net_url} (p : PluginUiRouter) (r : http_Request) :
  Handler_answer p (Handler p r).
Proof.
  rewrite Handler_unfold. cbv zeta.
  destruct (fs_Sub _ _) as [sub|err] eqn:Hsub; [|constructor].
  unfold populateCSRFToken. cbn [URL].
  destruct (url_Parse _) as [u|]; [|constructor].
  destruct (strings_HasSuffix (Path u) "/"); [constructor|].
  destruct (strings_HasSuffix (Path u) ".html").
  - destruct (fs_ReadFile _ _) as [content|] eqn:Hread; [|constructor].
    destruct (fs_Sub_inl _ _ _ Hsub) as [Hdir _].
    destruct (document_confined _ _ _ Hdir Hread) as (f & Hin & <- & Hsubtree).
    now constructor.
  - constructor. intros n f Hopen. exact (static_confined _ _ _ _ Hsub Hopen).
Qed.

(** C1, counterexample.  A request whose path has a traversal segment and
    ends in a separator is answered by a redirect, which is neither a
    not-found outcome nor content from the asset sub-tree. *)
Lemma Handler_traversal_redirect :
  let r := demo_request "/ui/../" ∅ in
  strings_Contains (RequestURI r) ".." = true
  /\ @Handler url_Parse_plain demo_router r = [http_Redirect "/../index.html" 302]
  /\ ~ not_found_or_content (@Handler url_Parse_plain demo_router r).
Proof.
  split; [reflexivity|]. split; [vm_compute; reflexivity|].
  assert (E : @Handler url_Parse_plain demo_router (demo_request "/ui/../" ∅)
              = [http_Redirect "/../index.html" 302]) by (vm_compute; reflexivity).
  cbv zeta. rewrite E. unfold not_found_or_content.
  intros [(msg & Hm) | [(nm & body & Hm) | (root & r' & Hm)]]; discriminate.
Qed.

(** C3 (as amended).  On a router whose asset prefix is a valid directory,
    a request whose prefix-stripped path ends in a separator is answered by
    a 302 redirect to that prefix-stripped path with [index.html] appended:
    the external handler prefix is not part of the target. *)
Theorem Handler_directory_redirect `{net_url} (p : PluginUiRouter) (r : http_Request)
    (sub : fs_FS) (u : url_URL) :
  fs_Sub (of_embed (TargetFs p)) (asset_dir p) = inl sub ->
  url_Parse (rewrittenURL_of p r) = Some u ->
  strings_HasSuffix (Path u) "/" = true ->
  Handler p r = [http_Redirect (Path u +:+ "index.html") 302].
Proof.
  intros Hsub Hu Hdir. rewrite Handler_unfold. cbv zeta. rewrite Hsub.
  unfold populateCSRFToken. cbn [URL]. now rewrite Hu, Hdir.
Qed.

Lemma Handler_directory_redirect_witness :
  @Handler url_Parse_plain demo_router (demo_request "/ui/" ∅)
  = [http_Redirect "/index.html" 302].
Proof.
  apply (@Handler_directory_redirect url_Parse_plain demo_router
           (demo_request "/ui/" ∅) (subFS (of_embed demo_fs) "web")
           {| Path := "/" |});
    vm_compute; reflexivity.
Defined.

(** C3, counterexample.  With the router mounted under [/ui], the request
    for [/ui/] is redirected to [/index.html], not to the request path with
    [index.html] appended. *)
Lemma Handler_redirect_drops_prefix :
  let r := demo_request "/ui/" ∅ in
  HandlerPrefix demo_router = "/ui"
  /\ strings_HasSuffix (RequestURI r) "/" = true
  /\ @Handler url_Parse_plain demo_router r = [http_Redirect "/index.html" 302]
  /\ @Handler url_Parse_plain demo_router r
     <> [http_Redirect (RequestURI r +:+ "index.html") 302].
Proof.
  repeat split; try (vm_compute; reflexivity).
  vm_compute. discriminate.
Qed.

(** The HTML stage seen from [Handler]: with a valid asset directory and a
    parsed target ending in [.html], the answer is the one of C2. *)
Lemma Handler_html `{net_url} (p : PluginUiRouter) (r : http_Request)
    (sub : fs_FS) (u : url_URL) :
  fs_Sub (of_embed (TargetFs p)) (asset_dir p) = inl sub ->
  url_Parse (rewrittenURL_of p r) = Some u ->
  strings_HasSuffix (Path u) ".html" = true ->
  Handler p r
  = match fs_ReadFile (TargetFs p) (targetFilePath_of p (Path u)) with
    | None => [http_Error "File not found" 404]
    | Some content =>
        [http_ServeContent (Path u)
           (strings_ReplaceAll content csrf_placeholder (csrfToken_of r))]
    end.
Proof.
  intros Hsub Hu Hhtml. rewrite Handler_unfold. cbv zeta. rewrite Hsub.
  etransitivity;
    [apply (populateCSRFToken_html_stage p _ _ _ u); [exact Hu | exact Hhtml]
    | reflexivity].
Qed.

(** Without a valid asset directory every request is answered 500. *)
Lemma Handler_invalid_prefix `{net_url} (p : PluginUiRouter) (r : http_Request) :
  fs_ValidPath (asset_dir p) = false ->
  Handler p r
  = [fmt_Println ("sub " +:+ asset_dir p +:+ ": invalid argument");
     http_Error "Internal Server Error" 500].
Proof.
  intros Hdir. rewrite Handler_unfold. cbv zeta. unfold fs_Sub. now rewrite Hdir.
Qed.

(** ** Prefix normalisation in the constructor *)

Lemma NewPluginEmbedUIRouter_fields (pluginID : string) (targetFs : embed_FS)
    (targetFsPrefix handlerPrefix : string) :
  let p := NewPluginEmbedUIRouter pluginID targetFs targetFsPrefix handlerPrefix in
  PluginID p = pluginID /\ TargetFs p = targetFs
  /\ TargetFsPrefix p = slash_prefixed targetFsPrefix
  /\ HandlerPrefix p = slash_prefixed handlerPrefix.
Proof. repeat split. Qed.

Lemma string_take_app (a b : string) : string_take (String.length a) (a +:+ b) = a.
Proof. induction a as [|c a IH]; simpl; [reflexivity | now rewrite IH]. Qed.

Lemma TrimSuffix_app (t x : string) : strings_TrimSuffix (t +:+ x) x = t.
Proof.
  unfold strings_TrimSuffix.
  replace (strings_HasSuffix (t +:+ x) x) with true
    by (symmetry; apply HasSuffix_iff; now exists t).
  rewrite length_app_string.
  replace (String.length t + String.length x - String.length x)%nat
    with (String.length t) by lia.
  apply string_take_app.
Qed.

Lemma HasSuffix_slash_cons (c : ascii) (s : string) :
  s <> "" -> strings_HasSuffix (String c s) "/" = strings_HasSuffix s "/".
Proof.
  destruct s as [|d s]; [congruence|]. intros _. unfold strings_HasSuffix.
  cbn [String.length Nat.sub Nat.leb string_drop]. now rewrite Nat.sub_0_r.
Qed.

Lemma HasPrefix_slash_app (a t : string) :
  a <> "" -> strings_HasPrefix (a +:+ t) "/" = strings_HasPrefix a "/".
Proof. destruct a; [congruence | reflexivity]. Qed.

(** With at most one slash on either side of a body that neither starts nor
    ends with one, the constructor does produce the [/prefix] format. *)
Lemma slash_prefixed_single (body : string) (leading trailing : bool) :
  body <> "" ->
  strings_HasPrefix body "/" = false ->
  strings_HasSuffix body "/" = false ->
  slash_prefixed ((if leading then "/" else "") +:+ body
                  +:+ (if trailing then "/" else ""))
  = "/" +:+ body
  /\ normalized_prefix ("/" +:+ body) = true.
Proof.
  intros Hne Hp Hs.
  assert (Hkeep : strings_TrimSuffix ("/" +:+ body) "/" = "/" +:+ body).
  { unfold strings_TrimSuffix. simpl String.append.
    rewrite HasSuffix_slash_cons by assumption. now rewrite Hs. }
  split.
  - unfold slash_prefixed. destruct leading; simpl String.append.
    + cbn [strings_HasPrefix Ascii.eqb Bool.eqb negb]. cbv iota.
      destruct trailing.
      * exact (TrimSuffix_app ("/" +:+ body) "/").
      * rewrite app_nil_r_string. exact Hkeep.
    + rewrite HasPrefix_slash_app by assumption. rewrite Hp. cbn [negb].
      destruct trailing.
      * exact (TrimSuffix_app ("/" +:+ body) "/").
      * rewrite app_nil_r_string. exact Hkeep.
  - unfold normalized_prefix. simpl String.append.
    rewrite HasSuffix_slash_cons by assumption. rewrite Hs.
    change (strings_HasPrefix (String "/" body) "//")
      with (strings_HasPrefix body "/").
    now rewrite Hp.
Qed.

(** C6, at the failing input.  The constructor removes one trailing slash
    and adds a leading slash only when there is none: given ["web//"] and
    ["//ui"] it returns an asset prefix that still ends in a slash and a
    handler prefix that starts with two, and the router built that way
    answers every request with 500. *)
Theorem NewPluginEmbedUIRouter_extra_slashes :
  let p := NewPluginEmbedUIRouter "com.example.debugger" demo_fs "web//" "//ui" in
  TargetFsPrefix p = "/web/"
  /\ HandlerPrefix p = "//ui"
  /\ normalized_prefix (TargetFsPrefix p) = false
  /\ normalized_prefix (HandlerPrefix p) = false
  /\ @Handler url_Parse_plain p (demo_request "//ui/index.html" ∅)
     = [fmt_Println "sub web/: invalid argument";
        http_Error "Internal Server Error" 500].
Proof. repeat split; vm_compute; reflexivity. Qed.

Example NewPluginEmbedUIRouter_root :
  let p := NewPluginEmbedUIRouter "com.example.debugger" demo_fs "/" "" in
  TargetFsPrefix p = "" /\ HandlerPrefix p = "".
Proof. split; reflexivity. Qed.

Example NewPluginEmbedUIRouter_documented :
  let p := NewPluginEmbedUIRouter "com.example.debugger" demo_fs "web/" "/ui" in
  TargetFsPrefix p = "/web" /\ HandlerPrefix p = "/ui"
  /\ normalized_prefix (TargetFsPrefix p) = true
  /\ normalized_prefix (HandlerPrefix p) = true.
Proof. repeat split; reflexivity. Qed.

(** * The start-up handshake *)

Lemma ServeIntroSpect_other `{json_Encoder} (pluginSpect : IntroSpect)
    (os_Args : list string) :
  os_Args !! 1%nat = Some "-introspect"
  \/ ServeIntroSpect pluginSpect os_Args = ([], Returned tt).
Proof.
  destruct os_Args as [|prog [|arg rest]]; [now right | now right |].
  destruct (String.eqb_spec arg "-introspect") as [->|Hne]; [now left | right].
  unfold ServeIntroSpect. cbn [nth length]. apply String.eqb_neq in Hne.
  now rewrite Hne, andb_false_r.
Qed.

(** In introspection mode the combined entry point exits as well, before
    the configuration is looked at. *)
Lemma ServeAndRecvSpec_introspect `{json_Encoder} `{json_Decoder}
    (pluginSpect : IntroSpect) (prog : string) (rest : list string) :
  ServeAndRecvSpec pluginSpect (prog :: "-introspect" :: rest)
  = ([fmt_Println (string_of_bytes (json_MarshalIndent pluginSpect "" " "))],
     Exited 0).
Proof. reflexivity. Qed.

Lemma ServeAndRecvSpec_configure `{json_Encoder} `{json_Decoder}
    (pluginSpect : IntroSpect) (os_Args : list string) :
  os_Args !! 1%nat <> Some "-introspect" ->
  ServeAndRecvSpec pluginSpect os_Args = ([], Returned (RecvConfigureSpec os_Args)).
Proof.
  intros Hne. unfold ServeAndRecvSpec.
  destruct (ServeIntroSpect_other pluginSpect os_Args) as [E|E];
    [contradiction | now rewrite E].
Qed.

Section RecvConfigureSpec_facts.
Context `{json_Decoder}.

Lemma is_directive_false (arg : string) :
  is_directive arg = false ->
  strings_HasPrefix arg "-configure=" = false /\ String.eqb arg "-configure" = false.
Proof. unfold is_directive. apply orb_false_iff. Qed.

Lemma is_directive_cases (arg : string) :
  is_directive arg = true ->
  (exists j, arg = "-configure=" +:+ j) \/ arg = "-configure".
Proof.
  unfold is_directive. rewrite orb_true_iff, String.eqb_eq.
  intros [Hp | ->]; [left | now right]. eexists. exact (HasPrefix_inv _ _ Hp).
Qed.

Lemma first_directive_split (args : list string) :
  no_directive args = true
  \/ exists pre d post,
       args = (pre ++ d :: post)%list
       /\ no_directive pre = true /\ is_directive d = true.
Proof.
  induction args as [|a args IH]; [now left|].
  destruct (is_directive a) eqn:Ha.
  - right. exists [], a, args. repeat split. exact Ha.
  - destruct IH as [IH | (pre & d & post & -> & Hpre & Hd)].
    + left. simpl. now rewrite Ha, IH.
    + right. exists (a :: pre), d, post. repeat split; [|exact Hd].
      simpl. now rewrite Ha, Hpre.
Qed.

Lemma range_cons (os_Args rest : list string) (i : nat) (arg : string) :
  RecvConfigureSpec_range os_Args i (arg :: rest)
  = if strings_HasPrefix arg "-configure=" then
      decoded (json_Unmarshal (string_drop 11 arg))
    else if String.eqb arg "-configure" then
      if (i + 1 <? length os_Args)%nat
      then decoded (json_Unmarshal (nth (i + 1) os_Args ""))
      else inr (fmt_Errorf "No port specified after -configure flag")
    else RecvConfigureSpec_range os_Args (S i) rest.
Proof. reflexivity. Qed.

Lemma range_skip (os_Args pre rest : list string) (i : nat) :
  no_directive pre = true ->
  RecvConfigureSpec_range os_Args i (pre ++ rest)
  = RecvConfigureSpec_range os_Args (i + length pre) rest.
Proof.
  revert i; induction pre as [|a pre IH]; intros i Hpre.
  - simpl. now rewrite Nat.add_0_r.
  - simpl in Hpre. apply andb_true_iff in Hpre as [Ha Hpre].
    apply negb_true_iff, is_directive_false in Ha as [Ha1 Ha2].
    change ((a :: pre) ++ rest)%list with (a :: (pre ++ rest))%list.
    rewrite range_cons, Ha1, Ha2, (IH _ Hpre). cbn [length]. f_equal. lia.
Qed.

Lemma range_assign (os_Args post : list string) (i : nat) (j : string) :
  RecvConfigureSpec_range os_Args i (("-configure=" +:+ j) :: post)
  = decoded (json_Unmarshal j).
Proof. reflexivity. Qed.

Lemma range_bare (os_Args post : list string) (i : nat) :
  RecvConfigureSpec_range os_Args i ("-configure" :: post)
  = if (i + 1 <? length os_Args)%nat
    then decoded (json_Unmarshal (nth (i + 1) os_Args ""))
    else inr (fmt_Errorf "No port specified after -configure flag").
Proof. reflexivity. Qed.

Lemma Recv_no_directive (os_Args : list string) :
  no_directive os_Args = true ->
  RecvConfigureSpec os_Args = inr (fmt_Errorf "No -configure flag found").
Proof.
  intros Hno. unfold RecvConfigureSpec.
  rewrite <- (app_nil_r os_Args) at 2. now rewrite range_skip.
Qed.

Lemma Recv_assign (pre post : list string) (j : string) :
  no_directive pre = true ->
  RecvConfigureSpec (pre ++ ("-configure=" +:+ j) :: post)
  = decoded (json_Unmarshal j).
Proof.
  intros Hpre. unfold RecvConfigureSpec. now rewrite range_skip, range_assign.
Qed.

Lemma Recv_bare_last (pre : list string) :
  no_directive pre = true ->
  RecvConfigureSpec (pre ++ ["-configure"])
  = inr (fmt_Errorf "No port specified after -configure flag").
Proof.
  intros Hpre. unfold RecvConfigureSpec. rewrite range_skip, range_bare by assumption.
  rewrite length_app. simpl.
  now replace (length pre + 1 <? length pre + 1)%nat with false
    by (symmetry; apply Nat.ltb_ge; lia).
Qed.

Lemma Recv_bare_next (pre post : list string) (j : string) :
  no_directive pre = true ->
  RecvConfigureSpec (pre ++ "-configure" :: j :: post)
  = decoded (json_Unmarshal j).
Proof.
  intros Hpre. unfold RecvConfigureSpec. rewrite range_skip, range_bare by assumption.
  rewrite length_app. simpl.
  replace (length pre + 1 <? length pre + S (S (length post)))%nat with true
    by (symmetry; apply Nat.ltb_lt; lia).
  rewrite app_nth2 by lia.
  now replace (length pre + 1 - length pre)%nat with 1%nat by lia.
Qed.

Lemma decoded_not_missing (result : ConfigureSpec + string) :
  ~ MissingConfiguration (decoded result).
Proof. intros [msg E]. destruct result; discriminate. Qed.

(** The two ways to a missing-configuration error. *)
Lemma Recv_missing_iff (os_Args : list string) :
  MissingConfiguration (RecvConfigureSpec os_Args)
  <-> no_directive os_Args = true
      \/ exists pre, no_directive pre = true /\ os_Args = (pre ++ ["-configure"])%list.
Proof.
  split.
  - intros Hmiss.
    destruct (first_directive_split os_Args)
      as [Hno | (pre & d & post & -> & Hpre & Hd)]; [now left|].
    destruct (is_directive_cases _ Hd) as [[j ->] | ->].
    + rewrite Recv_assign in Hmiss by assumption.
      now apply decoded_not_missing in Hmiss.
    + destruct post as [|j post]; [right; now exists pre|].
      rewrite Recv_bare_next in Hmiss by assumption.
      now apply decoded_not_missing in Hmiss.
  - intros [Hno | (pre & Hpre & ->)].
    + rewrite Recv_no_directive by assumption. now eexists.
    + rewrite Recv_bare_last by assumption. now eexists.
Qed.
End RecvConfigureSpec_facts.

Lemma json_Unmarshal_minimal_rejects_flag (s : string) :
  strings_HasPrefix s "-configure" = true ->
  exists msg, @json_Unmarshal json_Unmarshal_minimal s = inr msg.
Proof.
  intros Hp. rewrite (HasPrefix_inv _ _ Hp). eexists. reflexivity.
Qed.

Section RecvConfigureSpec_claims.
Context `{json_Decoder}.

(** C4 (as amended).  [RecvConfigureSpec] fails with a missing-configuration
    error exactly when the arguments hold no configuration directive, or
    when the first directive among them is a bare [-configure] standing
    last; when the first directive carries a value (after the equals sign,
    or in the next argument) the result is the malformed-configuration
    error of [json.Unmarshal] if the value does not decode, and the decoded
    parameters if it does. *)
Theorem RecvConfigureSpec_outcomes (os_Args : list string) :
  (MissingConfiguration (RecvConfigureSpec os_Args)
   <-> no_directive os_Args = true
       \/ exists pre, no_directive pre = true /\ os_Args = (pre ++ ["-configure"])%list)
  /\ (forall pre j post,
        no_directive pre = true ->
        os_Args = (pre ++ ("-configure=" +:+ j) :: post)%list
        \/ os_Args = (pre ++ "-configure" :: j :: post)%list ->
        match json_Unmarshal j with
        | inr msg =>
            RecvConfigureSpec os_Args = inr (json_error msg)
            /\ MalformedConfiguration (RecvConfigureSpec os_Args)
        | inl configSpec => RecvConfigureSpec os_Args = inl configSpec
        end).
Proof.
  split; [apply Recv_missing_iff|].
  - intros pre j post Hpre Hargs.
    assert (E : RecvConfigureSpec os_Args = decoded (json_Unmarshal j)).
    { destruct Hargs as [-> | ->];
        [now apply Recv_assign | now apply Recv_bare_next]. }
    rewrite E. destruct (json_Unmarshal j) as [configSpec|msg]; [reflexivity|].
    split; [reflexivity | now exists msg].
Qed.

(** C9 (as amended).  When the first configuration directive among the
    arguments is the exact string [-configure=], [RecvConfigureSpec] fails
    with the error [json.Unmarshal] reports for the empty input; and
    whenever that string is among the arguments the result is not a
    missing-configuration error. *)
Theorem RecvConfigureSpec_empty_value (msg : string) :
  json_Unmarshal "" = inr msg ->
  (forall pre post,
      no_directive pre = true ->
      RecvConfigureSpec (pre ++ "-configure=" :: post) = inr (json_error msg)
      /\ MalformedConfiguration (RecvConfigureSpec (pre ++ "-configure=" :: post)))
  /\ (forall os_Args,
        In "-configure=" os_Args ->
        ~ MissingConfiguration (RecvConfigureSpec os_Args)).
Proof.
  intros Hempty. split.
  - intros pre post Hpre.
    assert (E : RecvConfigureSpec (pre ++ "-configure=" :: post) = inr (json_error msg)).
    { change "-configure=" with ("-configure=" +:+ "") at 1.
      rewrite Recv_assign by assumption. now rewrite Hempty. }
    rewrite E. split; [reflexivity | now exists msg].
  - intros os_Args Hin Hmiss.
    apply Recv_missing_iff in Hmiss as [Hno | (pre & Hpre & ->)].
    + unfold no_directive in Hno. rewrite forallb_forall in Hno.
      now specialize (Hno _ Hin).
    + apply in_app_or in Hin as [Hin | [Hin | []]]; [|discriminate].
      unfold no_directive in Hpre. rewrite forallb_forall in Hpre.
      now specialize (Hpre _ Hin).
Qed.

(** C5.  [json.Unmarshal] rejects any text that begins with [-configure]
    (no JSON value does).  Then, whatever the other arguments are, the
    single-argument form [-configure=<json>] and the two-argument form
    [-configure <json>] make [RecvConfigureSpec] return the same
    parameters; when no directive comes before, both forms return exactly
    what [json.Unmarshal] gives for the payload. *)
Theorem RecvConfigureSpec_forms_agree :
  (forall s, strings_HasPrefix s "-configure" = true ->
             exists msg, json_Unmarshal s = inr msg) ->
  forall pre j post,
    returned_spec (RecvConfigureSpec (pre ++ ("-configure=" +:+ j) :: post))
    = returned_spec (RecvConfigureSpec (pre ++ "-configure" :: j :: post))
    /\ (no_directive pre = true ->
        RecvConfigureSpec (pre ++ ("-configure=" +:+ j) :: post)
        = decoded (json_Unmarshal j)
        /\ RecvConfigureSpec (pre ++ "-configure" :: j :: post)
           = decoded (json_Unmarshal j)).
Proof.
  intros Hflag pre j post. split.
  - destruct (first_directive_split pre)
      as [Hno | (pre1 & d & post1 & -> & Hpre1 & Hd)].
    + now rewrite Recv_assign, Recv_bare_next.
    + rewrite <- !app_assoc. cbn [app].
      destruct (is_directive_cases _ Hd) as [[v ->] | ->].
      * now rewrite !Recv_assign.
      * destruct post1 as [|next post1]; cbn [app].
        -- rewrite !Recv_bare_next by assumption.
           destruct (Hflag ("-configure=" +:+ j) eq_refl) as [m1 ->].
           destruct (Hflag "-configure" eq_refl) as [m2 ->].
           reflexivity.
        -- now rewrite !Recv_bare_next.
  - intros Hno. split; [now apply Recv_assign | now apply Recv_bare_next].
Qed.
End RecvConfigureSpec_claims.

Lemma RecvConfigureSpec_outcomes_witness :
  MissingConfiguration (@RecvConfigureSpec json_Unmarshal_minimal ["plugin"])
  /\ MissingConfiguration (@RecvConfigureSpec json_Unmarshal_minimal ["plugin"; "-configure"])
  /\ @RecvConfigureSpec json_Unmarshal_minimal ["plugin"; "-configure={}"]
     = inl zero_ConfigureSpec
  /\ @RecvConfigureSpec json_Unmarshal_minimal ["plugin"; "-configure"; "{}"]
     = inl zero_ConfigureSpec
  /\ MalformedConfiguration (@RecvConfigureSpec json_Unmarshal_minimal ["plugin"; "-configure="]).
Proof.
  split; [|split; [|split; [|split]]].
  - apply (proj1 (@RecvConfigureSpec_outcomes json_Unmarshal_minimal ["plugin"])).
    left. reflexivity.
  - apply (proj1 (@RecvConfigureSpec_outcomes json_Unmarshal_minimal
                    ["plugin"; "-configure"])).
    right. exists ["plugin"]. split; reflexivity.
  - apply (proj2 (@RecvConfigureSpec_outcomes json_Unmarshal_minimal
                    ["plugin"; "-configure={}"]) ["plugin"] "{}" []);
      [reflexivity | left; reflexivity].
  - apply (proj2 (@RecvConfigureSpec_outcomes json_Unmarshal_minimal
                    ["plugin"; "-configure"; "{}"]) ["plugin"] "{}" []);
      [reflexivity | right; reflexivity].
  - apply (proj2 (@RecvConfigureSpec_outcomes json_Unmarshal_minimal
                    ["plugin"; "-configure="]) ["plugin"] "" []);
      [reflexivity | left; reflexivity].
Defined.

(** C4, counterexample.  [-configure] is the final argument with nothing
    after it, yet the call succeeds: the first directive decides. *)
Lemma RecvConfigureSpec_first_directive_wins :
  let os_Args := ["plugin"; "-configure={}"; "-configure"] in
  last os_Args = Some "-configure"
  /\ @RecvConfigureSpec json_Unmarshal_minimal os_Args = inl zero_ConfigureSpec
  /\ ~ MissingConfiguration (@RecvConfigureSpec json_Unmarshal_minimal os_Args).
Proof.
  split; [reflexivity|]. split; [reflexivity|].
  intros [msg E]. discriminate.
Qed.

Lemma RecvConfigureSpec_empty_value_witness :
  @RecvConfigureSpec json_Unmarshal_minimal ["plugin"; "-configure="]
  = inr (json_error "unexpected end of JSON input")
  /\ MalformedConfiguration
       (@RecvConfigureSpec json_Unmarshal_minimal ["plugin"; "-configure="]).
Proof.
  apply (proj1 (@RecvConfigureSpec_empty_value json_Unmarshal_minimal
                  "unexpected end of JSON input" eq_refl) ["plugin"] []).
  reflexivity.
Defined.

(** C9, counterexample.  The arguments contain the exact string
    [-configure=], but an earlier directive carries a valid value: the call
    succeeds instead of failing on the empty value. *)
Lemma RecvConfigureSpec_empty_value_shadowed :
  let os_Args := ["plugin"; "-configure={}"; "-configure="] in
  In "-configure=" os_Args
  /\ @RecvConfigureSpec json_Unmarshal_minimal os_Args = inl zero_ConfigureSpec
  /\ ~ MalformedConfiguration (@RecvConfigureSpec json_Unmarshal_minimal os_Args).
Proof.
  split; [simpl; tauto|]. split; [reflexivity|].
  intros [msg E]. discriminate.
Qed.

Lemma RecvConfigureSpec_forms_agree_witness :
  returned_spec (@RecvConfigureSpec json_Unmarshal_minimal ["plugin"; "-configure={}"])
  = returned_spec (@RecvConfigureSpec json_Unmarshal_minimal ["plugin"; "-configure"; "{}"])
  /\ @RecvConfigureSpec json_Unmarshal_minimal ["plugin"; "-configure={}"]
     = inl zero_ConfigureSpec
  /\ @RecvConfigureSpec json_Unmarshal_minimal ["plugin"; "-configure"; "{}"]
     = inl zero_ConfigureSpec.
Proof.
  destruct (@RecvConfigureSpec_forms_agree json_Unmarshal_minimal
              json_Unmarshal_minimal_rejects_flag ["plugin"] "{}" [])
    as [Hsame Hboth].
  split; [exact Hsame | exact (Hboth eq_refl)].
Defined.

(** * Further properties of the router *)

Lemma HasPrefix_cons (c a : ascii) (s p : string) :
  strings_HasPrefix (String c s) (String a p)
  = if Ascii.eqb a c then strings_HasPrefix s p else false.
Proof. reflexivity. Qed.

Lemma TrimPrefix_app (pre x : string) : strings_TrimPrefix (pre +:+ x) pre = x.
Proof.
  unfold strings_TrimPrefix. rewrite HasPrefix_app. apply string_drop_app.
Qed.

(** X1.  The answer of [Handler] depends on the request target only through
    what follows the handler prefix: two routers over the same tree and
    asset prefix, mounted under different handler prefixes, answer alike
    when each is asked for its own prefix followed by the same rest. *)
Theorem Handler_mount_independent `{net_url} (p p' : PluginUiRouter)
    (r r' : http_Request) (x : string) :
  TargetFs p = TargetFs p' ->
  TargetFsPrefix p = TargetFsPrefix p' ->
  Header r = Header r' ->
  RequestURI r = HandlerPrefix p +:+ x ->
  RequestURI r' = HandlerPrefix p' +:+ x ->
  rewrittenURL_of p r = strings_ReplaceAll x "//" "/"
  /\ Handler p r = Handler p' r'.
Proof.
  intros Hfs Hpre Hhdr Hr Hr'.
  assert (E : rewrittenURL_of p r = strings_ReplaceAll x "//" "/")
    by (unfold rewrittenURL_of; now rewrite Hr, TrimPrefix_app).
  assert (E' : rewrittenURL_of p' r' = strings_ReplaceAll x "//" "/")
    by (unfold rewrittenURL_of; now rewrite Hr', TrimPrefix_app).
  split; [exact E|].
  rewrite !Handler_unfold. cbv zeta.
  unfold asset_dir, populateCSRFToken, csrfToken_of, targetFilePath_of.
  cbn [URL Header]. now rewrite E, E', Hfs, Hpre, Hhdr.
Qed.

Lemma Handler_mount_independent_witness :
  @Handler url_Parse_plain demo_router
     (demo_request "/ui/index.html" (demo_header "abc123"))
  = @Handler url_Parse_plain
      (NewPluginEmbedUIRouter "com.example.debugger" demo_fs "/web" "/plugin/debugger")
      (demo_request "/plugin/debugger/index.html" (demo_header "abc123")).
Proof.
  apply (@Handler_mount_independent url_Parse_plain demo_router
           (NewPluginEmbedUIRouter "com.example.debugger" demo_fs "/web" "/plugin/debugger")
           (demo_request "/ui/index.html" (demo_header "abc123"))
           (demo_request "/plugin/debugger/index.html" (demo_header "abc123"))
           "/index.html");
    reflexivity.
Defined.

Lemma collapse_head (s : string) :
  strings_HasPrefix (ReplaceAll_from "//" "/" 0 s) "/" = true ->
  strings_HasPrefix s "/" = true.
Proof.
  destruct s as [|c s]; [discriminate|]. cbn [ReplaceAll_from].
  destruct (strings_HasPrefix (String c s) "//") eqn:Hm.
  - intros _. rewrite HasPrefix_cons in Hm.
    rewrite HasPrefix_cons. now destruct (Ascii.eqb "/" c).
  - now rewrite !HasPrefix_cons.
Qed.

Lemma collapse_bounded (n : nat) (s : string) :
  (String.length s <= n)%nat ->
  strings_Contains s "///" = false ->
  strings_Contains (ReplaceAll_from "//" "/" 0 s) "//" = false.
Proof.
  revert s; induction n as [|n IH]; intros s Hn Hs.
  - destruct s; [reflexivity | simpl in Hn; lia].
  - destruct s as [|c s]; [reflexivity|].
    rewrite Contains_unfold in Hs. apply orb_false_iff in Hs as [Hhead Htail].
    destruct (strings_HasPrefix (String c s) "//") eqn:Hm.
    + pose proof (HasPrefix_inv _ _ Hm) as E. cbn [String.length string_drop] in E.
      destruct s as [|d t]; [discriminate|]. cbn [string_drop] in E.
      change ("//" +:+ t) with (String "/" (String "/" t)) in E.
      injection E as -> ->.
      change (String "/" (String "/" t)) with ("//" +:+ t).
      rewrite ReplaceAll_from_match by discriminate.
      change ("/" +:+ ?x) with (String "/" x).
      rewrite Contains_unfold in Htail. apply orb_false_iff in Htail as [_ Ht].
      rewrite Contains_unfold, (HasPrefix_cons "/" "/").
      cbn [Ascii.eqb Bool.eqb]. cbv iota.
      rewrite (IH t) by (simpl in Hn; try lia; assumption).
      rewrite orb_false_r.
      destruct (strings_HasPrefix (ReplaceAll_from "//" "/" 0 t) "/") eqn:Hh;
        [|reflexivity].
      apply collapse_head in Hh.
      rewrite !(HasPrefix_cons "/" "/") in Hhead. cbn [Ascii.eqb Bool.eqb] in Hhead.
      cbv iota in Hhead. congruence.
    + cbn [ReplaceAll_from]. rewrite Hm.
      rewrite Contains_unfold, (IH s) by (simpl in Hn; try lia; assumption).
      rewrite orb_false_r, HasPrefix_cons.
      destruct (Ascii.eqb "/" c) eqn:Hc; [|reflexivity].
      destruct (strings_HasPrefix (ReplaceAll_from "//" "/" 0 s) "/") eqn:Hh;
        [|reflexivity].
      apply collapse_head in Hh. rewrite HasPrefix_cons, Hc in Hm. congruence.
Qed.

(** X2.  [Handler] collapses doubled slashes in one pass, each pair once:
    when what follows the handler prefix has no run of three slashes, the
    target handed to [url.Parse] has no doubled slash left; a run of three
    slashes still leaves a doubled one. *)
Theorem rewrittenURL_of_collapsed (p : PluginUiRouter) (r : http_Request) :
  strings_Contains (strings_TrimPrefix (RequestURI r) (HandlerPrefix p)) "///" = false ->
  strings_Contains (rewrittenURL_of p r) "//" = false.
Proof.
  intros H. unfold rewrittenURL_of. rewrite ReplaceAll_nonempty by discriminate.
  change (String.eqb "//" "/") with false. cbv iota.
  now apply (collapse_bounded _ _ (Nat.le_refl _)).
Qed.

Lemma rewrittenURL_of_collapsed_witness :
  strings_Contains
    (rewrittenURL_of demo_router (demo_request "/ui//css//style.css" ∅)) "//" = false
  /\ rewrittenURL_of demo_router (demo_request "/ui//css//style.css" ∅)
     = "/css/style.css"
  /\ rewrittenURL_of demo_router (demo_request "/ui///style.css" ∅) = "//style.css".
Proof.
  split; [|split; reflexivity].
  apply (rewrittenURL_of_collapsed demo_router (demo_request "/ui//css//style.css" ∅)).
  reflexivity.
Defined.

(** X3.  A router whose asset prefix is not a valid directory name of the
    tree answers every request, whatever its target and headers, by
    printing the [fs.Sub] error and sending 500; the constructor called with
    the asset prefix [""] or ["/"] builds such a router. *)
Theorem Handler_misconfigured `{net_url} :
  (forall p r,
      fs_ValidPath (asset_dir p) = false ->
      Handler p r
      = [fmt_Println ("sub " +:+ asset_dir p +:+ ": invalid argument");
         http_Error "Internal Server Error" 500])
  /\ (forall pluginID targetFs handlerPrefix r,
        Handler (NewPluginEmbedUIRouter pluginID targetFs "" handlerPrefix) r
        = [fmt_Println "sub : invalid argument";
           http_Error "Internal Server Error" 500]
        /\ Handler (NewPluginEmbedUIRouter pluginID targetFs "/" handlerPrefix) r
           = [fmt_Println "sub : invalid argument";
              http_Error "Internal Server Error" 500]).
Proof.
  split.
  - intros p r Hdir. now apply Handler_invalid_prefix.
  - intros pluginID targetFs handlerPrefix r.
    split; apply Handler_invalid_prefix; reflexivity.
Qed.

Lemma Handler_misconfigured_witness :
  @Handler url_Parse_plain
     (NewPluginEmbedUIRouter "com.example.debugger" demo_fs "web//" "/ui")
     (demo_request "/ui/index.html" ∅)
  = [fmt_Println "sub web/: invalid argument";
     http_Error "Internal Server Error" 500].
Proof.
  apply (proj1 (@Handler_misconfigured url_Parse_plain)
           (NewPluginEmbedUIRouter "com.example.debugger" demo_fs "web//" "/ui")
           (demo_request "/ui/index.html" ∅)).
  reflexivity.
Defined.

Lemma fs_Open_sub (f : embed_FS) (dir : string) (sub : fs_FS) (n : string) :
  fs_Sub (of_embed f) dir = inl sub ->
  fs_Open sub n
  = if negb (fs_ValidPath n) then None
    else if String.eqb dir "." then embed_lookup f n
    else if String.eqb n "." then embed_lookup f dir
    else embed_lookup f (dir +:+ "/" +:+ n).
Proof.
  intros Hsub. apply fs_Sub_inl in Hsub as [_ [[-> ->] | [Hne ->]]].
  - cbn [fs_Open]. change (String.eqb "." ".") with true. cbv iota.
    unfold embed_lookup. now destruct (fs_ValidPath n).
  - cbn [fs_Open]. unfold subFS_fullName.
    apply String.eqb_neq in Hne. rewrite Hne.
    destruct (fs_ValidPath n); [|reflexivity]. cbn [negb].
    now destruct (String.eqb n ".").
Qed.

(** X4.  On a router with a valid asset directory, a request whose parsed
    target ends neither in a slash nor in [.html] is handed to the static
    file server built on the asset sub-tree, with the rewritten target and
    the headers it came with; that file server is refused every invalid
    name (empty, rooted, or with a [.] or [..] element) and opens a valid
    relative name as the embedded entry of that name under the asset
    directory. *)
Theorem Handler_static `{net_url} (p : PluginUiRouter) (r : http_Request)
    (sub : fs_FS) (u : url_URL) :
  fs_Sub (of_embed (TargetFs p)) (asset_dir p) = inl sub ->
  url_Parse (rewrittenURL_of p r) = Some u ->
  strings_HasSuffix (Path u) "/" = false ->
  strings_HasSuffix (Path u) ".html" = false ->
  Handler p r
  = [FileServer_ServeHTTP sub
       {| RequestURI := rewrittenURL_of p r; URL := Some u; Header := Header r |}]
  /\ (forall n, fs_ValidPath n = false -> fs_Open sub n = None)
  /\ (forall n,
        fs_ValidPath n = true -> n <> "." -> asset_dir p <> "." ->
        fs_Open sub n = embed_lookup (TargetFs p) (asset_dir p +:+ "/" +:+ n)).
Proof.
  intros Hsub Hu Hdir Hhtml. split; [|split].
  - rewrite Handler_unfold. cbv zeta. rewrite Hsub.
    unfold populateCSRFToken. cbn [URL]. now rewrite Hu, Hdir, Hhtml.
  - intros n Hn. rewrite (fs_Open_sub _ _ _ n Hsub). now rewrite Hn.
  - intros n Hn Hnd Hdd. rewrite (fs_Open_sub _ _ _ n Hsub), Hn. cbn [negb].
    apply String.eqb_neq in Hnd, Hdd. now rewrite Hnd, Hdd.
Qed.

Lemma Handler_static_witness :
  @Handler url_Parse_plain demo_router (demo_request "/ui/style.css" (demo_header "abc123"))
  = [FileServer_ServeHTTP (subFS (of_embed demo_fs) "web")
       {| RequestURI := "/style.css";
          URL := Some {| Path := "/style.css" |};
          Header := demo_header "abc123" |}]
  /\ fs_Open (subFS (of_embed demo_fs) "web") "../secret.txt" = None
  /\ fs_Open (subFS (of_embed demo_fs) "web") "style.css"
     = Some {| name := "web/style.css"; data := "p{}" |}.
Proof.
  destruct (@Handler_static url_Parse_plain demo_router
              (demo_request "/ui/style.css" (demo_header "abc123"))
              (subFS (of_embed demo_fs) "web") {| Path := "/style.css" |}
              eq_refl eq_refl eq_refl eq_refl)
    as (Hcall & Hbad & Hgood).
  split; [exact Hcall|]. split.
  - apply Hbad. reflexivity.
  - rewrite Hgood; [reflexivity | reflexivity | discriminate | discriminate].
Defined.

(** X5.  [Handler] drops the error of [url.Parse]: with a valid asset
    directory, a rewritten target that does not parse leaves a [nil] URL and
    the middleware panics on its first [r.URL.Path]; no response is written
    by the handler. *)
Theorem Handler_unparsable_target `{net_url} (p : PluginUiRouter) (r : http_Request)
    (sub : fs_FS) :
  fs_Sub (of_embed (TargetFs p)) (asset_dir p) = inl sub ->
  url_Parse (rewrittenURL_of p r) = None ->
  Handler p r = [nil_pointer_dereference].
Proof.
  intros Hsub Hu. rewrite Handler_unfold. cbv zeta. rewrite Hsub.
  unfold populateCSRFToken. cbn [URL]. now rewrite Hu.
Qed.

(** The target [/ui1:y] loses its prefix and becomes [1:y], a relative
    reference whose first segment holds a colon, which [url.Parse] rejects. *)
Lemma Handler_unparsable_target_witness :
  rewrittenURL_of demo_router (demo_request "/ui1:y" ∅) = "1:y"
  /\ @Handler url_Parse_plain demo_router (demo_request "/ui1:y" ∅)
     = [nil_pointer_dereference].
Proof.
  split; [reflexivity|].
  apply (@Handler_unparsable_target url_Parse_plain demo_router
           (demo_request "/ui1:y" ∅) (subFS (of_embed demo_fs) "web"));
    reflexivity.
Defined.

Lemma ValidPath_traversal (dir rel : string) :
  traversal_free rel = false -> fs_ValidPath (dir +:+ String "/" rel) = false.
Proof.
  intros Hrel. unfold fs_ValidPath.
  replace (String.eqb (dir +:+ String "/" rel) ".") with false
    by (symmetry; apply String.eqb_neq, slash_path_not_dot).
  unfold traversal_free in Hrel.
  now rewrite path_elements_app, forallb_app, Hrel, andb_false_r, andb_false_r.
Qed.

(** X6.  On a router with a valid asset directory, an HTML request whose
    path, after its leading slash, has an empty, [.] or [..] element is
    answered 404 without any file being read: the name is refused before
    the tree is searched. *)
Theorem Handler_html_traversal `{net_url} (p : PluginUiRouter) (r : http_Request)
    (sub : fs_FS) (u : url_URL) :
  fs_Sub (of_embed (TargetFs p)) (asset_dir p) = inl sub ->
  url_Parse (rewrittenURL_of p r) = Some u ->
  strings_HasSuffix (Path u) ".html" = true ->
  traversal_free (strings_TrimPrefix (Path u) "/") = false ->
  fs_ValidPath (targetFilePath_of p (Path u)) = false
  /\ Handler p r = [http_Error "File not found" 404].
Proof.
  intros Hsub Hu Hhtml Htrav.
  destruct (fs_Sub_inl _ _ _ Hsub) as [Hdir _].
  assert (Hbad : fs_ValidPath (targetFilePath_of p (Path u)) = false)
    by (rewrite (targetFilePath_of_valid _ _ Hdir); now apply ValidPath_traversal).
  split; [exact Hbad|].
  rewrite (Handler_html p r sub u Hsub Hu Hhtml).
  unfold fs_ReadFile, embed_lookup. now rewrite Hbad.
Qed.

Lemma Handler_html_traversal_witness :
  @Handler url_Parse_plain demo_router (demo_request "/ui/../secret.html" ∅)
  = [http_Error "File not found" 404].
Proof.
  apply (@Handler_html_traversal url_Parse_plain demo_router
           (demo_request "/ui/../secret.html" ∅)
           (subFS (of_embed demo_fs) "web") {| Path := "/../secret.html" |});
    reflexivity.
Defined.

(** X7.  End to end: on a router with a valid asset directory, a request
    that carries a non-empty first value [token] under [X-Zoraxy-Csrf] and
    whose rewritten target parses to a path ending in [.html] that resolves
    to a document is answered by serving, under the rewritten path, the
    pieces of the document between the placeholders joined by [token];
    further values of the header are not used. *)
Theorem Handler_html_token `{net_url} (p : PluginUiRouter) (r : http_Request)
    (sub : fs_FS) (u : url_URL) (token content : string) (more : list string) :
  fs_Sub (of_embed (TargetFs p)) (asset_dir p) = inl sub ->
  url_Parse (rewrittenURL_of p r) = Some u ->
  strings_HasSuffix (Path u) ".html" = true ->
  fs_ReadFile (TargetFs p) (targetFilePath_of p (Path u)) = Some content ->
  Header r !! csrf_header = Some (token :: more) ->
  token <> "" ->
  Handler p r
  = [http_ServeContent (Path u)
       (strings_Join (strings_Split content csrf_placeholder) token)].
Proof.
  intros Hsub Hu Hhtml Hread Hhdr Htok.
  rewrite (Handler_html p r sub u Hsub Hu Hhtml), Hread.
  assert (E : csrfToken_of r = token).
  { unfold csrfToken_of, http_Header_Get. rewrite Hhdr.
    apply String.eqb_neq in Htok. now rewrite Htok. }
  rewrite E. do 2 f_equal. apply ReplaceAll_Split; [discriminate | reflexivity].
Qed.

Lemma Handler_html_token_witness :
  @Handler url_Parse_plain demo_router
     (demo_request "/ui/index.html" (demo_header "abc123"))
  = [http_ServeContent "/index.html" "<meta content=abc123><p>abc123</p>"].
Proof.
  assert (Hhdr : Header (demo_request "/ui/index.html" (demo_header "abc123"))
                 !! csrf_header = Some ("abc123" :: []))
    by (vm_compute; reflexivity).
  rewrite (@Handler_html_token url_Parse_plain demo_router
             (demo_request "/ui/index.html" (demo_header "abc123"))
             (subFS (of_embed demo_fs) "web") {| Path := "/index.html" |}
             "abc123" "<meta content={{.csrfToken}}><p>{{.csrfToken}}</p>" []
             eq_refl eq_refl eq_refl eq_refl Hhdr ltac:(discriminate)).
  reflexivity.
Defined.

(** X8.  A document that does not contain the placeholder is served as it
    is stored, whatever the token. *)
Theorem populateCSRFToken_no_placeholder (p : PluginUiRouter) (r0 r : http_Request)
    (fsHandler : http_Handler) (u : url_URL) (content : string) :
  URL r = Some u ->
  strings_HasSuffix (Path u) ".html" = true ->
  fs_ReadFile (TargetFs p) (targetFilePath_of p (Path u)) = Some content ->
  strings_Contains content csrf_placeholder = false ->
  populateCSRFToken p r0 fsHandler r = [http_ServeContent (Path u) content].
Proof.
  intros Hu Hhtml Hread Hfree.
  rewrite (populateCSRFToken_html_stage p r0 r fsHandler u Hu Hhtml), Hread.
  do 2 f_equal.
  apply (csrf_placeholder_Join (csrfToken_of r0) [content]).
  constructor; [exact Hfree | constructor].
Qed.

Lemma populateCSRFToken_no_placeholder_witness :
  let p := NewPluginEmbedUIRouter "com.example.debugger" plain_fs "/web" "/ui" in
  let r := demo_request "/about.html" (demo_header "abc123") in
  populateCSRFToken p r (http_FileServer (of_embed plain_fs)) r
  = [http_ServeContent "/about.html" "<p>static page</p>"].
Proof.
  apply (populateCSRFToken_no_placeholder
           (NewPluginEmbedUIRouter "com.example.debugger" plain_fs "/web" "/ui")
           (demo_request "/about.html" (demo_header "abc123"))
           (demo_request "/about.html" (demo_header "abc123"))
           (http_FileServer (of_embed plain_fs)) {| Path := "/about.html" |});
    reflexivity.
Defined.

(** X9.  Given prefixes written with at most one slash on either side of a
    body that neither starts nor ends with a slash, the constructor stores
    the body behind exactly one leading slash, with no trailing slash, and
    keeps the plugin id and the tree as they are. *)
Theorem NewPluginEmbedUIRouter_single_slashes (pluginID : string) (targetFs : embed_FS)
    (fsBody uiBody : string) (l1 t1 l2 t2 : bool) :
  fsBody <> "" ->
  strings_HasPrefix fsBody "/" = false ->
  strings_HasSuffix fsBody "/" = false ->
  uiBody <> "" ->
  strings_HasPrefix uiBody "/" = false ->
  strings_HasSuffix uiBody "/" = false ->
  let p := NewPluginEmbedUIRouter pluginID targetFs
             (with_slashes l1 t1 fsBody) (with_slashes l2 t2 uiBody) in
  PluginID p = pluginID /\ TargetFs p = targetFs
  /\ TargetFsPrefix p = "/" +:+ fsBody
  /\ HandlerPrefix p = "/" +:+ uiBody
  /\ normalized_prefix (TargetFsPrefix p) = true
  /\ normalized_prefix (HandlerPrefix p) = true.
Proof.
  intros Hf1 Hf2 Hf3 Hu1 Hu2 Hu3 p.
  destruct (NewPluginEmbedUIRouter_fields pluginID targetFs
              (with_slashes l1 t1 fsBody) (with_slashes l2 t2 uiBody))
    as (Hid & Hfs & Hpre & Hui).
  fold p in Hid, Hfs, Hpre, Hui.
  destruct (slash_prefixed_single fsBody l1 t1 Hf1 Hf2 Hf3) as [E1 N1].
  destruct (slash_prefixed_single uiBody l2 t2 Hu1 Hu2 Hu3) as [E2 N2].
  unfold with_slashes in Hpre, Hui. rewrite E1 in Hpre. rewrite E2 in Hui.
  repeat split; try assumption; [now rewrite Hpre | now rewrite Hui].
Qed.

Lemma NewPluginEmbedUIRouter_single_slashes_witness :
  let p := NewPluginEmbedUIRouter "com.example.debugger" demo_fs "web/" "ui" in
  PluginID p = "com.example.debugger" /\ TargetFs p = demo_fs
  /\ TargetFsPrefix p = "/web"
  /\ HandlerPrefix p = "/ui"
  /\ normalized_prefix (TargetFsPrefix p) = true
  /\ normalized_prefix (HandlerPrefix p) = true.
Proof.
  apply (NewPluginEmbedUIRouter_single_slashes "com.example.debugger" demo_fs
           "web" "ui" false true false false);
    first [reflexivity | discriminate].
Defined.

Lemma TrimSuffix_keeps_head (d : ascii) (x : string) :
  strings_HasPrefix (strings_TrimSuffix (String "/" (String d x)) "/") "/" = true.
Proof.
  unfold strings_TrimSuffix.
  destruct (strings_HasSuffix (String "/" (String d x)) "/"); [|reflexivity].
  replace (String.length (String "/" (String d x)) - String.length "/")%nat
    with (S (String.length x)) by (simpl; lia).
  reflexivity.
Qed.

Lemma slash_prefixed_cases (s : string) :
  (slash_prefixed s = "" /\ (s = "" \/ s = "/"))
  \/ (strings_HasPrefix (slash_prefixed s) "/" = true /\ s <> "" /\ s <> "/").
Proof.
  destruct s as [|c s]; [left; split; [reflexivity | now left]|].
  unfold slash_prefixed. rewrite (HasPrefix_cons c "/" s "").
  destruct (Ascii.eqb_spec "/" c) as [<-|Hc]; cbn [negb].
  - change (strings_HasPrefix s "") with true. cbv iota.
    destruct s as [|d s].
    + left. split; [reflexivity | now right].
    + right. split; [apply TrimSuffix_keeps_head | split; discriminate].
  - right. split; [apply TrimSuffix_keeps_head|].
    split; [discriminate | congruence].
Qed.

(** X10.  Whatever strings the constructor is given, each stored prefix
    starts with a slash, except that the inputs [""] and ["/"], and only
    they, give the empty prefix. *)
Theorem NewPluginEmbedUIRouter_leading_slash (pluginID : string) (targetFs : embed_FS)
    (targetFsPrefix handlerPrefix : string) :
  let p := NewPluginEmbedUIRouter pluginID targetFs targetFsPrefix handlerPrefix in
  ((TargetFsPrefix p = "" /\ (targetFsPrefix = "" \/ targetFsPrefix = "/"))
   \/ (strings_HasPrefix (TargetFsPrefix p) "/" = true
       /\ targetFsPrefix <> "" /\ targetFsPrefix <> "/"))
  /\ ((HandlerPrefix p = "" /\ (handlerPrefix = "" \/ handlerPrefix = "/"))
      \/ (strings_HasPrefix (HandlerPrefix p) "/" = true
          /\ handlerPrefix <> "" /\ handlerPrefix <> "/")).
Proof.
  split; [apply (slash_prefixed_cases targetFsPrefix)
         | apply (slash_prefixed_cases handlerPrefix)].
Qed.

(** * Further properties of the handshake *)

(** X11.  Introspection comes first: with [-introspect] as first argument
    [ServeAndRecvSpec] prints the descriptor and exits with status 0 whatever
    follows, a configuration directive included; otherwise it writes nothing
    and returns what [RecvConfigureSpec] returns for the same arguments. *)
Theorem ServeAndRecvSpec_spec `{json_Encoder} `{json_Decoder} (pluginSpect : IntroSpect) :
  (forall prog rest,
      ServeAndRecvSpec pluginSpect (prog :: "-introspect" :: rest)
      = ([fmt_Println (string_of_bytes (json_MarshalIndent pluginSpect "" " "))],
         Exited 0))
  /\ (forall os_Args,
        os_Args !! 1%nat = Some "-introspect"
        \/ ServeAndRecvSpec pluginSpect os_Args
           = ([], Returned (RecvConfigureSpec os_Args))).
Proof.
  split; [reflexivity|]. intros os_Args.
  destruct (ServeIntroSpect_other pluginSpect os_Args) as [E|E]; [now left | right].
  unfold ServeAndRecvSpec. now rewrite E.
Qed.

Lemma no_directive_app (a b : list string) :
  no_directive (a ++ b) = no_directive a && no_directive b.
Proof. apply forallb_app. Qed.

(** X12.  Arguments that are not directives are skipped without effect on
    the result, wherever the first directive stands (the index of the next
    argument is kept right), and whatever follows a directive and its value
    is not looked at. *)
Theorem RecvConfigureSpec_skips `{json_Decoder} (pre : list string) :
  no_directive pre = true ->
  (forall rest, RecvConfigureSpec (pre ++ rest) = RecvConfigureSpec rest)
  /\ (forall j post,
        RecvConfigureSpec (pre ++ ("-configure=" +:+ j) :: post)
        = RecvConfigureSpec ["-configure=" +:+ j])
  /\ (forall j post,
        RecvConfigureSpec (pre ++ "-configure" :: j :: post)
        = RecvConfigureSpec ["-configure"; j]).
Proof.
  intros Hpre. split; [|split].
  - intros rest.
    destruct (first_directive_split rest)
      as [Hno | (pre2 & d & post & -> & Hpre2 & Hd)].
    + rewrite !Recv_no_directive; [reflexivity | exact Hno|].
      now rewrite no_directive_app, Hpre, Hno.
    + assert (Hboth : no_directive (pre ++ pre2) = true)
        by now rewrite no_directive_app, Hpre, Hpre2.
      rewrite app_assoc.
      destruct (is_directive_cases _ Hd) as [[j ->] | ->].
      * now rewrite !Recv_assign.
      * destruct post as [|j post].
        -- now rewrite !Recv_bare_last.
        -- now rewrite !Recv_bare_next.
  - intros j post. rewrite Recv_assign by assumption.
    symmetry. exact (Recv_assign [] [] j eq_refl).
  - intros j post. rewrite Recv_bare_next by assumption.
    symmetry. exact (Recv_bare_next [] [] j eq_refl).
Qed.

Lemma RecvConfigureSpec_skips_witness :
  @RecvConfigureSpec json_Unmarshal_minimal
     ["plugin"; "-verbose"; "-configure"; "{}"; "-introspect"]
  = inl zero_ConfigureSpec.
Proof.
  exact (eq_trans
           (proj2 (proj2
              (@RecvConfigureSpec_skips json_Unmarshal_minimal
                 ["plugin"; "-verbose"] eq_refl))
              "{}" ["-introspect"])
           eq_refl).
Defined.

(** * The introspection document *)

(** ** Runes and the strings of the encoder *)

(** The bits of a rune are put together from disjoint fields, so the
    shifts and masks of [DecodeRuneInString] are sums of multiples. *)
Lemma lor_shiftl_add (a b k : N) :
  (b < 2 ^ k)%N -> N.lor (N.shiftl a k) b = (a * 2 ^ k + b)%N.
Proof.
  intros Hb. rewrite N.shiftl_mul_pow2.
  rewrite <- N.lxor_lor, <- N.add_nocarry_lxor; try reflexivity.
  all: apply N.bits_inj; intros i; rewrite N.land_spec, N.bits_0;
    destruct (N.lt_ge_cases i k) as [Hi|Hi];
    [ rewrite N.mul_pow2_bits_low by assumption; reflexivity
    | rewrite <- (N.mod_small b (2 ^ k)) by assumption;
      rewrite N.mod_pow2_bits_high by assumption; apply andb_false_r ].
Qed.

Lemma land_31 a : N.land a 31 = (a mod 32)%N.
Proof. exact (N.land_ones a 5). Qed.
Lemma land_63 a : N.land a 63 = (a mod 64)%N.
Proof. exact (N.land_ones a 6). Qed.
Lemma land_15 a : N.land a 15 = (a mod 16)%N.
Proof. exact (N.land_ones a 4). Qed.
Lemma land_7 a : N.land a 7 = (a mod 8)%N.
Proof. exact (N.land_ones a 3). Qed.

Lemma rune2_arith (s0 s1 : N) :
  N.lor (N.shiftl (N.land s0 31) 6) (N.land s1 63) = (s0 mod 32 * 64 + s1 mod 64)%N.
Proof.
  rewrite land_31, land_63, lor_shiftl_add; [reflexivity|].
  apply (N.mod_upper_bound s1 64). discriminate.
Qed.

Lemma rune3_arith (s0 s1 s2 : N) :
  N.lor (N.lor (N.shiftl (N.land s0 15) 12) (N.shiftl (N.land s1 63) 6)) (N.land s2 63)
  = (s0 mod 16 * 4096 + s1 mod 64 * 64 + s2 mod 64)%N.
Proof.
  rewrite land_15, !land_63.
  pose proof (N.mod_upper_bound s1 64 ltac:(discriminate)) as H1.
  pose proof (N.mod_upper_bound s2 64 ltac:(discriminate)) as H2.
  rewrite (N.shiftl_mul_pow2 (s1 mod 64) 6).
  rewrite lor_shiftl_add by (change (2 ^ 12)%N with 4096%N; change (2 ^ 6)%N with 64%N; lia).
  change (2 ^ 12)%N with (2 ^ 6 * 2 ^ 6)%N.
  replace (s0 mod 16 * (2 ^ 6 * 2 ^ 6) + s1 mod 64 * 2 ^ 6)%N
    with ((s0 mod 16 * 2 ^ 6 + s1 mod 64) * 2 ^ 6)%N by ring.
  rewrite <- N.shiftl_mul_pow2, lor_shiftl_add by assumption.
  change (2 ^ 6)%N with 64%N. ring.
Qed.

Lemma rune4_arith (s0 s1 s2 s3 : N) :
  N.lor (N.lor (N.lor (N.shiftl (N.land s0 7) 18) (N.shiftl (N.land s1 63) 12))
               (N.shiftl (N.land s2 63) 6)) (N.land s3 63)
  = (s0 mod 8 * 262144 + s1 mod 64 * 4096 + s2 mod 64 * 64 + s3 mod 64)%N.
Proof.
  rewrite land_7, !land_63.
  pose proof (N.mod_upper_bound s1 64 ltac:(discriminate)) as H1.
  pose proof (N.mod_upper_bound s2 64 ltac:(discriminate)) as H2.
  pose proof (N.mod_upper_bound s3 64 ltac:(discriminate)) as H3.
  rewrite (N.shiftl_mul_pow2 (s1 mod 64) 12).
  rewrite lor_shiftl_add by (change (2 ^ 18)%N with 262144%N; change (2 ^ 12)%N with 4096%N; lia).
  rewrite (N.shiftl_mul_pow2 (s2 mod 64) 6).
  change (2 ^ 18)%N with (2 ^ 6 * 2 ^ 12)%N.
  replace (s0 mod 8 * (2 ^ 6 * 2 ^ 12) + s1 mod 64 * 2 ^ 12)%N
    with ((s0 mod 8 * 2 ^ 6 + s1 mod 64) * 2 ^ 12)%N by ring.
  rewrite <- N.shiftl_mul_pow2.
  rewrite lor_shiftl_add by (change (2 ^ 12)%N with 4096%N; change (2 ^ 6)%N with 64%N; lia).
  change (2 ^ 12)%N with (2 ^ 6 * 2 ^ 6)%N.
  replace ((s0 mod 8 * 2 ^ 6 + s1 mod 64) * (2 ^ 6 * 2 ^ 6) + s2 mod 64 * 2 ^ 6)%N
    with (((s0 mod 8 * 2 ^ 6 + s1 mod 64) * 2 ^ 6 + s2 mod 64) * 2 ^ 6)%N by ring.
  rewrite <- N.shiftl_mul_pow2, lor_shiftl_add by assumption.
  change (2 ^ 6)%N with 64%N. ring.
Qed.

Lemma utf8_first_spec (s0 : N) (sz : nat) (lo hi : N) :
  utf8_first s0 = Some (sz, (lo, hi)) ->
  (128 <= lo /\ hi <= 191)%N
  /\ (sz = 2%nat /\ (194 <= s0 <= 223)%N
      \/ sz = 3%nat /\ (224 <= s0 <= 239)%N
      \/ sz = 4%nat /\ (s0 = 240 /\ lo = 144 \/ 241 <= s0 <= 244)%N).
Proof.
  unfold utf8_first.
  repeat match goal with
         | |- context [if ?b then _ else _] => destruct b eqn:?
         end; intros [= <- <- <-]; bool_to_prop; lia.
Qed.

Lemma ascii_of_N_eq (c : ascii) (n : N) : N_of_ascii c = n -> c = ascii_of_N n.
Proof. intros <-. symmetry. apply ascii_N_embedding. Qed.

(** When [DecodeRuneInString] finds a rune at a byte that is not ASCII,
    the rune takes two to four bytes of the string, none of them ASCII, and
    U+2028 and U+2029 are the runes of the byte sequences [E2 80 A8] and
    [E2 80 A9] only. *)
Lemma Decode_valid (c0 : ascii) (t0 : string) (c : N) (size : nat) :
  (128 <= N_of_ascii c0)%N ->
  utf8_DecodeRuneInString (String c0 t0) = (c, size) ->
  (c =? utf8_RuneError)%N && (size =? 1)%nat = false ->
  (2 <= size)%nat
  /\ String.length (string_take size (String c0 t0)) = size
  /\ all_bytes high_byte (string_take size (String c0 t0)) = true
  /\ (c = 8232%N ->
      string_take size (String c0 t0) = String "226" (String "128" (String "168" "")))
  /\ (c = 8233%N ->
      string_take size (String c0 t0) = String "226" (String "128" (String "169" ""))).
Proof.
  intros Hge HD Hv. unfold utf8_DecodeRuneInString in HD.
  assert (Hne : (utf8_RuneError, 1%nat) <> (c, size)).
  { intros [= <- <-]. discriminate. }
  clear Hv.
  destruct (N.ltb_spec (N_of_ascii c0) utf8_RuneSelf) as [Hlt|_];
    [unfold utf8_RuneSelf in Hlt; lia|].
  destruct (utf8_first (N_of_ascii c0)) as [[sz [lo hi]]|] eqn:F;
    [|contradiction].
  apply utf8_first_spec in F. destruct F as [[Hlo Hhi] Hsz].
  destruct t0 as [|c1 t1]; [contradiction|].
  destruct ((N_of_ascii c1 <? lo)%N || (hi <? N_of_ascii c1)%N) eqn:R1;
    [contradiction|].
  bool_to_prop.
  assert (Hb1 : high_byte c1 = true) by (apply N.leb_le; lia).
  assert (Hb0 : high_byte c0 = true) by (apply N.leb_le; lia).
  destruct Hsz as [[-> Hs0]|[[-> Hs0]|[-> Hs0]]]; cbn [Nat.leb] in HD.
  - injection HD as <- <-. rewrite rune2_arith. cbn [string_take String.length all_bytes].
    rewrite Hb0, Hb1.
    mod_facts (N_of_ascii c0) 32%N. mod_facts (N_of_ascii c1) 64%N.
    repeat split; try lia; intros; exfalso; lia.
  - destruct t1 as [|c2 t2]; [contradiction|].
    destruct ((N_of_ascii c2 <? 128)%N || (191 <? N_of_ascii c2)%N) eqn:R2;
      [contradiction|].
    bool_to_prop.
    assert (Hb2 : high_byte c2 = true) by (apply N.leb_le; lia).
    injection HD as <- <-. rewrite rune3_arith. cbn [string_take String.length all_bytes].
    rewrite Hb0, Hb1, Hb2.
    repeat split; try lia; intros Hc.
    + rewrite (ascii_of_N_eq c0 226), (ascii_of_N_eq c1 128), (ascii_of_N_eq c2 168);
        [reflexivity| | |];
        mod_facts (N_of_ascii c0) 16%N; mod_facts (N_of_ascii c1) 64%N;
        mod_facts (N_of_ascii c2) 64%N; lia.
    + rewrite (ascii_of_N_eq c0 226), (ascii_of_N_eq c1 128), (ascii_of_N_eq c2 169);
        [reflexivity| | |];
        mod_facts (N_of_ascii c0) 16%N; mod_facts (N_of_ascii c1) 64%N;
        mod_facts (N_of_ascii c2) 64%N; lia.
  - destruct t1 as [|c2 t2]; [contradiction|].
    destruct ((N_of_ascii c2 <? 128)%N || (191 <? N_of_ascii c2)%N) eqn:R2;
      [contradiction|].
    destruct t2 as [|c3 t3]; [contradiction|].
    destruct ((N_of_ascii c3 <? 128)%N || (191 <? N_of_ascii c3)%N) eqn:R3;
      [contradiction|].
    bool_to_prop.
    assert (Hb2 : high_byte c2 = true) by (apply N.leb_le; lia).
    assert (Hb3 : high_byte c3 = true) by (apply N.leb_le; lia).
    injection HD as <- <-. rewrite rune4_arith. cbn [string_take String.length all_bytes].
    rewrite Hb0, Hb1, Hb2, Hb3.
    mod_facts (N_of_ascii c0) 8%N. mod_facts (N_of_ascii c1) 64%N.
    mod_facts (N_of_ascii c2) 64%N. mod_facts (N_of_ascii c3) 64%N.
    repeat split; try lia; intros; exfalso; lia.
Qed.

(** ** Strings are read back *)

Lemma prepend_prepend {A} (a b : string) (r : option (string * A)) :
  prepend a (prepend b r) = prepend (a +:+ b) r.
Proof. destruct r as [[t rest]|]; [|reflexivity]. simpl. now rewrite app_assoc_string. Qed.

Lemma prepend_nil {A} (r : option (string * A)) : prepend "" r = r.
Proof. now destruct r as [[t rest]|]. Qed.

Lemma read_string_high (pre X : string) :
  all_bytes high_byte pre = true ->
  read_string in_text (pre +:+ X) = prepend pre (read_string in_text X).
Proof.
  induction pre as [|c pre IH]; intros H.
  - symmetry. apply prepend_nil.
  - cbn [all_bytes] in H. apply andb_true_iff in H. destruct H as [Hc H].
    change (String c pre +:+ X) with (String c (pre +:+ X)). cbn [read_string].
    unfold high_byte in Hc. apply N.leb_le in Hc.
    destruct (Ascii.eqb_spec c json_quote) as [->|_]; [vm_compute in Hc; contradiction|].
    destruct (Ascii.eqb_spec c json_backslash) as [->|_]; [vm_compute in Hc; contradiction|].
    destruct (N.ltb_spec (N_of_ascii c) 32); [lia|].
    rewrite (IH H), prepend_prepend. reflexivity.
Qed.

(** What [appendString] writes for an ASCII byte, escaped or not, is read
    as that byte. *)
Lemma read_string_ascii (b : ascii) (X : string) :
  (N_of_ascii b <? utf8_RuneSelf)%N = true ->
  read_string in_text ((if htmlSafeSet b then String b "" else appendString_escape b) +:+ X)
  = prepend (String b "") (read_string in_text X).
Proof.
  destruct b as [[|] [|] [|] [|] [|] [|] [|] [|]]; intros H;
    try discriminate H; reflexivity.
Qed.

Lemma read_string_fffd (X : string) :
  read_string in_text (String json_backslash "ufffd" +:+ X)
  = prepend (String "239" (String "191" (String "189" ""))) (read_string in_text X).
Proof. reflexivity. Qed.

Lemma read_string_2028 (X : string) :
  read_string in_text ((String json_backslash "u202" +:+ json_hex (N.land 8232 15)) +:+ X)
  = prepend (String "226" (String "128" (String "168" ""))) (read_string in_text X).
Proof. reflexivity. Qed.

Lemma read_string_2029 (X : string) :
  read_string in_text ((String json_backslash "u202" +:+ json_hex (N.land 8233 15)) +:+ X)
  = prepend (String "226" (String "128" (String "169" ""))) (read_string in_text X).
Proof. reflexivity. Qed.

Lemma appendString_from_skip (k : nat) (s : string) :
  appendString_from k s = appendString_from 0 (string_drop k s).
Proof.
  revert k. induction s as [|b s IH]; intros [|k]; try reflexivity.
  cbn [string_drop]. change (appendString_from (S k) (String b s)) with (appendString_from k s).
  apply IH.
Qed.

Lemma ToValidUTF8_from_skip (k : nat) (s : string) :
  ToValidUTF8_from k s = string_take k s +:+ ToValidUTF8_from 0 (string_drop k s).
Proof.
  revert k. induction s as [|b s IH]; intros [|k]; try reflexivity.
  cbn [string_drop string_take].
  change (ToValidUTF8_from (S k) (String b s)) with (String b (ToValidUTF8_from k s)).
  now rewrite IH.
Qed.

Lemma string_take_length_drop (n : nat) (s : string) :
  String.length (string_take n s) = n ->
  (String.length (string_drop n s) + n = String.length s)%nat.
Proof.
  intros H. rewrite <- (string_take_drop n s) at 2. rewrite length_app_string. lia.
Qed.

Lemma read_appendString_bounded (n : nat) (s X : string) :
  (String.length s <= n)%nat ->
  read_string in_text (appendString_from 0 s +:+ String json_quote X)
  = Some (ToValidUTF8_from 0 s, X).
Proof.
  revert s. induction n as [|n IH]; intros [|b s] Hn; try reflexivity;
    cbn [String.length] in Hn; [lia|].
  cbn [appendString_from ToValidUTF8_from].
  destruct (N.ltb (N_of_ascii b) utf8_RuneSelf) eqn:Hb.
  - rewrite app_assoc_string, read_string_ascii, IH by (assumption || lia).
    unfold utf8_DecodeRuneInString. rewrite Hb.
    replace ((N_of_ascii b =? utf8_RuneError)%N) with false; [reflexivity|].
    symmetry. apply N.eqb_neq. apply N.ltb_lt in Hb.
    unfold utf8_RuneSelf, utf8_RuneError in *. lia.
  - destruct (utf8_DecodeRuneInString (String b s)) as [c size] eqn:HD.
    destruct ((c =? utf8_RuneError)%N && (size =? 1)%nat) eqn:Hv.
    + apply andb_true_iff in Hv. destruct Hv as [_ Hs]. apply Nat.eqb_eq in Hs. subst size.
      rewrite app_assoc_string, read_string_fffd. cbn [Nat.sub].
      rewrite IH by lia. reflexivity.
    + apply N.ltb_ge in Hb.
      destruct (Decode_valid b s c size Hb HD Hv) as (H2 & Hlen & Hhigh & H28 & H29).
      destruct size as [|size]; [lia|]. cbn [Nat.sub]. rewrite Nat.sub_0_r.
      rewrite appendString_from_skip, ToValidUTF8_from_skip.
      assert (Hd : (String.length (string_drop size s) <= n)%nat).
      { apply string_take_length_drop in Hlen. cbn [string_drop String.length] in Hlen. lia. }
      change (String b (string_take size s +:+ ToValidUTF8_from 0 (string_drop size s)))
        with (string_take (S size) (String b s) +:+ ToValidUTF8_from 0 (string_drop size s)).
      rewrite app_assoc_string.
      destruct (N.eqb_spec c 8232) as [->|N28].
      * cbn [orb]. rewrite read_string_2028, IH, (H28 eq_refl) by assumption. reflexivity.
      * destruct (N.eqb_spec c 8233) as [->|N29]; cbn [orb].
        -- rewrite read_string_2029, IH, (H29 eq_refl) by assumption. reflexivity.
        -- rewrite read_string_high, IH by assumption. reflexivity.
Qed.

(** The reader finds in a string written by [appendString] the string
    coerced to valid UTF-8. *)
Lemma read_appendString (s X : string) :
  read_string in_text (appendString_from 0 s +:+ String json_quote X)
  = Some (json_ToValidUTF8 s, X).
Proof. now apply (read_appendString_bounded (String.length s)). Qed.

(** ** A string that is valid UTF-8 is not changed by the coercion *)

Lemma utf8_scan_lead (c0 : ascii) (t0 : string) (lo hi : N) :
  (128 <= N_of_ascii c0)%N ->
  utf8_scan 0 lo hi (String c0 t0)
  = match utf8_first (N_of_ascii c0) with
    | Some (sz, (l, h)) => utf8_scan (sz - 1) l h t0
    | None => false
    end.
Proof.
  intros H. cbn [utf8_scan]. unfold utf8_first.
  destruct (N.ltb_spec (N_of_ascii c0) 128) as [Hlt|_]; [lia|].
  repeat match goal with
         | |- context [if ?b then _ else _] => destruct b
         end; reflexivity.
Qed.

Lemma out_of_range_false (b lo hi : N) :
  (lo <=? b)%N && (b <=? hi)%N = true -> (b <? lo)%N || (hi <? b)%N = false.
Proof.
  intros H. bool_to_prop. apply orb_false_iff. split; apply N.ltb_ge; lia.
Qed.

Lemma valid_Decode (c0 : ascii) (t0 : string) :
  (128 <= N_of_ascii c0)%N ->
  utf8_scan 0 128 191 (String c0 t0) = true ->
  exists c size,
    utf8_DecodeRuneInString (String c0 t0) = (c, size)
    /\ (2 <= size)%nat
    /\ utf8_scan 0 128 191 (string_drop size (String c0 t0)) = true.
Proof.
  intros Hge. rewrite utf8_scan_lead by assumption. unfold utf8_DecodeRuneInString.
  destruct (N.ltb_spec (N_of_ascii c0) utf8_RuneSelf) as [Hlt|_];
    [unfold utf8_RuneSelf in Hlt; lia|].
  destruct (utf8_first (N_of_ascii c0)) as [[sz [lo hi]]|] eqn:F; [|discriminate].
  apply utf8_first_spec in F. destruct F as [_ Hsz].
  assert (Hsz' : sz = 2%nat \/ sz = 3%nat \/ sz = 4%nat) by tauto. clear Hsz.
  destruct t0 as [|c1 t1]; [destruct Hsz' as [-> | [-> | ->]]; discriminate|].
  intros Hs.
  assert (H1 : (lo <=? N_of_ascii c1)%N && (N_of_ascii c1 <=? hi)%N = true
               /\ utf8_scan (sz - 2) 128 191 t1 = true).
  { destruct Hsz' as [-> | [-> | ->]]; cbn [utf8_scan Nat.sub] in Hs |- *;
      destruct ((lo <=? N_of_ascii c1)%N && (N_of_ascii c1 <=? hi)%N);
      (discriminate || now split). }
  clear Hs. destruct H1 as [R1 Hs]. rewrite (out_of_range_false _ _ _ R1).
  destruct Hsz' as [-> | [-> | ->]]; cbn [Nat.leb Nat.sub] in Hs |- *.
  - eexists _, _. split; [reflexivity|]. split; [lia|exact Hs].
  - destruct t1 as [|c2 t2]; [discriminate|]. cbn [utf8_scan] in Hs.
    destruct ((128 <=? N_of_ascii c2)%N && (N_of_ascii c2 <=? 191)%N) eqn:R2; [|discriminate].
    rewrite (out_of_range_false _ _ _ R2).
    eexists _, _. split; [reflexivity|]. split; [lia|exact Hs].
  - destruct t1 as [|c2 t2]; [discriminate|]. cbn [utf8_scan] in Hs.
    destruct ((128 <=? N_of_ascii c2)%N && (N_of_ascii c2 <=? 191)%N) eqn:R2; [|discriminate].
    rewrite (out_of_range_false _ _ _ R2).
    destruct t2 as [|c3 t3]; [discriminate|]. cbn [utf8_scan] in Hs.
    destruct ((128 <=? N_of_ascii c3)%N && (N_of_ascii c3 <=? 191)%N) eqn:R3; [|discriminate].
    rewrite (out_of_range_false _ _ _ R3).
    eexists _, _. split; [reflexivity|]. split; [lia|exact Hs].
Qed.

Lemma ToValidUTF8_valid_bounded (n : nat) (s : string) :
  (String.length s <= n)%nat ->
  utf8_scan 0 128 191 s = true -> ToValidUTF8_from 0 s = s.
Proof.
  revert s. induction n as [|n IH]; intros [|b s] Hn Hv; try reflexivity;
    cbn [String.length] in Hn; [lia|].
  cbn [ToValidUTF8_from].
  destruct (N.ltb_spec (N_of_ascii b) 128) as [Hb|Hb].
  - unfold utf8_DecodeRuneInString, utf8_RuneSelf.
    destruct (N.ltb_spec (N_of_ascii b) 128) as [_|?]; [|lia].
    replace ((N_of_ascii b =? utf8_RuneError)%N) with false
      by (symmetry; apply N.eqb_neq; unfold utf8_RuneError; lia).
    cbn [andb Nat.sub]. f_equal. apply IH; [lia|].
    cbn [utf8_scan] in Hv.
    destruct (N.ltb_spec (N_of_ascii b) 128) as [_|?]; [exact Hv|lia].
  - destruct (valid_Decode b s Hb Hv) as (c & size & HD & H2 & Hrest). rewrite HD.
    replace ((size =? 1)%nat) with false by (symmetry; apply Nat.eqb_neq; lia).
    rewrite andb_false_r.
    destruct size as [|size]; [lia|]. cbn [Nat.sub string_drop] in *. rewrite Nat.sub_0_r.
    rewrite ToValidUTF8_from_skip, IH; [now rewrite string_take_drop| |exact Hrest].
    rewrite length_string_drop. lia.
Qed.

Lemma ToValidUTF8_valid (s : string) :
  utf8_ValidString s = true -> json_ToValidUTF8 s = s.
Proof. now apply (ToValidUTF8_valid_bounded (String.length s)). Qed.

(** ** What the encoder writes is valid UTF-8 *)

Lemma valid_piece_app (a a' : string) :
  valid_piece a -> valid_piece a' -> valid_piece (a +:+ a').
Proof. intros H H' b. now rewrite app_assoc_string, H, H'. Qed.

Lemma all_bytes_impl (f g : ascii -> bool) (s : string) :
  (forall c, f c = true -> g c = true) -> all_bytes f s = true -> all_bytes g s = true.
Proof.
  intros Hfg. induction s as [|c s IH]; [reflexivity|]. cbn [all_bytes].
  rewrite !andb_true_iff. intros [Hc H]. auto.
Qed.

Lemma valid_piece_ascii (a : string) : all_bytes ascii_byte a = true -> valid_piece a.
Proof.
  intros H b. induction a as [|c a IH]; [reflexivity|].
  cbn [all_bytes] in H. apply andb_true_iff in H. destruct H as [Hc H].
  change (String c a +:+ b) with (String c (a +:+ b)).
  unfold utf8_ValidString in *. cbn [utf8_scan].
  unfold ascii_byte, utf8_RuneSelf in Hc. rewrite Hc. now apply IH.
Qed.

Lemma in_range_true (b lo hi : N) :
  (b <? lo)%N || (hi <? b)%N = false -> (lo <=? b)%N && (b <=? hi)%N = true.
Proof.
  intros H. bool_to_prop. apply andb_true_iff. split; apply N.leb_le; lia.
Qed.

(** The bytes of a rune that [DecodeRuneInString] finds are a valid
    sequence. *)
Lemma Decode_valid_piece (c0 : ascii) (t0 : string) (c : N) (size : nat) :
  (128 <= N_of_ascii c0)%N ->
  utf8_DecodeRuneInString (String c0 t0) = (c, size) ->
  (c =? utf8_RuneError)%N && (size =? 1)%nat = false ->
  valid_piece (string_take size (String c0 t0)).
Proof.
  intros Hge HD Hv b. unfold utf8_ValidString, utf8_DecodeRuneInString in *.
  assert (Hne : (utf8_RuneError, 1%nat) <> (c, size)).
  { intros [= <- <-]. discriminate. }
  clear Hv.
  destruct (N.ltb_spec (N_of_ascii c0) utf8_RuneSelf) as [Hlt|_];
    [unfold utf8_RuneSelf in Hlt; lia|].
  destruct (utf8_first (N_of_ascii c0)) as [[sz [lo hi]]|] eqn:F; [|contradiction].
  pose proof (utf8_first_spec _ _ _ _ F) as [_ Hsz].
  assert (Hsz' : sz = 2%nat \/ sz = 3%nat \/ sz = 4%nat) by tauto. clear Hsz.
  destruct t0 as [|c1 t1]; [contradiction|].
  destruct ((N_of_ascii c1 <? lo)%N || (hi <? N_of_ascii c1)%N) eqn:R1; [contradiction|].
  apply in_range_true in R1.
  destruct Hsz' as [-> | [-> | ->]]; cbn [Nat.leb] in HD.
  - injection HD as <- <-. cbn [string_take].
    change (String c0 (String c1 "") +:+ b) with (String c0 (String c1 b)).
    rewrite utf8_scan_lead, F by assumption. cbn [Nat.sub utf8_scan]. now rewrite R1.
  - destruct t1 as [|c2 t2]; [contradiction|].
    destruct ((N_of_ascii c2 <? 128)%N || (191 <? N_of_ascii c2)%N) eqn:R2; [contradiction|].
    apply in_range_true in R2.
    injection HD as <- <-. cbn [string_take].
    change (String c0 (String c1 (String c2 "")) +:+ b)
      with (String c0 (String c1 (String c2 b))).
    rewrite utf8_scan_lead, F by assumption. cbn [Nat.sub utf8_scan]. now rewrite R1, R2.
  - destruct t1 as [|c2 t2]; [contradiction|].
    destruct ((N_of_ascii c2 <? 128)%N || (191 <? N_of_ascii c2)%N) eqn:R2; [contradiction|].
    destruct t2 as [|c3 t3]; [contradiction|].
    destruct ((N_of_ascii c3 <? 128)%N || (191 <? N_of_ascii c3)%N) eqn:R3; [contradiction|].
    apply in_range_true in R2. apply in_range_true in R3.
    injection HD as <- <-. cbn [string_take].
    change (String c0 (String c1 (String c2 (String c3 ""))) +:+ b)
      with (String c0 (String c1 (String c2 (String c3 b)))).
    rewrite utf8_scan_lead, F by assumption. cbn [Nat.sub utf8_scan].
    now rewrite R1, R2, R3.
Qed.

Lemma appendString_byte_text (b : ascii) :
  (N_of_ascii b <? utf8_RuneSelf)%N = true ->
  all_bytes text_byte (if htmlSafeSet b then String b "" else appendString_escape b) = true.
Proof.
  destruct b as [[|] [|] [|] [|] [|] [|] [|] [|]]; intros H;
    try discriminate H; reflexivity.
Qed.

Lemma text_byte_ascii (c : ascii) : text_byte c = true -> ascii_byte c = true.
Proof. unfold text_byte. now intros [H _]%andb_true_iff. Qed.

Lemma text_byte_not_newline (c : ascii) : text_byte c = true -> not_newline c = true.
Proof. unfold text_byte. now intros [_ H]%andb_true_iff. Qed.

Lemma valid_piece_text (a : string) : all_bytes text_byte a = true -> valid_piece a.
Proof. intros H. apply valid_piece_ascii. revert H. apply all_bytes_impl, text_byte_ascii. Qed.

Lemma valid_piece_appendString_bounded (n : nat) (s : string) :
  (String.length s <= n)%nat -> valid_piece (appendString_from 0 s).
Proof.
  revert s. induction n as [|n IH]; intros [|b s] Hn; try (now intros x).
  cbn [String.length] in Hn. cbn [appendString_from].
  destruct (N.ltb (N_of_ascii b) utf8_RuneSelf) eqn:Hb.
  - apply valid_piece_app; [|apply IH; lia].
    now apply valid_piece_text, appendString_byte_text.
  - destruct (utf8_DecodeRuneInString (String b s)) as [c size] eqn:HD.
    destruct ((c =? utf8_RuneError)%N && (size =? 1)%nat) eqn:Hv.
    + apply andb_true_iff in Hv. destruct Hv as [_ Hs]. apply Nat.eqb_eq in Hs. subst size.
      cbn [Nat.sub]. apply valid_piece_app; [now apply valid_piece_ascii|apply IH; lia].
    + apply N.ltb_ge in Hb.
      destruct (Decode_valid b s c size Hb HD Hv) as (H2 & Hlen & _).
      pose proof (Decode_valid_piece b s c size Hb HD Hv) as Hpiece.
      destruct size as [|size]; [lia|]. cbn [Nat.sub]. rewrite Nat.sub_0_r.
      rewrite appendString_from_skip.
      apply valid_piece_app.
      * destruct (N.eqb_spec c 8232) as [->|N28]; [now apply valid_piece_ascii|].
        destruct (N.eqb_spec c 8233) as [->|N29]; [now apply valid_piece_ascii|].
        exact Hpiece.
      * apply IH. apply string_take_length_drop in Hlen.
        cbn [string_drop String.length] in Hlen. lia.
Qed.

Lemma valid_piece_appendString (s : string) : valid_piece (appendString s).
Proof.
  unfold appendString.
  change (String json_quote (appendString_from 0 s +:+ String json_quote ""))
    with (String json_quote "" +:+ appendString_from 0 s +:+ String json_quote "").
  apply valid_piece_app; [now apply valid_piece_ascii|].
  apply valid_piece_app; [|now apply valid_piece_ascii].
  now apply (valid_piece_appendString_bounded (String.length s)).
Qed.

(** ** Integers are read back *)

Lemma digits_string_of_uint (d : Decimal.uint) :
  all_bytes is_digit (NilEmpty.string_of_uint d) = true.
Proof. induction d; cbn [NilEmpty.string_of_uint all_bytes]; try rewrite IHd; reflexivity. Qed.

Lemma span_digits_app (D X : string) :
  all_bytes is_digit D = true -> number_end X = true ->
  span_digits (D +:+ X) = (D, X).
Proof.
  intros HD HX. induction D as [|c D IH].
  - destruct X as [|c X]; [reflexivity|]. cbn [number_end] in HX.
    cbn [String.append span_digits]. destruct (is_digit c); [discriminate|reflexivity].
  - cbn [all_bytes] in HD. apply andb_true_iff in HD. destruct HD as [Hc HD].
    change (String c D +:+ X) with (String c (D +:+ X)). cbn [span_digits].
    now rewrite Hc, (IH HD).
Qed.

Lemma number_end_fraction (X : string) :
  number_end X = true ->
  strings_HasPrefix X "." || strings_HasPrefix X "e" || strings_HasPrefix X "E" = false.
Proof.
  destruct X as [|c X]; [reflexivity|]. cbn [number_end strings_HasPrefix].
  rewrite !(Ascii.eqb_sym _ c).
  destruct (is_digit c), (Ascii.eqb c "."), (Ascii.eqb c "e"), (Ascii.eqb c "E");
    (discriminate || reflexivity).
Qed.

Lemma to_uint_head (p : positive) (d : Decimal.uint) : Pos.to_uint p <> Decimal.D0 d.
Proof.
  intros H.
  assert (Hn : Decimal.unorm (Pos.to_uint p) = Pos.to_uint p).
  { rewrite <- DecimalPos.Unsigned.to_of, DecimalPos.Unsigned.of_to. reflexivity. }
  destruct (Decimal.nzhead (Pos.to_uint p)) eqn:Hz.
  1:{ apply DecimalFacts.unorm_0 in Hz. rewrite Hn in Hz.
      now apply DecimalPos.Unsigned.to_uint_nonzero in Hz. }
  all: rewrite DecimalFacts.unorm_nzhead in Hn by (rewrite Hz; discriminate);
    rewrite H in Hn; now apply DecimalFacts.nzhead_nonzero in Hn.
Qed.

(** The reader finds in the digits written by [strconv] the integer they
    were written for. *)
Lemma read_number_FormatInt (n : Z) (X : string) :
  number_end X = true ->
  read_number (strconv_FormatInt n +:+ X) = Some (n, X).
Proof.
  intros HX. unfold strconv_FormatInt.
  assert (Hu : forall p,
             exists c D, NilZero.string_of_uint (Pos.to_uint p) = String c D
                         /\ is_digit c = true /\ Ascii.eqb c "0" = false
                         /\ all_bytes is_digit D = true).
  { intros p. pose proof (to_uint_head p) as Hh.
    pose proof (digits_string_of_uint (Pos.to_uint p)) as Hd.
    pose proof (DecimalPos.Unsigned.to_uint_nonnil p) as Hnil.
    destruct (Pos.to_uint p) as [|d|d|d|d|d|d|d|d|d|d];
      [contradiction|now destruct (Hh d)|..];
      cbn [NilZero.string_of_uint NilEmpty.string_of_uint all_bytes] in *;
      eexists _, _; (split; [reflexivity|]); repeat split; try reflexivity;
      apply andb_true_iff in Hd; apply Hd. }
  pose proof (of_to n) as Hof.
  destruct n as [|p|p].
  - change (NilZero.string_of_int (Z.to_int 0) +:+ X) with (String "0" X).
    unfold read_number. cbn [Ascii.eqb Bool.eqb].
    change (span_digits (String "0" X)) with
      (let '(d, rest) := span_digits X in (String "0"%char d, rest)).
    rewrite (span_digits_app "" X eq_refl HX : span_digits X = ("", X)).
    change (strings_HasPrefix "0" "0" && (1 <? String.length "0")%nat) with false.
    cbv iota. rewrite (number_end_fraction X HX). reflexivity.
  - destruct (Hu p) as (c & D & E & Hc & H0 & HD).
    cbn [Z.to_int NilZero.string_of_int] in *. rewrite E.
    change (String c D +:+ X) with (String c (D +:+ X)). unfold read_number.
    replace (Ascii.eqb c "-") with false
      by (destruct c as [[|] [|] [|] [|] [|] [|] [|] [|]]; (discriminate Hc || reflexivity)).
    cbn [span_digits]. rewrite Hc, (span_digits_app D X HD HX).
    rewrite (HasPrefix_cons c "0" D ""), Ascii.eqb_sym, H0.
    cbn [andb]. rewrite (number_end_fraction X HX).
    cbn [String.append]. rewrite <- E.
    change (NilZero.string_of_uint (Pos.to_uint p))
      with (NilZero.string_of_int (Decimal.Pos (Pos.to_uint p))).
    rewrite NilZero.isi.
    + now rewrite Hof.
    + intros [= Hp]. now apply DecimalPos.Unsigned.to_uint_nonnil in Hp.
    + discriminate.
  - destruct (Hu p) as (c & D & E & Hc & H0 & HD).
    cbn [Z.to_int NilZero.string_of_int] in *. rewrite E.
    change (String "-" (String c D) +:+ X) with (String "-" (String c (D +:+ X))).
    unfold read_number. cbn [Ascii.eqb Bool.eqb].
    cbn [span_digits]. rewrite Hc, (span_digits_app D X HD HX).
    rewrite (HasPrefix_cons c "0" D ""), Ascii.eqb_sym, H0.
    cbn [andb]. rewrite (number_end_fraction X HX).
    change ("-" +:+ String c D) with (String "-" (String c D)).
    rewrite <- E. change (String "-" (NilZero.string_of_uint (Pos.to_uint p)))
      with (NilZero.string_of_int (Decimal.Neg (Pos.to_uint p))).
    rewrite NilZero.isi.
    + now rewrite Hof.
    + discriminate.
    + intros [= Hp]. now apply DecimalPos.Unsigned.to_uint_nonnil in Hp.
Qed.

(** ** Values are read back *)

Lemma all_bytes_app (f : ascii -> bool) (a b : string) :
  all_bytes f (a +:+ b) = all_bytes f a && all_bytes f b.
Proof.
  induction a as [|c a IH]; [reflexivity|].
  change (String c a +:+ b) with (String c (a +:+ b)). cbn [all_bytes].
  now rewrite IH, andb_assoc.
Qed.

Lemma skip_space_blank (a X : string) :
  all_bytes is_space a = true -> skip_space (a +:+ X) = skip_space X.
Proof.
  induction a as [|c a IH]; intros H; [reflexivity|].
  cbn [all_bytes] in H. apply andb_true_iff in H. destruct H as [Hc H].
  change (String c a +:+ X) with (String c (a +:+ X)). cbn [skip_space].
  rewrite Hc. auto.
Qed.

Lemma HasPrefix_char (c a : ascii) (t : string) :
  strings_HasPrefix (String c t) (String a "") = Ascii.eqb a c.
Proof. rewrite HasPrefix_cons. now destruct (Ascii.eqb a c). Qed.

Lemma value_start_facts (c : ascii) :
  value_start c = true ->
  is_space c = false /\ Ascii.eqb "]" c = false /\ Ascii.eqb "}" c = false.
Proof.
  destruct c as [[|] [|] [|] [|] [|] [|] [|] [|]]; intros H;
    (discriminate H || (repeat split; reflexivity)).
Qed.

Lemma skip_space_value (c : ascii) (t : string) :
  value_start c = true -> skip_space (String c t) = String c t.
Proof.
  intros H. apply value_start_facts in H. destruct H as [H _].
  cbn [skip_space]. now rewrite H.
Qed.

Lemma FormatInt_head (n : Z) :
  exists c D, strconv_FormatInt n = String c D /\ (is_digit c || Ascii.eqb c "-") = true.
Proof.
  unfold strconv_FormatInt.
  assert (Hu : forall p, exists c D, NilZero.string_of_uint (Pos.to_uint p) = String c D
                                     /\ is_digit c = true).
  { intros p. pose proof (DecimalPos.Unsigned.to_uint_nonnil p) as Hnil.
    destruct (Pos.to_uint p); [contradiction|..];
      cbn [NilZero.string_of_uint NilEmpty.string_of_uint]; eexists _, _; split; reflexivity. }
  destruct n as [|p|p]; cbn [Z.to_int NilZero.string_of_int].
  - eexists _, _. split; reflexivity.
  - destruct (Hu p) as (c & D & -> & Hc). eexists _, _. split; [reflexivity|]. now rewrite Hc.
  - eexists _, _. split; reflexivity.
Qed.

Lemma read_value_number (f : nat) (c : ascii) (t : string) :
  (is_digit c || Ascii.eqb c "-") = true ->
  read_value (S f) (String c t) = with_value json_number (read_number (String c t)).
Proof.
  destruct c as [[|] [|] [|] [|] [|] [|] [|] [|]]; intros H;
    (discriminate H || reflexivity).
Qed.

Lemma read_value_string (f : nat) (t : string) :
  read_value (S f) (String json_quote t) = with_value json_string (read_string in_text t).
Proof. reflexivity. Qed.

Lemma read_value_array (f : nat) (t : string) :
  read_value (S f) (String "[" t)
  = if strings_HasPrefix (skip_space t) "]"
    then Some (json_array [], string_drop 1 (skip_space t))
    else with_value json_array (read_elements f (skip_space t)).
Proof. reflexivity. Qed.

Lemma read_value_object (f : nat) (t : string) :
  read_value (S f) (String "{" t)
  = if strings_HasPrefix (skip_space t) "}"
    then Some (json_object [], string_drop 1 (skip_space t))
    else with_value json_object (read_members f (skip_space t)).
Proof. reflexivity. Qed.

Lemma read_elements_unfold (f : nat) (s : string) :
  read_elements (S f) s
  = match read_value f s with
    | None => None
    | Some (v, s1) =>
        if strings_HasPrefix (skip_space s1) ","
        then with_value (cons v)
               (read_elements f (skip_space (string_drop 1 (skip_space s1))))
        else if strings_HasPrefix (skip_space s1) "]"
             then Some ([v], string_drop 1 (skip_space s1))
             else None
    end.
Proof. reflexivity. Qed.

Lemma read_members_unfold (f : nat) (t : string) :
  read_members (S f) (String json_quote t)
  = match read_string in_text t with
    | None => None
    | Some (key, s1) =>
        if strings_HasPrefix (skip_space s1) ":" then
          match read_value f (skip_space (string_drop 1 (skip_space s1))) with
          | None => None
          | Some (v, s2) =>
              if strings_HasPrefix (skip_space s2) "," then
                with_value (cons (key, v))
                  (read_members f (skip_space (string_drop 1 (skip_space s2))))
              else if strings_HasPrefix (skip_space s2) "}" then
                Some ([(key, v)], string_drop 1 (skip_space s2))
              else None
          end
        else None
    end.
Proof. reflexivity. Qed.

Section appendValue_read.
Variables prefix indent : string.
Hypothesis prefix_blank : all_bytes is_space prefix = true.
Hypothesis indent_blank : all_bytes is_space indent = true.

Lemma string_repeat_blank (d : nat) : all_bytes is_space (string_repeat indent d) = true.
Proof.
  induction d as [|d IH]; [reflexivity|].
  cbn [string_repeat]. now rewrite all_bytes_app, indent_blank, IH.
Qed.

Lemma skip_space_newline (d : nat) (X : string) :
  skip_space (appendNewline prefix indent d +:+ X) = skip_space X.
Proof.
  unfold appendNewline.
  change (String json_newline (prefix +:+ string_repeat indent d) +:+ X)
    with (String json_newline ((prefix +:+ string_repeat indent d) +:+ X)).
  cbn [skip_space]. change (is_space json_newline) with true. cbv iota.
  apply skip_space_blank. now rewrite all_bytes_app, prefix_blank, string_repeat_blank.
Qed.

Lemma appendValue_head (v : json_value) (d : nat) :
  exists c t, appendValue prefix indent d v = String c t /\ value_start c = true.
Proof.
  destruct v as [|[|]|n|s|elems|members]; cbn [appendValue];
    try (eexists _, _; split; reflexivity).
  - destruct (FormatInt_head n) as (c & D & -> & H). eexists _, _. split; [reflexivity|].
    unfold value_start. apply orb_true_iff in H. destruct H as [-> | ->];
      [reflexivity|]. now rewrite orb_true_r.
  - unfold appendItems. destruct (map _ elems); eexists _, _; split; reflexivity.
  - unfold appendItems. destruct (map _ members); eexists _, _; split; reflexivity.
Qed.

Lemma skip_space_appendValue (v : json_value) (d : nat) (X : string) :
  skip_space (appendValue prefix indent d v +:+ X) = appendValue prefix indent d v +:+ X.
Proof.
  destruct (appendValue_head v d) as (c & t & -> & H).
  change (String c t +:+ X) with (String c (t +:+ X)). now apply skip_space_value.
Qed.

Lemma appendValue_length (v : json_value) (d : nat) :
  (1 <= String.length (appendValue prefix indent d v))%nat.
Proof.
  destruct (appendValue_head v d) as (c & t & -> & _). cbn [String.length]. lia.
Qed.

Lemma appendNewline_length (d : nat) :
  (1 <= String.length (appendNewline prefix indent d))%nat.
Proof. unfold appendNewline. cbn [String.length]. lia. Qed.

Lemma concat_cons2 (sep t t2 : string) (ts : list string) :
  String.concat sep (t :: t2 :: ts) = t +:+ sep +:+ String.concat sep (t2 :: ts).
Proof. reflexivity. Qed.

Lemma read_elements_appendValue (n d : nat) (X : string) :
  reads_back prefix indent n ->
  forall es e fuel,
    Forall (fun e => String.length (appendValue prefix indent (S d) e) <= n)%nat (e :: es) ->
    (String.length
       (String.concat ("," +:+ appendNewline prefix indent (S d))
          (map (appendValue prefix indent (S d)) (e :: es))
        +:+ appendNewline prefix indent d +:+ "]") <= fuel)%nat ->
    read_elements fuel
      (String.concat ("," +:+ appendNewline prefix indent (S d))
         (map (appendValue prefix indent (S d)) (e :: es))
       +:+ appendNewline prefix indent d +:+ "]" +:+ X)
    = Some (map json_coerce (e :: es), X).
Proof.
  intros IHn es. induction es as [|e2 es IH]; intros e fuel Hall Hfuel.
  - cbn [map String.concat] in *.
    pose proof (appendValue_length e (S d)) as He.
    pose proof (appendNewline_length d) as Hnl.
    rewrite !length_app_string in Hfuel. cbn [String.length] in Hfuel.
    destruct fuel as [|f]; [lia|].
    rewrite read_elements_unfold, IHn; [| |lia|reflexivity].
    2:{ now apply Forall_inv in Hall. }
    rewrite skip_space_newline.
    change (skip_space ("]" +:+ X)) with (String "]" X).
    reflexivity.
  - pose proof (appendValue_length e (S d)) as He.
    set (sep := "," +:+ appendNewline prefix indent (S d)) in *.
    change (map (appendValue prefix indent (S d)) (e :: e2 :: es))
      with (appendValue prefix indent (S d) e
            :: appendValue prefix indent (S d) e2
            :: map (appendValue prefix indent (S d)) es) in *.
    rewrite concat_cons2 in *.
    change (appendValue prefix indent (S d) e2 :: map (appendValue prefix indent (S d)) es)
      with (map (appendValue prefix indent (S d)) (e2 :: es)) in *.
    set (T2 := String.concat sep (map (appendValue prefix indent (S d)) (e2 :: es))) in *.
    assert (Hhead : forall r, skip_space (T2 +:+ r) = T2 +:+ r).
    { intros r. subst T2. cbn [map].
      destruct (map (appendValue prefix indent (S d)) es) as [|t3 ts].
      - apply skip_space_appendValue.
      - rewrite concat_cons2, app_assoc_string. apply skip_space_appendValue. }
    rewrite !length_app_string in Hfuel. cbn [String.length] in Hfuel.
    subst sep. rewrite !app_assoc_string.
    destruct fuel as [|f]; [lia|].
    rewrite read_elements_unfold, IHn; [| |lia|reflexivity].
    2:{ now apply Forall_inv in Hall. }
    change (skip_space ("," +:+ ?r)) with (String "," r).
    rewrite HasPrefix_char. cbn [Ascii.eqb Bool.eqb string_drop].
    rewrite skip_space_newline, Hhead.
    subst T2. rewrite IH; [reflexivity|now apply Forall_inv_tail in Hall|].
    rewrite !length_app_string in *. cbn [String.length] in *. lia.
Qed.

Lemma appendString_app (k R : string) :
  appendString k +:+ R = String json_quote (appendString_from 0 k +:+ String json_quote R).
Proof.
  unfold appendString.
  change (String json_quote (appendString_from 0 k +:+ String json_quote "") +:+ R)
    with (String json_quote ((appendString_from 0 k +:+ String json_quote "") +:+ R)).
  now rewrite app_assoc_string.
Qed.

Lemma read_members_appendValue (n d : nat) (X : string) :
  reads_back prefix indent n ->
  forall ms m fuel,
    Forall (fun m => String.length (appendValue prefix indent (S d) (snd m)) <= n)%nat
      (m :: ms) ->
    (String.length
       (String.concat ("," +:+ appendNewline prefix indent (S d))
          (map (member_text prefix indent d) (m :: ms))
        +:+ appendNewline prefix indent d +:+ "}") <= fuel)%nat ->
    read_members fuel
      (String.concat ("," +:+ appendNewline prefix indent (S d))
         (map (member_text prefix indent d) (m :: ms))
       +:+ appendNewline prefix indent d +:+ "}" +:+ X)
    = Some (map (fun m => (json_ToValidUTF8 (fst m), json_coerce (snd m))) (m :: ms), X).
Proof.
  intros IHn ms. induction ms as [|m2 ms IH]; intros m fuel Hall Hfuel.
  - cbn [map String.concat] in *. unfold member_text in *.
    pose proof (appendValue_length (snd m) (S d)) as He.
    pose proof (appendNewline_length d) as Hnl.
    rewrite !length_app_string in Hfuel. cbn [String.length] in Hfuel.
    rewrite !app_assoc_string, appendString_app.
    destruct fuel as [|f]; [lia|].
    rewrite read_members_unfold, read_appendString.
    change (skip_space (": " +:+ ?r)) with (String ":" (String " " r)).
    rewrite HasPrefix_char. cbn [Ascii.eqb Bool.eqb string_drop].
    change (skip_space (String " " ?r)) with (skip_space r).
    rewrite skip_space_appendValue, IHn; [| |lia|reflexivity].
    2:{ now apply Forall_inv in Hall. }
    rewrite skip_space_newline.
    change (skip_space ("}" +:+ X)) with (String "}" X).
    reflexivity.
  - pose proof (appendValue_length (snd m) (S d)) as He.
    set (sep := "," +:+ appendNewline prefix indent (S d)) in *.
    change (map (member_text prefix indent d) (m :: m2 :: ms))
      with (member_text prefix indent d m :: member_text prefix indent d m2 :: map (member_text prefix indent d) ms) in *.
    rewrite concat_cons2 in *.
    change (member_text prefix indent d m2 :: map (member_text prefix indent d) ms)
      with (map (member_text prefix indent d) (m2 :: ms)) in *.
    set (T2 := String.concat sep (map (member_text prefix indent d) (m2 :: ms))) in *.
    assert (Hhead : forall r, skip_space (T2 +:+ r) = T2 +:+ r).
    { intros r. subst T2. cbn [map].
      destruct (map (member_text prefix indent d) ms) as [|t3 ts]; unfold member_text.
      - cbn [String.concat]. rewrite !app_assoc_string, appendString_app. reflexivity.
      - rewrite concat_cons2. rewrite !app_assoc_string, appendString_app. reflexivity. }
    unfold member_text at 1 in Hfuel. unfold member_text at 1.
    rewrite !length_app_string in Hfuel. cbn [String.length] in Hfuel.
    subst sep. rewrite !app_assoc_string, appendString_app.
    destruct fuel as [|f]; [lia|].
    rewrite read_members_unfold, read_appendString.
    change (skip_space (": " +:+ ?r)) with (String ":" (String " " r)).
    rewrite HasPrefix_char. cbn [Ascii.eqb Bool.eqb string_drop].
    change (skip_space (String " " ?r)) with (skip_space r).
    rewrite skip_space_appendValue, IHn; [| |lia|reflexivity].
    2:{ now apply Forall_inv in Hall. }
    change (skip_space ("," +:+ ?r)) with (String "," r).
    rewrite HasPrefix_char. cbn [Ascii.eqb Bool.eqb string_drop].
    rewrite skip_space_newline, Hhead.
    subst T2. rewrite IH; [reflexivity|now apply Forall_inv_tail in Hall|].
    rewrite !length_app_string in *. cbn [String.length] in *. lia.
Qed.

Lemma concat_length_elem (sep t : string) (ts : list string) :
  In t ts -> (String.length t <= String.length (String.concat sep ts))%nat.
Proof.
  induction ts as [|t1 ts IH]; intros H; [destruct H|].
  destruct ts as [|t2 ts].
  - destruct H as [->|[]]. cbn [String.concat]. lia.
  - rewrite concat_cons2, !length_app_string.
    destruct H as [->|H]; [lia|]. specialize (IH H). lia.
Qed.

Lemma concat_head (sep : string) (t : string) (ts : list string) (r : string) (c : ascii)
    (t' : string) :
  t = String c t' ->
  exists t'', String.concat sep (t :: ts) +:+ r = String c t''.
Proof.
  intros ->. destruct ts as [|t2 ts].
  - cbn [String.concat]. now eexists.
  - rewrite concat_cons2. now eexists.
Qed.

(** Every value is read back, by induction on the length of its text: the
    members of an array or object have shorter texts. *)
Lemma reads_back_all (n : nat) : reads_back prefix indent n.
Proof.
  induction n as [|n IHn]; intros v d X fuel Hn Hfuel HX;
    pose proof (appendValue_length v d) as Hlen; [lia|].
  destruct fuel as [|f]; [lia|].
  destruct v as [|[|]|z|s|elems|members]; cbn [appendValue json_coerce] in *;
    try reflexivity.
  - pose proof (read_number_FormatInt z X HX) as Hr.
    destruct (FormatInt_head z) as (c & D & E & H). rewrite E in *.
    change (String c D +:+ X) with (String c (D +:+ X)) in *.
    now rewrite read_value_number, Hr by exact H.
  - now rewrite appendString_app, read_value_string, read_appendString.
  - unfold appendItems in *. destruct elems as [|e es]; [reflexivity|].
    change (map (appendValue prefix indent (S d)) (e :: es))
      with (appendValue prefix indent (S d) e :: map (appendValue prefix indent (S d)) es)
      in *.
    cbv iota in *.
    change (appendValue prefix indent (S d) e :: map (appendValue prefix indent (S d)) es)
      with (map (appendValue prefix indent (S d)) (e :: es)) in *.
    set (sep := "," +:+ appendNewline prefix indent (S d)) in *.
    rewrite !length_app_string in Hn, Hfuel. cbn [String.length] in Hn, Hfuel.
    pose proof (appendNewline_length (S d)) as Hnl.
    rewrite !app_assoc_string.
    change ("[" +:+ ?r) with (String "[" r).
    rewrite read_value_array, skip_space_newline.
    destruct (appendValue_head e (S d)) as (c & t & Ec & Hc).
    destruct (concat_head sep _ (map (appendValue prefix indent (S d)) es)
                (appendNewline prefix indent d +:+ "]" +:+ X) c t Ec) as (t'' & Et).
    change (map (appendValue prefix indent (S d)) (e :: es))
      with (appendValue prefix indent (S d) e :: map (appendValue prefix indent (S d)) es).
    rewrite Et, (skip_space_value c t'' Hc), HasPrefix_char.
    destruct (value_start_facts c Hc) as (_ & -> & _).
    rewrite <- Et.
    change (appendValue prefix indent (S d) e :: map (appendValue prefix indent (S d)) es)
      with (map (appendValue prefix indent (S d)) (e :: es)).
    subst sep. rewrite (read_elements_appendValue n d X IHn).
    + reflexivity.
    + apply Forall_forall. intros e' He'. apply list_elem_of_In in He'.
      pose proof (concat_length_elem ("," +:+ appendNewline prefix indent (S d)) _ _
                    (in_map (appendValue prefix indent (S d)) _ _ He')) as Hle.
      lia.
    + rewrite !length_app_string. cbn [String.length]. lia.
  - unfold appendItems in *. fold (member_text prefix indent d) in *.
    destruct members as [|m ms]; [reflexivity|].
    change (map (member_text prefix indent d) (m :: ms))
      with (member_text prefix indent d m :: map (member_text prefix indent d) ms) in *.
    cbv iota in *.
    change (member_text prefix indent d m :: map (member_text prefix indent d) ms)
      with (map (member_text prefix indent d) (m :: ms)) in *.
    set (sep := "," +:+ appendNewline prefix indent (S d)) in *.
    rewrite !length_app_string in Hn, Hfuel. cbn [String.length] in Hn, Hfuel.
    pose proof (appendNewline_length (S d)) as Hnl.
    rewrite !app_assoc_string.
    change ("{" +:+ ?r) with (String "{" r).
    rewrite read_value_object, skip_space_newline.
    assert (Ec : member_text prefix indent d m
                 = String json_quote
                     (appendString_from 0 (fst m)
                      +:+ String json_quote
                            (": " +:+ appendValue prefix indent (S d) (snd m) +:+ ""))).
    { unfold member_text.
      rewrite <- (app_nil_r_string (appendString m.1 +:+ _)).
      now rewrite !app_assoc_string, appendString_app. }
    destruct (concat_head sep _ (map (member_text prefix indent d) ms)
                (appendNewline prefix indent d +:+ "}" +:+ X) _ _ Ec) as (t'' & Et).
    change (map (member_text prefix indent d) (m :: ms))
      with (member_text prefix indent d m :: map (member_text prefix indent d) ms).
    rewrite Et, (skip_space_value json_quote t'' eq_refl), HasPrefix_char.
    change (Ascii.eqb "}" json_quote) with false. cbv iota.
    rewrite <- Et.
    change (member_text prefix indent d m :: map (member_text prefix indent d) ms)
      with (map (member_text prefix indent d) (m :: ms)).
    subst sep. rewrite (read_members_appendValue n d X IHn).
    + reflexivity.
    + apply Forall_forall. intros m' Hm'. apply list_elem_of_In in Hm'.
      pose proof (concat_length_elem ("," +:+ appendNewline prefix indent (S d)) _ _
                    (in_map (member_text prefix indent d) _ _ Hm')) as Hle.
      unfold member_text at 1 in Hle. rewrite !length_app_string in Hle. lia.
    + rewrite !length_app_string. cbn [String.length]. lia.
Qed.

(** With a prefix and an indent made of spaces, what [appendValue] writes
    is a JSON text, and it denotes the value written, its strings coerced
    to valid UTF-8. *)
Lemma json_parse_appendValue (v : json_value) :
  json_parse (appendValue prefix indent 0 v) = Some (json_coerce v).
Proof.
  unfold json_parse.
  rewrite <- (app_nil_r_string (appendValue prefix indent 0 v)) at 2.
  rewrite skip_space_appendValue.
  rewrite (reads_back_all (String.length (appendValue prefix indent 0 v)));
    [reflexivity|lia|lia|reflexivity].
Qed.

End appendValue_read.

(** ** The pieces of a document

    A property of texts that is kept by concatenation and holds of the
    punctuation, the numbers, the strings and the line breaks that
    [appendValue] writes holds of every value it writes. *)

Lemma is_digit_text (c : ascii) : is_digit c = true -> text_byte c = true.
Proof.
  unfold is_digit, text_byte, ascii_byte, not_newline, utf8_RuneSelf. intros H.
  apply andb_true_iff in H. destruct H as [Hlo Hhi].
  apply N.leb_le in Hlo. apply N.leb_le in Hhi.
  apply andb_true_iff. split; [apply N.ltb_lt; lia|]. apply negb_true_iff.
  destruct (Ascii.eqb_spec c json_newline) as [->|];
    [vm_compute in Hlo; contradiction|reflexivity].
Qed.

Lemma FormatInt_text (n : Z) : all_bytes text_byte (strconv_FormatInt n) = true.
Proof.
  unfold strconv_FormatInt.
  assert (Hu : forall d, all_bytes text_byte (NilZero.string_of_uint d) = true).
  { intros d. destruct d; try reflexivity;
      apply (all_bytes_impl is_digit); auto using is_digit_text;
      apply (digits_string_of_uint (_ d)). }
  destruct (Z.to_int n); cbn [NilZero.string_of_int all_bytes]; now rewrite Hu.
Qed.

Lemma appendItems_length_elem (prefix indent : string) (d : nat)
    (opening closing t : string) (items : list string) :
  In t items ->
  (String.length t < String.length (appendItems prefix indent d opening closing items))%nat.
Proof.
  intros H. unfold appendItems. destruct items as [|t1 ts]; [destruct H|].
  pose proof (concat_length_elem ("," +:+ appendNewline prefix indent (S d)) _ _ H) as Hle.
  rewrite !length_app_string. unfold appendNewline at 1. cbn [String.length]. lia.
Qed.

(** An object with a member, at the top level: its opening brace and its
    members, then the closing brace on a line of its own. *)
Lemma object_text (prefix indent : string) (m : string * json_value)
    (ms : list (string * json_value)) :
  appendValue prefix indent 0 (json_object (m :: ms))
  = ("{" +:+ appendNewline prefix indent 1
     +:+ String.concat ("," +:+ appendNewline prefix indent 1)
           (map (member_text prefix indent 0) (m :: ms)))
    +:+ appendNewline prefix indent 0 +:+ "}".
Proof.
  cbn [appendValue]. unfold appendItems. fold (member_text prefix indent 0).
  cbn [map]. now rewrite !app_assoc_string.
Qed.

Section appendValue_pieces.
Variables prefix indent : string.
Variable P : string -> Prop.
Hypothesis P_app : forall a b, P a -> P b -> P (a +:+ b).
Hypothesis P_text : forall a, all_bytes text_byte a = true -> P a.
Hypothesis P_string : forall s, P (appendString s).
Hypothesis P_newline : forall d, P (appendNewline prefix indent (S d)).

Lemma pieces_concat (sep : string) (items : list string) :
  P sep -> Forall P items -> P (String.concat sep items).
Proof.
  intros Hsep. induction items as [|t ts IH]; intros H.
  - now apply P_text.
  - destruct ts as [|t2 ts].
    + now apply Forall_inv in H.
    + rewrite concat_cons2. apply P_app; [now apply Forall_inv in H|].
      apply P_app; [assumption|]. apply IH. now apply Forall_inv_tail in H.
Qed.

Lemma pieces_separator (d : nat) : P ("," +:+ appendNewline prefix indent (S d)).
Proof. apply P_app; [now apply P_text|apply P_newline]. Qed.

Lemma pieces_items (d : nat) (opening closing : string) (items : list string) :
  all_bytes text_byte opening = true -> all_bytes text_byte closing = true ->
  Forall P items ->
  P (appendItems prefix indent (S d) opening closing items).
Proof.
  intros Ho Hc H. unfold appendItems. destruct items as [|t ts].
  - apply P_app; now apply P_text.
  - repeat apply P_app; try (now apply P_text); try apply P_newline.
    apply pieces_concat; [apply pieces_separator|assumption].
Qed.

Lemma pieces_value (n : nat) (v : json_value) (d : nat) :
  (String.length (appendValue prefix indent (S d) v) <= n)%nat ->
  P (appendValue prefix indent (S d) v).
Proof.
  revert v d. induction n as [|n IHn]; intros v d Hn;
    [pose proof (appendValue_length prefix indent v (S d)); lia|].
  destruct v as [|[|]|z|s|elems|members]; cbn [appendValue] in *;
    try (now apply P_text).
  - apply P_text, FormatInt_text.
  - apply P_string.
  - apply pieces_items; try reflexivity.
    apply Forall_forall. intros t Ht. apply list_elem_of_In in Ht.
    pose proof (appendItems_length_elem prefix indent (S d) "[" "]" t _ Ht) as Hlt.
    apply in_map_iff in Ht. destruct Ht as (e & <- & _). apply IHn. lia.
  - apply pieces_items; try reflexivity.
    apply Forall_forall. intros t Ht. apply list_elem_of_In in Ht.
    pose proof (appendItems_length_elem prefix indent (S d) "{" "}" t _ Ht) as Hlt.
    apply in_map_iff in Ht. destruct Ht as (m & <- & _).
    rewrite !length_app_string in Hlt.
    apply P_app; [apply P_string|].
    apply P_app; [now apply P_text|]. apply IHn. lia.
Qed.

Lemma pieces_object_body (ms : list (string * json_value)) :
  P ("{" +:+ appendNewline prefix indent 1
     +:+ String.concat ("," +:+ appendNewline prefix indent 1)
           (map (member_text prefix indent 0) ms)).
Proof.
  apply P_app; [now apply P_text|]. apply P_app; [apply P_newline|].
  apply pieces_concat; [apply pieces_separator|].
  apply Forall_forall. intros t Ht. apply list_elem_of_In in Ht.
  apply in_map_iff in Ht. destruct Ht as (m & <- & _). unfold member_text.
  apply P_app; [apply P_string|]. apply P_app; [now apply P_text|].
  now apply (pieces_value _ _ 0 (le_n _)).
Qed.

End appendValue_pieces.

(** ** The layout of the document *)

Lemma one_piece_app (a a' : string) : one_piece a -> one_piece a' -> one_piece (a +:+ a').
Proof. intros H H' b. now rewrite app_assoc_string, H, H'. Qed.

Lemma one_piece_line (a : string) : all_bytes not_newline a = true -> one_piece a.
Proof.
  intros H b. induction a as [|c a IH]; [reflexivity|].
  cbn [all_bytes] in H. apply andb_true_iff in H. destruct H as [Hc H].
  change (String c a +:+ b) with (String c (a +:+ b)). cbn [lines_indented].
  unfold not_newline in Hc. apply negb_true_iff in Hc. rewrite Hc. now apply IH.
Qed.

Lemma one_piece_text (a : string) : all_bytes text_byte a = true -> one_piece a.
Proof. intros H. apply one_piece_line. revert H. apply all_bytes_impl, text_byte_not_newline. Qed.

Lemma high_byte_not_newline (c : ascii) : high_byte c = true -> not_newline c = true.
Proof.
  unfold high_byte, not_newline. intros H. apply N.leb_le in H. apply negb_true_iff.
  destruct (Ascii.eqb_spec c json_newline) as [->|]; [vm_compute in H; contradiction|reflexivity].
Qed.

Lemma appendString_from_line_bounded (n : nat) (s : string) :
  (String.length s <= n)%nat -> all_bytes not_newline (appendString_from 0 s) = true.
Proof.
  revert s. induction n as [|n IH]; intros [|b s] Hn; try reflexivity;
    cbn [String.length] in Hn; [lia|].
  cbn [appendString_from].
  destruct (N.ltb (N_of_ascii b) utf8_RuneSelf) eqn:Hb.
  - rewrite all_bytes_app, IH by lia. rewrite andb_true_r.
    apply (all_bytes_impl text_byte); [apply text_byte_not_newline|].
    now apply appendString_byte_text.
  - destruct (utf8_DecodeRuneInString (String b s)) as [c size] eqn:HD.
    rewrite all_bytes_app.
    destruct ((c =? utf8_RuneError)%N && (size =? 1)%nat) eqn:Hv.
    + apply andb_true_iff in Hv. destruct Hv as [_ Hs]. apply Nat.eqb_eq in Hs. subst size.
      cbn [Nat.sub]. now rewrite IH by lia.
    + apply N.ltb_ge in Hb.
      destruct (Decode_valid b s c size Hb HD Hv) as (H2 & Hlen & Hhigh & _).
      destruct size as [|size]; [lia|]. cbn [Nat.sub]. rewrite Nat.sub_0_r.
      rewrite appendString_from_skip, IH.
      2:{ apply string_take_length_drop in Hlen. cbn [string_drop String.length] in Hlen. lia. }
      rewrite andb_true_r.
      destruct (N.eqb_spec c 8232) as [->|N28]; [reflexivity|].
      destruct (N.eqb_spec c 8233) as [->|N29]; [reflexivity|]. cbn [orb].
      revert Hhigh. apply all_bytes_impl, high_byte_not_newline.
Qed.

(** A string is written on one line. *)
Lemma appendString_line (s : string) : all_bytes not_newline (appendString s) = true.
Proof.
  unfold appendString. cbn [all_bytes].
  rewrite all_bytes_app, (appendString_from_line_bounded (String.length s)) by lia.
  reflexivity.
Qed.

Lemma one_piece_newline (d : nat) : one_piece (appendNewline "" " " (S d)).
Proof.
  intros b. unfold appendNewline. cbn [string_repeat].
  change (String json_newline ("" +:+ " " +:+ string_repeat " " d) +:+ b)
    with (String json_newline (String " " (string_repeat " " d +:+ b))).
  cbn [lines_indented]. change (Ascii.eqb json_newline json_newline) with true.
  change (Ascii.eqb " " json_newline) with false. cbv iota.
  rewrite HasPrefix_char. cbn [Ascii.eqb Bool.eqb andb].
  apply one_piece_line. clear b. induction d as [|d IH]; [reflexivity|].
  cbn [string_repeat]. now rewrite all_bytes_app, IH.
Qed.

Lemma HasSuffix_app (t x : string) : strings_HasSuffix (t +:+ x) x = true.
Proof. apply HasSuffix_iff. now exists t. Qed.

(** An object with a member, written at the top level with the indent
    [" "], is indented. *)
Lemma json_indented_object (m : string * json_value) (ms : list (string * json_value)) :
  json_indented (appendValue "" " " 0 (json_object (m :: ms))) = true.
Proof.
  rewrite object_text.
  pose proof (pieces_object_body "" " " one_piece one_piece_app one_piece_text
                (fun s => one_piece_line _ (appendString_line s)) one_piece_newline
                (m :: ms)) as HB.
  set (B := "{" +:+ _) in *.
  assert (HP : strings_HasPrefix (B +:+ String json_newline "}") "{" = true) by reflexivity.
  clearbody B. unfold json_indented.
  change (appendNewline "" " " 0 +:+ "}") with (String json_newline "}").
  rewrite HP, (HasSuffix_app B (String json_newline "}")), length_app_string.
  cbn [String.length]. replace (String.length B + 2 - 2)%nat with (String.length B) by lia.
  rewrite string_take_app.
  rewrite <- (app_nil_r_string B). rewrite HB. reflexivity.
Qed.

(** ** The document is valid UTF-8 *)

Lemma valid_piece_newline (d : nat) : valid_piece (appendNewline "" " " d).
Proof.
  apply valid_piece_ascii. unfold appendNewline. cbn [all_bytes String.append].
  induction d as [|d IH]; [reflexivity|]. cbn [string_repeat]. now rewrite all_bytes_app.
Qed.

(** Whatever bytes the strings of a value hold, the text written for it
    with the indent [" "] is valid UTF-8. *)
Lemma utf8_valid_object (m : string * json_value) (ms : list (string * json_value)) :
  utf8_ValidString (appendValue "" " " 0 (json_object (m :: ms))) = true.
Proof.
  rewrite object_text.
  rewrite (pieces_object_body "" " " valid_piece valid_piece_app valid_piece_text
             valid_piece_appendString (fun d => valid_piece_newline (S d)) (m :: ms)).
  reflexivity.
Qed.

(** ** What [ServeIntroSpect] prints *)

(** The members of the document under the tags [id], [type] and
    [version_major], [version_minor], [version_patch]. *)
Lemma IntroSpect_members (v : IntroSpect) :
  let doc := json_coerce (IntroSpect_value v) in
  json_member "id" doc = Some (json_string (json_ToValidUTF8 (ID v)))
  /\ json_member "type" doc = Some (json_number (PluginType_value (Type' v)))
  /\ json_member "version_major" doc = Some (json_number (VersionMajor v))
  /\ json_member "version_minor" doc = Some (json_number (VersionMinor v))
  /\ json_member "version_patch" doc = Some (json_number (VersionPatch v)).
Proof. repeat split. Qed.

(** C8 (as amended).  Under [encoding/json], when the first start-up
    argument is [-introspect] the function makes one call, printing a text
    on standard output, and ends the process with status 0.  The text is an
    indented JSON object: it is valid UTF-8, a JSON reader accepts it, every
    member is on a line of its own behind a space, [type], [version_major],
    [version_minor] and [version_patch] are the numbers the descriptor
    holds, and [id] is the descriptor's id with every byte that begins no
    valid UTF-8 sequence replaced by U+FFFD, so the descriptor's id itself
    when that is valid UTF-8.  For every other argument list the function
    makes no call and returns. *)
Theorem ServeIntroSpect_document (pluginSpect : IntroSpect) :
  (forall prog rest,
      exists text doc,
        @ServeIntroSpect encoding_json pluginSpect (prog :: "-introspect" :: rest)
        = ([fmt_Println text], Exited 0)
        /\ utf8_ValidString text = true
        /\ json_indented text = true
        /\ json_parse text = Some doc
        /\ json_member "id" doc = Some (json_string (json_ToValidUTF8 (ID pluginSpect)))
        /\ (utf8_ValidString (ID pluginSpect) = true ->
            json_member "id" doc = Some (json_string (ID pluginSpect)))
        /\ json_member "type" doc
           = Some (json_number (PluginType_value (Type' pluginSpect)))
        /\ json_member "version_major" doc = Some (json_number (VersionMajor pluginSpect))
        /\ json_member "version_minor" doc = Some (json_number (VersionMinor pluginSpect))
        /\ json_member "version_patch" doc = Some (json_number (VersionPatch pluginSpect)))
  /\ (forall os_Args,
        os_Args !! 1%nat = Some "-introspect"
        \/ @ServeIntroSpect encoding_json pluginSpect os_Args = ([], Returned tt)).
Proof.
  split; [|intros os_Args; apply ServeIntroSpect_other].
  intros prog rest.
  exists (appendValue "" " " 0 (IntroSpect_value pluginSpect)),
         (json_coerce (IntroSpect_value pluginSpect)).
  destruct (IntroSpect_members pluginSpect) as (Hid & Htype & Hmajor & Hminor & Hpatch).
  split; [reflexivity|].
  split; [apply utf8_valid_object|].
  split; [apply json_indented_object|].
  split; [now apply json_parse_appendValue|].
  split; [exact Hid|].
  split; [|now repeat split].
  intros Hvalid. cbv zeta in Hid. rewrite Hid. now rewrite (ToValidUTF8_valid _ Hvalid).
Qed.

Lemma ServeIntroSpect_document_witness :
  utf8_ValidString (ID demo_spect) = true
  /\ exists text doc,
       @ServeIntroSpect encoding_json demo_spect ["plugin"; "-introspect"]
       = ([fmt_Println text], Exited 0)
       /\ utf8_ValidString text = true
       /\ json_indented text = true
       /\ json_parse text = Some doc
       /\ json_member "id" doc = Some (json_string "org.aroz.zoraxy.debugger")
       /\ json_member "type" doc = Some (json_number 0)
       /\ json_member "version_major" doc = Some (json_number 1)
       /\ json_member "version_minor" doc = Some (json_number 0)
       /\ json_member "version_patch" doc = Some (json_number 0).
Proof.
  split; [reflexivity|].
  destruct (proj1 (ServeIntroSpect_document demo_spect) "plugin" [])
    as (text & doc & Hrun & Hutf8 & Hind & Hparse & _ & Hid & Htype & Hmajor & Hminor
        & Hpatch).
  exists text, doc. repeat split; try assumption. exact (Hid eq_refl).
Defined.

(** C8, counterexample.  A descriptor whose id is the byte [0xFF] is
    printed with the id U+FFFD: the document opens with the line
    [ "id": "\ufffd",] and the id a reader finds in it is not the
    descriptor's. *)
Lemma ServeIntroSpect_id_coerced :
  exists text doc,
    @ServeIntroSpect encoding_json raw_id_spect ["plugin"; "-introspect"]
    = ([fmt_Println text], Exited 0)
    /\ strings_HasPrefix text
         (text_of_lines ["{"; " " +:+ quoted "id" +:+ ": " +:+ quoted "\ufffd" +:+ ","])
       = true
    /\ json_parse text = Some doc
    /\ json_member "id" doc
       = Some (json_string (String "239" (String "191" (String "189" ""))))
    /\ ID raw_id_spect = String "255" ""
    /\ json_member "id" doc <> Some (json_string (ID raw_id_spect)).
Proof.
  exists (appendValue "" " " 0 (IntroSpect_value raw_id_spect)),
         (json_coerce (IntroSpect_value raw_id_spect)).
  split; [reflexivity|].
  split; [vm_compute; reflexivity|].
  split; [vm_compute; reflexivity|].
  split; [reflexivity|].
  split; [reflexivity|].
  intros H. discriminate H.
Qed.
